(** * testworld-go: provisioning, readiness and the event timeline

    A shallow embedding of [testworld.go], [worldlog.go] and [spec.go].
    Go code that touches shared memory, the file system, the clock, the
    test handle or the container provider is written in a small effect monad
    ([Prog]); a handler gives every effect its meaning on an explicit system
    state ([Sys]), a sequential runner executes one goroutine, and a thread
    pool interleaves several. *)

From Stdlib Require Import ZArith Lia Bool Ascii String List.
From Stdlib Require Import Floats.SpecFloat.
From stdpp Require Import base tactics option list gmap strings pretty sorting.

Open Scope Z_scope.

(* ================================================================== *)
(** * Go strings *)
(* ================================================================== *)

Module GoStrings.

(** [s[n:]] *)
Fixpoint sdrop (n : nat) (s : string) : string :=
  match n, s with
  | O, _ => s
  | S n', String _ s' => sdrop n' s'
  | S _, EmptyString => EmptyString
  end.

(** [s[:n]] *)
Fixpoint stake (n : nat) (s : string) : string :=
  match n, s with
  | O, _ => EmptyString
  | S n', String c s' => String c (stake n' s')
  | S _, EmptyString => EmptyString
  end.

(** [strings.Index(s, sep)], counting positions from [i]: the first
    position at which [sep] starts, or -1. *)
Fixpoint Index_from (i : nat) (s sep : string) : Z :=
  match s with
  | EmptyString => if String.prefix sep s then Z.of_nat i else -1
  | String _ s' =>
      if String.prefix sep s then Z.of_nat i else Index_from (S i) s' sep
  end.
Definition Index (s sep : string) : Z := Index_from 0 s sep.

(** [strings.LastIndex(s, sep)]: the last position at which [sep]
    starts, or -1. *)
Fixpoint LastIndex_from (i : nat) (s sep : string) : Z :=
  match s with
  | EmptyString => if String.prefix sep s then Z.of_nat i else -1
  | String _ s' =>
      let r := LastIndex_from (S i) s' sep in
      if 0 <=? r then r
      else if String.prefix sep s then Z.of_nat i else -1
  end.
Definition LastIndex (s sep : string) : Z := LastIndex_from 0 s sep.

(** [strings.Repeat(c, n)] for a one-byte string; Go panics on a negative
    count, which the callers exclude by clamping. *)
Fixpoint Repeat (c : ascii) (n : nat) : string :=
  match n with
  | O => EmptyString
  | S n' => String c (Repeat c n')
  end.

(** [strings.Join] *)
Definition Join (l : list string) (sep : string) : string :=
  String.concat sep l.

End GoStrings.
Import GoStrings.

(* ================================================================== *)
(** * basename *)
(* ================================================================== *)

(** [testworld.go], lines 24-32. *)
Definition basename (s : string) : string :=
  let s :=
    let i := LastIndex s "/" in
    if 0 <=? i then sdrop (Z.to_nat (i + 1)) s else s in
  let s :=
    let i := Index s ":" in
    if 0 <=? i then stake (Z.to_nat i) s else s in
  s.

(** The wording of the specification: the fields of a string between
    occurrences of a separator byte, its last path segment, and the part of
    a segment before the first colon. *)
Fixpoint fields (c : ascii) (s : string) : list string :=
  match s with
  | EmptyString => [EmptyString]
  | String a s' =>
      if Ascii.eqb a c then EmptyString :: fields c s'
      else match fields c s' with
           | x :: r => String a x :: r
           | [] => [String a EmptyString]
           end
  end.

Definition last_segment (s : string) : string :=
  List.last (fields "/" s) EmptyString.

Definition before_colon (s : string) : string :=
  List.hd EmptyString (fields ":" s).

Definition spec_kind_of (identifier : string) : string :=
  before_colon (last_segment identifier).

(* ================================================================== *)
(** * Machine integers, float64 and time *)
(* ================================================================== *)

(** Go's [int] and [int64] on a 64-bit target: arithmetic wraps around. *)
Definition minInt64 : Z := - 2 ^ 63.
Definition maxInt64 : Z := 2 ^ 63 - 1.
Definition wrap64 (z : Z) : Z := (z + 2 ^ 63) mod 2 ^ 64 - 2 ^ 63.

(** IEEE 754 binary64 with round-to-nearest-even, as Go's [float64]. The
    operations are the executable ones of [SpecFloat]. *)
Module F64.

Definition prec : Z := 53.
Definition emax : Z := 1024.

Abbreviation t := spec_float (only parsing).

Definition add : t -> t -> t := SFadd prec emax.
Definition mul : t -> t -> t := SFmul prec emax.
Definition div : t -> t -> t := SFdiv prec emax.

(** [float64(z)] for an integer [z]. *)
Definition of_int (z : Z) : t := binary_normalize prec emax z 0 false.

Definition zero : t := S754_zero false.
Definition one : t := of_int 1.

(** The integer part of a finite float, rounding toward zero. *)
Definition trunc (f : t) : option Z :=
  match f with
  | S754_zero _ => Some 0
  | S754_finite s m e =>
      let a := match e with
               | Zneg p => Z.pos m / 2 ^ Z.pos p
               | _ => Z.pos m * 2 ^ e
               end in
      Some (if s then - a else a)
  | _ => None
  end.

(** [int(f)]: truncation toward zero. When the value does not fit (or is
    NaN or infinite) the Go specification leaves the result to the
    implementation; amd64's conversion instruction yields the most
    negative integer. *)
Definition to_int (f : t) : Z :=
  match trunc f with
  | Some z => if (minInt64 <=? z) && (z <=? maxInt64) then z else minInt64
  | None => minInt64
  end.

End F64.

(** [time.Time] and [time.Duration]: instants and spans in nanoseconds.
    Instant 0 is the zero [Time]; [time.Now()] never returns it. *)
Module GoTime.

Abbreviation Time := Z (only parsing).
Abbreviation Duration := Z (only parsing).

Definition zeroTime : Time := 0.
Definition IsZero (t : Time) : bool := t =? 0.

Definition Second : Duration := 1000000000.

(** [t.Sub(u)]: the difference, saturated to the range of [Duration]. *)
Definition Sub (t u : Time) : Duration :=
  let d := t - u in
  if d <? minInt64 then minInt64
  else if maxInt64 <? d then maxInt64
  else d.

(** [d.Seconds()]: whole seconds plus the fraction, as the standard
    library computes it. *)
Definition Seconds (d : Duration) : F64.t :=
  let sec := Z.quot d Second in
  let nsec := Z.rem d Second in
  F64.add (F64.of_int sec) (F64.div (F64.of_int nsec) (F64.of_int 1000000000)).

End GoTime.
Import GoTime.

(** Formatting verbs of [fmt]. *)
Module GoFmt.

(** [%d] *)
Definition fmt_d (z : Z) : string := pretty z.

(** Zero padding on the left up to a width, the sign first. *)
Definition zero_pad (width : nat) (sign digits : string) : string :=
  sign +:+
  Repeat "0" (width - String.length sign - String.length digits) +:+
  digits.

(** [%03d] *)
Definition fmt_03d (z : Z) : string :=
  zero_pad 3 (if z <? 0 then "-" else "") (pretty (Z.abs z)).

(** The decimal expansion of [|f|] scaled by 1000 and rounded to the
    nearest integer, ties to even, for a finite [f = m * 2^e]. *)
Definition milli_round (m : positive) (e : Z) : Z :=
  match e with
  | Zneg p =>
      let d := 2 ^ Z.pos p in
      let q := (Z.pos m * 1000) / d in
      let r := (Z.pos m * 1000) mod d in
      match 2 * r ?= d with
      | Lt => q
      | Gt => q + 1
      | Eq => if Z.even q then q else q + 1
      end
  | _ => Z.pos m * 2 ^ e * 1000
  end.

Definition fmt_milli (s : bool) (n : Z) : string :=
  (if s then "-" else "") +:+ pretty (n / 1000) +:+ "." +:+
  zero_pad 3 "" (pretty (n mod 1000)).

(** [%.3f] *)
Definition fmt_3f (f : F64.t) : string :=
  match f with
  | S754_zero s => fmt_milli s 0
  | S754_finite s m e => fmt_milli s (milli_round m e)
  | S754_infinity s => if s then "-Inf" else "+Inf"
  | S754_nan => "NaN"
  end.

(** [fmt.Sprintln]-style joining used by [t.Log]: operands separated by
    single spaces. *)
Definition sprint_args (args : list string) : string := Join args " ".

End GoFmt.
Import GoFmt.

(* ================================================================== *)
(** * Data model *)
(* ================================================================== *)

(** [testworld.go], lines 18-20. *)
Definition timelineWidth : Z := 80.

(** A Go [error]: nil or a message. *)
Abbreviation error := (option string) (only parsing).

(** A [testcontainers.Container]: nil or an opaque provider handle. *)
Abbreviation Container := (option nat) (only parsing).

(** References to heap objects: [*pendingContainer], [*Event], the backing
    array of a [pending] slice, an open event log file. *)
Abbreviation SlotRef := nat (only parsing).
Abbreviation EventRef := nat (only parsing).
Abbreviation ArrRef := nat (only parsing).
Abbreviation File := string (only parsing).

(** A user-supplied [OnDestroy] function, named by a number. *)
Abbreviation Callback := nat (only parsing).

(** [spec.go]: [ContainerSpec]. The provider-side options that no code of
    this package inspects (files, tmpfs, modifiers, wait strategy) are left
    out; the remaining fields are carried through as they are. *)
Record FromDockerfile := { Context : string }.

Record ContainerSpec := {
  Image : string;
  spec_FromDockerfile : FromDockerfile;
  Started : bool;
  Awaited : bool;
  Replicas : Z;
  Entrypoint : list string;
  Cmd : list string;
  ExposedPorts : list string;
  OnDestroy : option Callback;
}.

(** [testcontainers.GenericContainerRequest] *)
Record Request := {
  req_Started : bool;
  req_FromDockerfile : FromDockerfile;
  req_Image : string;
  req_Name : string;
  req_Networks : list string;
  req_NetworkAliases : list (string * list string);
  req_Entrypoint : list string;
  req_Cmd : list string;
  req_ExposedPorts : list string;
}.

(** [spec.go]: [toGenericContainerRequest]. *)
Definition toGenericContainerRequest (spec : ContainerSpec)
    (name networkName : string) (aliases : list string) : Request :=
  {| req_Started := Started spec;
     req_FromDockerfile := spec_FromDockerfile spec;
     req_Image := Image spec;
     req_Name := name;
     req_Networks := [networkName];
     req_NetworkAliases := [(networkName, aliases)];
     req_Entrypoint := Entrypoint spec;
     req_Cmd := Cmd spec;
     req_ExposedPorts := ExposedPorts spec |}.

(** [testworld.go], lines 51-56: [pendingContainer]. [pc_ready] is true once
    the channel [ready] has been closed. *)
Record pendingContainer := {
  pc_name : string;
  pc_ready : bool;
  pc_container : Container;
  pc_err : error;
}.

(** [testworld.go], lines 58-64: [WorldContainer]. It is a value type: the
    registry and the caller hold separate copies that share the backing
    array of [pending]. *)
Record WorldContainer := {
  Name : string;
  isReady : bool;
  pending : ArrRef;
  onDestroy : option Callback;
}.

(** [testworld.go], lines 37-45: [World]. The context, the test handle and
    the [WorldLog] are single ambient objects of the system state. *)
Record World := {
  name : string;
  cn : string;
  containers : gmap string WorldContainer;
  containerKinds : gmap string Z;
}.

(** [worldlog.go]: [Event]. *)
Record Event := {
  id : Z;
  description : string;
  ev_startTime : Time;
  ev_finishTime : Time;
  log : option File;
}.

(** [worldlog.go]: [WorldLog]. [rw] is true while the mutex is held;
    [world] is false for the dummy log, whose world pointer is nil. *)
Record WorldLog := {
  rw : bool;
  world : bool;
  worldName : string;
  combinedLogPath : string;
  eventsDir : string;
  events : list EventRef;
  startTime : Time;
  finishTime : Time;
  eventCounter : Z;
}.

(** [&WorldLog{}] *)
Definition dummyWorldLog : WorldLog :=
  {| rw := false; world := false; worldName := ""; combinedLogPath := "";
     eventsDir := ""; events := []; startTime := zeroTime;
     finishTime := zeroTime; eventCounter := 0 |}.

(** A goroutine started by a [go] statement. The only one in the package
    is [go createFn()] with the variables the closure captures. *)
Inductive Task :=
| CreateFn (kind replicaName : string) (pc : SlotRef) (containerRequest : Request).

(* ================================================================== *)
(** * Effects and programs *)
(* ================================================================== *)

Inductive Eff : Type :=
(* clock *)
| ENow
(* the WorldLog and its events *)
| EGetLog
| ESetLog (el : WorldLog)
| ELock
| EUnlock
| EAllocEvent (now : Time)
| EAppendEvent (ev : EventRef)
| EIncrCounter
| EGetEvent (ev : EventRef)
| ESetDescription (ev : EventRef) (d : string)
| ESetEventLog (ev : EventRef) (f : option File)
| ESetFinishTime (ev : EventRef) (t : Time)
| ESetLogFinishTime (t : Time)
(* files *)
| EAbs (path : string)
| EMkdirAll (path : string)
| ETempDir
| ECreate (path : string)
| EWrite (f : File) (data : string)
| EClose (f : File)
| ECreateCombined (path : string)
| EWriteCombined (data : string)
| ECloseCombined
| EReadDir (dir : string)
| EReadFile (path : string)
(* testing.T *)
| ETLog (args : list string)
| ETFatalf (msg : string)
(* pending slots *)
| EMakePending (n : nat)
| ESetPending (a : ArrRef) (i : nat) (pc : SlotRef)
| EGetPending (a : ArrRef)
| ENewSlot (name : string)
| ESlotSetContainer (pc : SlotRef) (c : Container)
| ESlotSetErr (pc : SlotRef) (e : error)
| ESlotClose (pc : SlotRef)
| ERecv (pc : SlotRef)
| EGetSlot (pc : SlotRef)
(* provider and user code *)
| EGenericContainer (req : Request)
| ECleanupContainer (c : Container)
| ELogs (c : Container)
| ETerminate (c : Container) (grace : Duration)
| ECallback (cb : Callback) (wc : WorldContainer)
(* go statement *)
| EGo (t : Task).

(** What an effect returns to the program. *)
Definition Resp (e : Eff) : Type :=
  match e with
  | ENow => Time
  | EGetLog => WorldLog
  | EAllocEvent _ => EventRef
  | EGetEvent _ => Event
  | EAbs _ => string + string
  | EMkdirAll _ => error
  | ETempDir => string
  | ECreate _ => option File
  | EWrite _ _ => error
  | ECreateCombined _ => error
  | EWriteCombined _ => error
  | EReadDir _ => list string + string
  | EReadFile _ => string + string
  | EMakePending _ => ArrRef
  | EGetPending _ => list (option SlotRef)
  | ENewSlot _ => SlotRef
  | EGetSlot _ => pendingContainer
  | EGenericContainer _ => Container * error
  | ELogs _ => string + string
  | ETerminate _ _ => error
  | _ => unit
  end.

(** Programs: a result, the end of the goroutine ([runtime.Goexit], which
    [t.Fatalf] calls), a run-time panic, or an effect and what follows. *)
Inductive Prog (A : Type) : Type :=
| Ret (a : A)
| Exit
| Panic (msg : string)
| Vis (e : Eff) (k : Resp e -> Prog A).

Arguments Ret {A} a.
Arguments Exit {A}.
Arguments Panic {A} msg.
Arguments Vis {A} e k.

Fixpoint bind {A B} (m : Prog A) (f : A -> Prog B) : Prog B :=
  match m with
  | Ret a => f a
  | Exit => Exit
  | Panic msg => Panic msg
  | Vis e k => Vis e (fun x => bind (k x) f)
  end.

Definition trigger (e : Eff) : Prog (Resp e) := Vis e Ret.

Notation "x <- m ;; k" := (bind m (fun x => k))
  (at level 100, m at next level, right associativity).
Notation "m ;;; k" := (bind m (fun _ => k))
  (at level 100, right associativity).

(** A [for ... range] loop over a slice. *)
Fixpoint for_each {A} (l : list A) (body : A -> Prog unit) : Prog unit :=
  match l with
  | [] => Ret tt
  | x :: l' => body x ;;; for_each l' body
  end.

(* ================================================================== *)
(** * worldlog.go *)
(* ================================================================== *)

(** A line feed, and a line as [fmt.Fprintln] writes it. *)
Definition LF : string := String "010" EmptyString.
Definition line (s : string) : string := s +:+ LF.

(** [filepath.Join] of a clean directory and a file name. *)
Definition path_join (dir file : string) : string := dir +:+ "/" +:+ file.

Definition event_log_name (i : Z) : string :=
  "event_" +:+ fmt_03d i +:+ ".log".

(** [NewWorldLog], lines 353-381. On success the new log is returned; it
    becomes the world's log when [New] stores it. *)
Definition NewWorldLog (worldName : string) (path : string)
    : Prog (option WorldLog * error) :=
  now <- trigger ENow ;;
  abs <- trigger (EAbs path) ;;
  match abs with
  | inr err => Ret (None, Some err)
  | inl absPath =>
      err <- trigger (EMkdirAll absPath) ;;
      match err with
      | Some err => Ret (None, Some err)
      | None =>
          let logPath := path_join absPath ("log_" +:+ worldName +:+ "_events.log") in
          err <- trigger (ECreateCombined logPath) ;;
          match err with
          | Some err => Ret (None, Some err)
          | None =>
              tmp <- trigger ETempDir ;;
              let dir := path_join tmp "events" in
              err <- trigger (EMkdirAll dir) ;;
              match err with
              | Some err => Ret (None, Some err)
              | None =>
                  Ret (Some {| rw := false; world := true;
                               worldName := worldName;
                               combinedLogPath := logPath;
                               eventsDir := dir; events := [];
                               startTime := now; finishTime := zeroTime;
                               eventCounter := 0 |}, None)
              end
          end
      end
  end.

(** The statements of [newEvent] between [Lock] and [Unlock], lines 460-468,
    one effect per statement. *)
Definition newEvent_locked {A} (now : Time) (k : EventRef -> Prog A) : Prog A :=
  Vis ELock (fun _ =>
  Vis (EAllocEvent now) (fun event =>
  Vis (EAppendEvent event) (fun _ =>
  Vis EIncrCounter (fun _ =>
  Vis EUnlock (fun _ => k event))))).

(** [newEvent], lines 452-487. The caller passes the formatted
    description. The result is nil when the log is disabled or the event's
    file cannot be created. *)
Definition newEvent (description : string) : Prog (option EventRef) :=
  el <- trigger EGetLog ;;
  if negb (world el) then Ret None else
  now <- trigger ENow ;;
  newEvent_locked now (fun event =>
  trigger (ESetDescription event description) ;;;
  e <- trigger (EGetEvent event) ;;
  let message := "Event " +:+ fmt_03d (id e) +:+ " start:  " +:+ description in
  f <- trigger (ECreate (path_join (eventsDir el) (event_log_name (id e)))) ;;
  trigger (ESetEventLog event f) ;;;
  match f with
  | None => Ret None
  | Some f =>
      trigger (EWrite f (line message)) ;;;
      trigger (ETLog [message]) ;;;
      Ret (Some event)
  end).

(** [Event.finish], lines 490-505. *)
Definition Event_finish (event : option EventRef) : Prog unit :=
  match event with
  | None => Ret tt
  | Some event =>
      now <- trigger ENow ;;
      trigger (ESetFinishTime event now) ;;;
      e <- trigger (EGetEvent event) ;;
      let duration := Seconds (Sub (ev_finishTime e) (ev_startTime e)) in
      let message :=
        "Event " +:+ fmt_03d (id e) +:+ " finish: duration " +:+
        fmt_3f duration +:+ "s" in
      match log e with
      | None => Panic "nil pointer dereference"
      | Some f =>
          trigger (EWrite f (line message)) ;;;
          trigger (ETLog [message]) ;;;
          trigger (EClose f)
      end
  end.

(** The body of the loop of [printGantt], lines 433-447, for one event:
    the finish time used, the two measurements, the clamped positions and
    the line. *)
Definition gantt_finishTime (elFinish : Time) (e : Event) : Time :=
  if IsZero (ev_finishTime e) then elFinish else ev_finishTime e.

Definition gantt_startOffset (elStart : Time) (e : Event) : F64.t :=
  Seconds (Sub (ev_startTime e) elStart).

Definition gantt_duration (elFinish : Time) (e : Event) : F64.t :=
  Seconds (Sub (gantt_finishTime elFinish e) (ev_startTime e)).

Definition scaled (x totalDuration : F64.t) : Z :=
  F64.to_int (F64.mul (F64.div x totalDuration) (F64.of_int timelineWidth)).

Definition startPos (elStart : Time) (totalDuration : F64.t) (e : Event) : Z :=
  Z.max (scaled (gantt_startOffset elStart e) totalDuration) 0.

Definition barLen (elFinish : Time) (totalDuration : F64.t) (e : Event) : Z :=
  Z.max (scaled (gantt_duration elFinish e) totalDuration) 1.

Definition gantt_line (elStart elFinish : Time) (totalDuration : F64.t)
    (e : Event) : string :=
  let padding := Repeat " " (Z.to_nat (startPos elStart totalDuration e)) in
  let bar := Repeat "#" (Z.to_nat (barLen elFinish totalDuration e)) in
  fmt_03d (id e) +:+ " |" +:+ padding +:+ "[" +:+ bar +:+ "] (" +:+
  fmt_3f (gantt_duration elFinish e) +:+ "s) " +:+ description e +:+ LF.

(** The span that scales every bar, line 424. *)
Definition totalDuration (el : WorldLog) : F64.t :=
  Seconds (Sub (finishTime el) (startTime el)).

(** [printGantt], lines 419-449. *)
Definition printGantt : Prog unit :=
  el <- trigger EGetLog ;;
  if negb (world el) then Ret tt else
  trigger (EWriteCombined
    (line ("Event Timeline (Total: " +:+ fmt_3f (totalDuration el) +:+ "s):"))) ;;;
  trigger (EWriteCombined (line "ID  | Process Visualization")) ;;;
  trigger (EWriteCombined
    (line ("----|" +:+ Repeat "-" (Z.to_nat timelineWidth)))) ;;;
  for_each (events el) (fun ev =>
    e <- trigger (EGetEvent ev) ;;
    trigger (EWriteCombined
      (gantt_line (startTime el) (finishTime el) (totalDuration el) e)) ;;;
    Ret tt).

(** The loop of [finish], lines 401-412: every directory entry is opened
    and copied; the first failure ends the loop. *)
Fixpoint copy_event_logs (dir : string) (eventLogs : list string) : Prog error :=
  match eventLogs with
  | [] => Ret None
  | eventLogFile :: rest =>
      f <- trigger (EReadFile (path_join dir eventLogFile)) ;;
      match f with
      | inr err =>
          Ret (Some ("failed to open event log file " +:+ eventLogFile +:+
                     ": " +:+ err))
      | inl data =>
          err <- trigger (EWriteCombined data) ;;
          match err with
          | Some err =>
              Ret (Some ("failed to copy event log file " +:+ eventLogFile +:+
                         ": " +:+ err))
          | None => copy_event_logs dir rest
          end
      end
  end.

(** [WorldLog.finish], lines 385-416. The deferred close of the combined
    log runs on every path after the mutex-free check. *)
Definition WorldLog_finish : Prog error :=
  el <- trigger EGetLog ;;
  if negb (world el) then Ret None else
  now <- trigger ENow ;;
  trigger (ESetLogFinishTime now) ;;;
  printGantt ;;;
  trigger (EWriteCombined (line (LF +:+ LF +:+ "Event Logs:"))) ;;;
  eventLogs <- trigger (EReadDir (eventsDir el)) ;;
  match eventLogs with
  | inr err =>
      trigger ECloseCombined ;;;
      Ret (Some ("failed to read event logs directory: " +:+ err))
  | inl eventLogs =>
      err <- copy_event_logs (eventsDir el) eventLogs ;;
      match err with
      | Some err => trigger ECloseCombined ;;; Ret (Some err)
      | None =>
          trigger (ETLog ["World destroyed, event logs written to ";
                          combinedLogPath el]) ;;;
          trigger ECloseCombined ;;;
          Ret None
      end
  end.

(* ================================================================== *)
(** * testworld.go *)
(* ================================================================== *)

Definition Millisecond : Duration := 1000000.

(** The loop of [waitReady], lines 69-75, from member [i] on. *)
Fixpoint waitReady_loop (pending : list (option SlotRef)) (i : nat)
    (containers : list Container) : Prog (list Container * error) :=
  match pending with
  | [] => Ret (containers, None)
  | None :: _ => Panic "nil pointer dereference"
  | Some pc :: rest =>
      trigger (ERecv pc) ;;;
      p <- trigger (EGetSlot pc) ;;
      match pc_err p with
      | Some err => Ret (containers, Some (pc_name p +:+ ": " +:+ err))
      | None => waitReady_loop rest (S i) (<[i := pc_container p]> containers)
      end
  end.

(** [waitReady], lines 67-77. *)
Definition waitReady (wc : WorldContainer) : Prog (list Container * error) :=
  pending <- trigger (EGetPending (pending wc)) ;;
  waitReady_loop pending 0 (replicate (length pending) None).

(** [mustReady], lines 80-91. The method has a pointer receiver: the
    caller's copy of the group, with [isReady] set, is returned together
    with the handles. [t.Fatalf] logs, the deferred [event.finish] runs, and
    the goroutine ends. *)
Definition mustReady (wc : WorldContainer)
    : Prog (WorldContainer * list Container) :=
  event <- (if negb (isReady wc) then newEvent (Name wc +:+ ": await")
            else Ret None) ;;
  r <- waitReady wc ;;
  match snd r with
  | Some err =>
      trigger (ETFatalf ("Container " +:+ Name wc +:+ " failed to create: " +:+ err)) ;;;
      Event_finish event ;;;
      Exit
  | None =>
      Event_finish event ;;;
      Ret ({| Name := Name wc; isReady := true; pending := pending wc;
              onDestroy := onDestroy wc |}, fst r)
  end.

(** [Await], lines 282-284. *)
Definition Await (wc : WorldContainer) : Prog WorldContainer :=
  r <- mustReady wc ;; Ret (fst r).

(** [logOneInternal], lines 193-209. *)
Definition logOneInternal (name : string) (container : Container) : Prog error :=
  event <- newEvent (name +:+ ": logs") ;;
  logsReader <- trigger (ELogs container) ;;
  match logsReader with
  | inr err =>
      Event_finish event ;;;
      Ret (Some ("failed to get logs: " +:+ err))
  | inl data =>
      match event with
      | Some ev =>
          e <- trigger (EGetEvent ev) ;;
          match log e with
          | None => Panic "nil pointer dereference"
          | Some f =>
              err <- trigger (EWrite f data) ;;
              Event_finish event ;;;
              match err with
              | Some err => Ret (Some ("failed to copy logs: " +:+ err))
              | None => Ret None
              end
          end
      | None => Event_finish event ;;; Ret None
      end
  end.

(** The body of the inner loop of [Destroy], lines 164-180, for member
    [pc] of a group. *)
Definition destroy_member (pc : option SlotRef) : Prog unit :=
  match pc with
  | None => Panic "nil pointer dereference"
  | Some pc =>
      trigger (ERecv pc) ;;;
      p <- trigger (EGetSlot pc) ;;
      match pc_err p with
      | Some err =>
          trigger (ETLog ["Container "; pc_name p; " failed to create: "; err])
      | None =>
          err <- logOneInternal (pc_name p) (pc_container p) ;;
          match err with
          | Some err =>
              trigger (ETLog ["Failed to collect logs for container ";
                              pc_name p; ": "; err])
          | None => Ret tt
          end ;;;
          err <- trigger (ETerminate (pc_container p) (500 * Millisecond)) ;;
          match err with
          | Some err =>
              trigger (ETLog ["Failed to terminate container ";
                              pc_name p; ": "; err])
          | None => Ret tt
          end
      end
  end.

(** The body of the outer loop of [Destroy], lines 163-185, for group [c]. *)
Definition destroy_group (c : WorldContainer) : Prog unit :=
  pending <- trigger (EGetPending (pending c)) ;;
  for_each pending destroy_member ;;;
  match onDestroy c with
  | Some f => trigger (ECallback f c)
  | None => Ret tt
  end.

(** [Destroy], lines 155-190. A nil receiver is [None]. Go leaves the order
    in which [range] visits a map to the runtime: [order] is the sequence of
    keys it produces. *)
Definition Destroy (w : option World) (order : list string) : Prog unit :=
  match w with
  | None => Ret tt
  | Some w =>
      event <- newEvent "World: destroy" ;;
      for_each order (fun key =>
        match containers w !! key with
        | Some c => destroy_group c
        | None => Ret tt
        end) ;;;
      Event_finish event ;;;
      WorldLog_finish ;;;
      Ret tt
  end.

(** The kind of a container, lines 217-223. *)
Definition kind_of_spec (spec : ContainerSpec) : string :=
  let kind := basename (Image spec) in
  let kind :=
    if String.eqb kind "" then basename (Context (spec_FromDockerfile spec))
    else kind in
  let kind := if String.eqb kind "" then "container" else kind in
  kind.

(** The names of replica [i] (counted from 0), lines 245-250. *)
Definition replicaName_of (name : string) (replicas : Z) (i : nat) : string :=
  if 1 <? replicas then name +:+ "-" +:+ fmt_d (Z.of_nat i + 1) else name.

Definition aliases_of (name : string) (replicas : Z) (i : nat) : list string :=
  if 1 <? replicas then [replicaName_of name replicas i; name] else [name].

(** [createFn], lines 262-273: the closure that provisions one replica. *)
Definition createFn (kind replicaName : string) (pc : SlotRef)
    (containerRequest : Request) : Prog unit :=
  event <- newEvent ("World: add " +:+ kind +:+ " container " +:+ replicaName) ;;
  r <- trigger (EGenericContainer containerRequest) ;;
  trigger (ECleanupContainer (fst r)) ;;;
  trigger (ESlotSetContainer pc (fst r)) ;;;
  trigger (ESlotSetErr pc (snd r)) ;;;
  trigger (ESlotClose pc) ;;;
  Event_finish event.

Definition task_body (t : Task) : Prog unit :=
  match t with
  | CreateFn kind replicaName pc containerRequest =>
      createFn kind replicaName pc containerRequest
  end.

(** The body of the loop of [NewContainer], lines 242-276, for replica [i]. *)
Definition newContainer_replica (w : World) (spec : ContainerSpec)
    (kind name : string) (replicas : Z) (pending : ArrRef) (i : nat)
    : Prog unit :=
  let replicaName := replicaName_of name replicas i in
  let aliases := aliases_of name replicas i in
  pc <- trigger (ENewSlot replicaName) ;;
  trigger (ESetPending pending i pc) ;;;
  let containerRequest :=
    toGenericContainerRequest spec replicaName (cn w) aliases in
  trigger (EGo (CreateFn kind replicaName pc containerRequest)).

(** [NewContainer], lines 215-279. The world is updated in place by the
    source; here the updated world is returned with the group. *)
Definition NewContainer (w : World) (spec : ContainerSpec)
    : Prog (World * WorldContainer) :=
  let kind := kind_of_spec spec in
  let count := wrap64 (default 0 (containerKinds w !! kind) + 1) in
  let kinds := <[kind := count]> (containerKinds w) in
  let groupName := name w +:+ "-" +:+ kind +:+ "-" +:+ fmt_d count in
  let replicas := Z.max (Replicas spec) 1 in
  pending <- trigger (EMakePending (Z.to_nat replicas)) ;;
  let wc := {| Name := groupName; isReady := false; pending := pending;
               onDestroy := OnDestroy spec |} in
  let w' := {| name := name w; cn := cn w;
               containers := <[groupName := wc]> (containers w);
               containerKinds := kinds |} in
  for_each (seq 0 (Z.to_nat replicas))
    (newContainer_replica w' spec kind groupName replicas pending) ;;;
  Ret (w', wc).

(* ================================================================== *)
(** * The system state and the meaning of effects *)
(* ================================================================== *)

(** What the surroundings decide: the clock, the container provider, the
    file system calls that can fail, and the temporary directory. *)
Record Env := {
  clock : nat -> Time;
  provision : Request -> Container * error;
  containerLogs : Container -> string + string;
  terminate : Container -> error;
  createFails : string -> bool;
  absPath : string -> string + string;
  mkdirFails : string -> error;
  tempDir : string;
}.

(** Actions visible outside the package, in the order they happen. *)
Inductive Obs :=
| OCreate (req : Request)
| OCleanup (c : Container)
| ORecv (pc : SlotRef)
| OLogs (c : Container)
| OTerminate (c : Container) (grace : Duration)
| OLog (msg : string)
| OFatal (msg : string)
| OCallback (cb : Callback) (wc : WorldContainer)
| OFinalize.

(** An event log file: its content and whether it has been closed. *)
Record FileData := { content : string; closed : bool }.

Record Sys := {
  wlog : WorldLog;
  evheap : list Event;
  slots : list pendingContainer;
  arrays : list (list (option SlotRef));
  evfiles : list (string * FileData);
  combined : string;
  combinedClosed : bool;
  spawned : list Task;
  tick : nat;
  trace : list Obs;
}.

Definition initialSys : Sys :=
  {| wlog := dummyWorldLog; evheap := []; slots := []; arrays := [];
     evfiles := []; combined := ""; combinedClosed := false; spawned := [];
     tick := 0; trace := [] |}.

Section Updates.

Definition upd_wlog (f : WorldLog -> WorldLog) (s : Sys) : Sys :=
  {| wlog := f (wlog s); evheap := evheap s; slots := slots s;
     arrays := arrays s; evfiles := evfiles s; combined := combined s;
     combinedClosed := combinedClosed s; spawned := spawned s;
     tick := tick s; trace := trace s |}.

Definition upd_evheap (f : list Event -> list Event) (s : Sys) : Sys :=
  {| wlog := wlog s; evheap := f (evheap s); slots := slots s;
     arrays := arrays s; evfiles := evfiles s; combined := combined s;
     combinedClosed := combinedClosed s; spawned := spawned s;
     tick := tick s; trace := trace s |}.

Definition upd_slots (f : list pendingContainer -> list pendingContainer)
    (s : Sys) : Sys :=
  {| wlog := wlog s; evheap := evheap s; slots := f (slots s);
     arrays := arrays s; evfiles := evfiles s; combined := combined s;
     combinedClosed := combinedClosed s; spawned := spawned s;
     tick := tick s; trace := trace s |}.

Definition upd_arrays
    (f : list (list (option SlotRef)) -> list (list (option SlotRef)))
    (s : Sys) : Sys :=
  {| wlog := wlog s; evheap := evheap s; slots := slots s;
     arrays := f (arrays s); evfiles := evfiles s; combined := combined s;
     combinedClosed := combinedClosed s; spawned := spawned s;
     tick := tick s; trace := trace s |}.

Definition upd_evfiles
    (f : list (string * FileData) -> list (string * FileData))
    (s : Sys) : Sys :=
  {| wlog := wlog s; evheap := evheap s; slots := slots s;
     arrays := arrays s; evfiles := f (evfiles s); combined := combined s;
     combinedClosed := combinedClosed s; spawned := spawned s;
     tick := tick s; trace := trace s |}.

Definition upd_combined (f : string -> string) (s : Sys) : Sys :=
  {| wlog := wlog s; evheap := evheap s; slots := slots s;
     arrays := arrays s; evfiles := evfiles s; combined := f (combined s);
     combinedClosed := combinedClosed s; spawned := spawned s;
     tick := tick s; trace := trace s |}.

Definition set_combinedClosed (b : bool) (s : Sys) : Sys :=
  {| wlog := wlog s; evheap := evheap s; slots := slots s;
     arrays := arrays s; evfiles := evfiles s; combined := combined s;
     combinedClosed := b; spawned := spawned s;
     tick := tick s; trace := trace s |}.

Definition upd_spawned (f : list Task -> list Task) (s : Sys) : Sys :=
  {| wlog := wlog s; evheap := evheap s; slots := slots s;
     arrays := arrays s; evfiles := evfiles s; combined := combined s;
     combinedClosed := combinedClosed s; spawned := f (spawned s);
     tick := tick s; trace := trace s |}.

Definition next_tick (s : Sys) : Sys :=
  {| wlog := wlog s; evheap := evheap s; slots := slots s;
     arrays := arrays s; evfiles := evfiles s; combined := combined s;
     combinedClosed := combinedClosed s; spawned := spawned s;
     tick := S (tick s); trace := trace s |}.

Definition observe (o : Obs) (s : Sys) : Sys :=
  {| wlog := wlog s; evheap := evheap s; slots := slots s;
     arrays := arrays s; evfiles := evfiles s; combined := combined s;
     combinedClosed := combinedClosed s; spawned := spawned s;
     tick := tick s; trace := trace s ++ [o] |}.

Definition set_rw (b : bool) (el : WorldLog) : WorldLog :=
  {| rw := b; world := world el; worldName := worldName el;
     combinedLogPath := combinedLogPath el; eventsDir := eventsDir el;
     events := events el; startTime := startTime el;
     finishTime := finishTime el; eventCounter := eventCounter el |}.

Definition set_events (l : list EventRef) (el : WorldLog) : WorldLog :=
  {| rw := rw el; world := world el; worldName := worldName el;
     combinedLogPath := combinedLogPath el; eventsDir := eventsDir el;
     events := l; startTime := startTime el;
     finishTime := finishTime el; eventCounter := eventCounter el |}.

Definition set_eventCounter (c : Z) (el : WorldLog) : WorldLog :=
  {| rw := rw el; world := world el; worldName := worldName el;
     combinedLogPath := combinedLogPath el; eventsDir := eventsDir el;
     events := events el; startTime := startTime el;
     finishTime := finishTime el; eventCounter := c |}.

Definition set_finishTime (t : Time) (el : WorldLog) : WorldLog :=
  {| rw := rw el; world := world el; worldName := worldName el;
     combinedLogPath := combinedLogPath el; eventsDir := eventsDir el;
     events := events el; startTime := startTime el;
     finishTime := t; eventCounter := eventCounter el |}.

Definition set_description (d : string) (e : Event) : Event :=
  {| id := id e; description := d; ev_startTime := ev_startTime e;
     ev_finishTime := ev_finishTime e; log := log e |}.

Definition set_log (f : option File) (e : Event) : Event :=
  {| id := id e; description := description e;
     ev_startTime := ev_startTime e; ev_finishTime := ev_finishTime e;
     log := f |}.

Definition set_ev_finishTime (t : Time) (e : Event) : Event :=
  {| id := id e; description := description e;
     ev_startTime := ev_startTime e; ev_finishTime := t; log := log e |}.

Definition set_pc_container (c : Container) (p : pendingContainer) :=
  {| pc_name := pc_name p; pc_ready := pc_ready p; pc_container := c;
     pc_err := pc_err p |}.

Definition set_pc_err (e : error) (p : pendingContainer) :=
  {| pc_name := pc_name p; pc_ready := pc_ready p;
     pc_container := pc_container p; pc_err := e |}.

Definition close_ready (p : pendingContainer) :=
  {| pc_name := pc_name p; pc_ready := true;
     pc_container := pc_container p; pc_err := pc_err p |}.

End Updates.

(** The outcome of one effect: a response and the next state, a goroutine
    that has to wait, or a run-time fault. *)
Inductive Step (X : Type) : Type :=
| Ok (x : X) (s : Sys)
| Block
| Fault (msg : string).

Arguments Ok {X} x s.
Arguments Block {X}.
Arguments Fault {X} msg.

(** [os.ReadDir]: the names of the files of a directory, sorted. *)
Definition strip_dir (dir path : string) : option string :=
  let p := dir +:+ "/" in
  if String.prefix p path then Some (sdrop (String.length p) path) else None.

Definition dir_entries (dir : string) (files : list (string * FileData))
    : list string :=
  omap (fun f => strip_dir dir (fst f)) files.

Definition ReadDir (dir : string) (files : list (string * FileData))
    : list string :=
  merge_sort String.le (dir_entries dir files).

Fixpoint file_lookup (path : string) (files : list (string * FileData))
    : option FileData :=
  match files with
  | [] => None
  | (p, d) :: rest => if String.eqb p path then Some d else file_lookup path rest
  end.

Fixpoint file_update (path : string) (f : FileData -> FileData)
    (files : list (string * FileData)) : list (string * FileData) :=
  match files with
  | [] => []
  | (p, d) :: rest =>
      if String.eqb p path then (p, f d) :: rest
      else (p, d) :: file_update path f rest
  end.

(** [os.Create]: a new empty file, or the existing one truncated. *)
Definition file_create (path : string) (files : list (string * FileData))
    : list (string * FileData) :=
  match file_lookup path files with
  | Some _ => file_update path (fun _ => {| content := ""; closed := false |}) files
  | None => files ++ [(path, {| content := ""; closed := false |})]
  end.

Definition newEventRecord (counter : Z) (now : Time) : Event :=
  {| id := counter; description := ""; ev_startTime := now;
     ev_finishTime := zeroTime; log := None |}.

Definition newPending (name : string) : pendingContainer :=
  {| pc_name := name; pc_ready := false; pc_container := None;
     pc_err := None |}.

Definition handle (env : Env) (e : Eff) : Sys -> Step (Resp e) :=
  match e as e0 return Sys -> Step (Resp e0) with
  | ENow => fun s => Ok (clock env (tick s)) (next_tick s)
  | EGetLog => fun s => Ok (wlog s) s
  | ESetLog el => fun s => Ok tt (upd_wlog (fun _ => el) s)
  | ELock => fun s =>
      if rw (wlog s) then Block else Ok tt (upd_wlog (set_rw true) s)
  | EUnlock => fun s =>
      if rw (wlog s) then Ok tt (upd_wlog (set_rw false) s)
      else Fault "sync: unlock of unlocked mutex"
  | EAllocEvent now => fun s =>
      Ok (length (evheap s))
         (upd_evheap (fun h => h ++ [newEventRecord (eventCounter (wlog s)) now]) s)
  | EAppendEvent ev => fun s =>
      Ok tt (upd_wlog (fun el => set_events (events el ++ [ev]) el) s)
  | EIncrCounter => fun s =>
      Ok tt (upd_wlog (fun el => set_eventCounter (wrap64 (eventCounter el + 1)) el) s)
  | EGetEvent ev => fun s =>
      match evheap s !! ev with
      | Some e => Ok e s
      | None => Fault "nil pointer dereference"
      end
  | ESetDescription ev d => fun s =>
      Ok tt (upd_evheap (alter (set_description d) ev) s)
  | ESetEventLog ev f => fun s =>
      Ok tt (upd_evheap (alter (set_log f) ev) s)
  | ESetFinishTime ev t => fun s =>
      Ok tt (upd_evheap (alter (set_ev_finishTime t) ev) s)
  | ESetLogFinishTime t => fun s =>
      Ok tt (observe OFinalize (upd_wlog (set_finishTime t) s))
  | EAbs path => fun s => Ok (absPath env path) s
  | EMkdirAll path => fun s => Ok (mkdirFails env path) s
  | ETempDir => fun s => Ok (tempDir env) s
  | ECreate path => fun s =>
      if createFails env path then Ok None s
      else Ok (Some path) (upd_evfiles (file_create path) s)
  | EWrite f data => fun s =>
      match file_lookup f (evfiles s) with
      | Some d =>
          if closed d then Ok (Some "file already closed") s
          else Ok None
                 (upd_evfiles
                    (file_update f (fun d =>
                       {| content := content d +:+ data; closed := false |})) s)
      | None => Ok (Some "file does not exist") s
      end
  | EClose f => fun s =>
      Ok tt (upd_evfiles
               (file_update f (fun d =>
                  {| content := content d; closed := true |})) s)
  | ECreateCombined path => fun s =>
      if createFails env path then Ok (Some "cannot create file") s
      else Ok None (set_combinedClosed false (upd_combined (fun _ => "") s))
  | EWriteCombined data => fun s =>
      if combinedClosed s then Ok (Some "file already closed") s
      else Ok None (upd_combined (fun c => c +:+ data) s)
  | ECloseCombined => fun s => Ok tt (set_combinedClosed true s)
  | EReadDir dir => fun s => Ok (inl (ReadDir dir (evfiles s))) s
  | EReadFile path => fun s =>
      match file_lookup path (evfiles s) with
      | Some d => Ok (inl (content d)) s
      | None => Ok (inr "no such file or directory") s
      end
  | ETLog args => fun s => Ok tt (observe (OLog (sprint_args args)) s)
  | ETFatalf msg => fun s => Ok tt (observe (OFatal msg) s)
  | EMakePending n => fun s =>
      Ok (length (arrays s)) (upd_arrays (fun a => a ++ [replicate n None]) s)
  | ESetPending a i pc => fun s =>
      match arrays s !! a with
      | Some l =>
          if decide (i < length l)%nat
          then Ok tt (upd_arrays (alter (fun l => <[i := Some pc]> l) a) s)
          else Fault "index out of range"
      | None => Fault "nil pointer dereference"
      end
  | EGetPending a => fun s =>
      match arrays s !! a with
      | Some l => Ok l s
      | None => Fault "nil pointer dereference"
      end
  | ENewSlot name => fun s =>
      Ok (length (slots s)) (upd_slots (fun l => l ++ [newPending name]) s)
  | ESlotSetContainer pc c => fun s =>
      Ok tt (upd_slots (alter (set_pc_container c) pc) s)
  | ESlotSetErr pc err => fun s =>
      Ok tt (upd_slots (alter (set_pc_err err) pc) s)
  | ESlotClose pc => fun s =>
      match slots s !! pc with
      | Some p =>
          if pc_ready p then Fault "close of closed channel"
          else Ok tt (upd_slots (alter close_ready pc) s)
      | None => Fault "nil pointer dereference"
      end
  | ERecv pc => fun s =>
      match slots s !! pc with
      | Some p => if pc_ready p then Ok tt (observe (ORecv pc) s) else Block
      | None => Fault "nil pointer dereference"
      end
  | EGetSlot pc => fun s =>
      match slots s !! pc with
      | Some p => Ok p s
      | None => Fault "nil pointer dereference"
      end
  | EGenericContainer req => fun s =>
      Ok (provision env req) (observe (OCreate req) s)
  | ECleanupContainer c => fun s => Ok tt (observe (OCleanup c) s)
  | ELogs c => fun s => Ok (containerLogs env c) (observe (OLogs c) s)
  | ETerminate c grace => fun s =>
      Ok (terminate env c) (observe (OTerminate c grace) s)
  | ECallback cb wc => fun s => Ok tt (observe (OCallback cb wc) s)
  | EGo t => fun s => Ok tt (upd_spawned (fun l => l ++ [t]) s)
  end.

(** How a goroutine that runs without interruption ends. *)
Inductive Outcome (A : Type) : Type :=
| Done (a : A)
| Exited
| Panicked (msg : string)
| Blocked.

Arguments Done {A} a.
Arguments Exited {A}.
Arguments Panicked {A} msg.
Arguments Blocked {A}.

(** One goroutine run from a state until it returns, exits, panics or has
    to wait. *)
Fixpoint run {A} (env : Env) (p : Prog A) (s : Sys) : Outcome A * Sys :=
  match p with
  | Ret a => (Done a, s)
  | Exit => (Exited, s)
  | Panic msg => (Panicked msg, s)
  | Vis e k =>
      match handle env e s with
      | Ok x s' => run env (k x) s'
      | Block => (Blocked, s)
      | Fault msg => (Panicked msg, s)
      end
  end.

(* ================================================================== *)
(** * Goroutines *)
(* ================================================================== *)

(** One step of a goroutine: its next effect, when the state lets it
    happen. A goroutine that waits, has ended or has panicked takes none. *)
Definition thread_step (env : Env) (p : Prog unit) (s : Sys)
    : option (Prog unit * Sys) :=
  match p with
  | Vis e k =>
      match handle env e s with
      | Ok x s' => Some (k x, s')
      | _ => None
      end
  | _ => None
  end.

(** The running goroutines and the state they share. Goroutines created by
    [go] wait in [spawned] until the scheduler starts them. *)
Record Pool := { threads : list (Prog unit); sys : Sys }.

Inductive pstep (env : Env) : Pool -> Pool -> Prop :=
| pstep_run P i p p' s' :
    threads P !! i = Some p ->
    thread_step env p (sys P) = Some (p', s') ->
    pstep env P {| threads := <[i := p']> (threads P); sys := s' |}
| pstep_start P l1 t l2 :
    spawned (sys P) = l1 ++ t :: l2 ->
    pstep env P {| threads := threads P ++ [task_body t];
                   sys := upd_spawned (fun _ => l1 ++ l2) (sys P) |}.

(** Any number of scheduler steps. *)
Definition psteps (env : Env) : Pool -> Pool -> Prop := rtc (pstep env).

(* ================================================================== *)
(** * Closed forms used in the statements *)
(* ================================================================== *)

(** The state one iteration of the loop of [NewContainer] leaves. *)
Definition replica_state (w : World) (spec : ContainerSpec)
    (kind groupName : string) (replicas : Z) (a : ArrRef) (s : Sys) (i : nat)
    : Sys :=
  let replicaName := replicaName_of groupName replicas i in
  let pc := length (slots s) in
  upd_spawned (fun l => l ++
      [CreateFn kind replicaName pc
         (toGenericContainerRequest spec replicaName (cn w)
            (aliases_of groupName replicas i))])
    (upd_arrays (alter (fun l => <[i := Some pc]> l) a)
       (upd_slots (fun l => l ++ [newPending replicaName]) s)).

(** The group name [NewContainer] computes, and its counter. *)
Definition next_count (w : World) (spec : ContainerSpec) : Z :=
  wrap64 (default 0 (containerKinds w !! kind_of_spec spec) + 1).

Definition group_name (w : World) (spec : ContainerSpec) : string :=
  name w +:+ "-" +:+ kind_of_spec spec +:+ "-" +:+ fmt_d (next_count w spec).

Definition replica_count (spec : ContainerSpec) : nat :=
  Z.to_nat (Z.max (Replicas spec) 1).

(** The task [NewContainer] creates for replica [i], whose slot is [pc]. *)
Definition replica_task (w : World) (spec : ContainerSpec) (pc : SlotRef)
    (i : nat) : Task :=
  let g := group_name w spec in
  let r := Z.max (Replicas spec) 1 in
  CreateFn (kind_of_spec spec) (replicaName_of g r i) pc
    (toGenericContainerRequest spec (replicaName_of g r i) (cn w)
       (aliases_of g r i)).

(** The wording of the specification for member addresses and aliases,
    members counted from 1. *)
Definition spec_member_address (group : string) (n : nat) (i : nat) : string :=
  if decide (n = 1%nat) then group else group +:+ "-" +:+ pretty i.

Definition spec_member_aliases (group : string) (n : nat) (i : nat)
    : list string :=
  if decide (n = 1%nat) then [group]
  else [spec_member_address group n i; group].

(** The wording of the specification for the kind of a container. *)
Definition spec_kind (spec : ContainerSpec) : string :=
  if decide (spec_kind_of (Image spec) <> "") then spec_kind_of (Image spec)
  else if decide (spec_kind_of (Context (spec_FromDockerfile spec)) <> "")
  then spec_kind_of (Context (spec_FromDockerfile spec))
  else "container".

(** [spec] with another replica count. *)
Definition with_Replicas (n : Z) (spec : ContainerSpec) : ContainerSpec :=
  {| Image := Image spec; spec_FromDockerfile := spec_FromDockerfile spec;
     Started := Started spec; Awaited := Awaited spec; Replicas := n;
     Entrypoint := Entrypoint spec; Cmd := Cmd spec;
     ExposedPorts := ExposedPorts spec; OnDestroy := OnDestroy spec |}.

(** [spec] with another value of [Awaited]. *)
Definition with_Awaited (b : bool) (spec : ContainerSpec) : ContainerSpec :=
  {| Image := Image spec; spec_FromDockerfile := spec_FromDockerfile spec;
     Started := Started spec; Awaited := b; Replicas := Replicas spec;
     Entrypoint := Entrypoint spec; Cmd := Cmd spec;
     ExposedPorts := ExposedPorts spec; OnDestroy := OnDestroy spec |}.

(** A test that creates one group after another in the same world, as
    [TestMultipleContainers] does. *)
Fixpoint NewContainers (w : World) (specs : list ContainerSpec)
    : Prog (World * list WorldContainer) :=
  match specs with
  | [] => Ret (w, [])
  | spec :: rest =>
      r <- NewContainer w spec ;;
      r' <- NewContainers (fst r) rest ;;
      Ret (fst r', snd r :: snd r')
  end.

(** The number of specs of a kind. *)
Definition count_kind (kind : string) (specs : list ContainerSpec) : Z :=
  Z.of_nat (length (filter (fun sp => kind_of_spec sp = kind) specs)).

(** The per-kind counters of a world are non-negative and leave room for
    [n] more groups before an [int] overflows. *)
Definition counters_ok (w : World) (n : nat) : Prop :=
  forall kind,
    0 <= default 0 (containerKinds w !! kind) /\
    default 0 (containerKinds w !! kind) + Z.of_nat n <= maxInt64.

(** A member of a group as the state holds it: slot [pc] is unresolved and
    carries [address]; one task will provision it on the world's network
    under [aliases]. *)
Definition member_created (w : World) (spec : ContainerSpec) (s : Sys)
    (pc : SlotRef) (address : string) (aliases : list string) : Prop :=
  slots s !! pc = Some (newPending address) /\
  exists req,
    CreateFn (kind_of_spec spec) address pc req ∈ spawned s /\
    req = toGenericContainerRequest spec address (cn w) aliases.

(** The lines the timeline mirrors into the test log start with the word
    Event; every other observation belongs to the operation itself. *)
Definition is_event_message (o : Obs) : bool :=
  match o with
  | OLog m => String.prefix "Event " m
  | _ => false
  end.

Definition own_obs (t : list Obs) : list Obs :=
  List.filter (fun o => negb (is_event_message o)) t.

(** An event that can be finished: it is on the heap and has its file. *)
Definition ev_live (s : Sys) (ev : EventRef) : Prop :=
  exists e f, evheap s !! ev = Some e /\ log e = Some f.

Definition file_open (s : Sys) (f : File) : Prop :=
  exists d, file_lookup f (evfiles s) = Some d /\ closed d = false.

(** The mutex is free and every listed event is on the heap. *)
Definition wf_log (s : Sys) : Prop :=
  rw (wlog s) = false /\
  Forall (fun ev => is_Some (evheap s !! ev)) (events (wlog s)).

(** From [s] to [s'] an operation made the observations [obs] of its own,
    besides mirrored event lines; it changed nothing of the slots, the
    pending slices or the scheduler, and kept the log well formed. *)
Definition yields (s s' : Sys) (obs : list Obs) : Prop :=
  slots s' = slots s /\ arrays s' = arrays s /\ spawned s' = spawned s /\
  world (wlog s') = world (wlog s) /\
  combinedLogPath (wlog s') = combinedLogPath (wlog s) /\
  (wf_log s -> wf_log s') /\
  (forall ev, ev_live s ev -> ev_live s' ev) /\
  exists os, trace s' = trace s ++ os /\ own_obs os = obs.

(** The timeline's own activity. *)
Definition quiet (s s' : Sys) : Prop := yields s s' [].

(** A state with more observations. *)
Definition add_obs (os : list Obs) (s : Sys) : Sys :=
  {| wlog := wlog s; evheap := evheap s; slots := slots s;
     arrays := arrays s; evfiles := evfiles s; combined := combined s;
     combinedClosed := combinedClosed s; spawned := spawned s;
     tick := tick s; trace := trace s ++ os |}.

(** The outcome a slot holds. *)
Definition slot_resolved_ok (s : Sys) (pc : SlotRef) : Prop :=
  exists p, slots s !! pc = Some p /\ pc_ready p = true /\ pc_err p = None.

Definition slot_failed (s : Sys) (pc : SlotRef) (address err : string) : Prop :=
  exists p, slots s !! pc = Some p /\ pc_ready p = true /\
            pc_name p = address /\ pc_err p = Some err.

Definition slot_container (s : Sys) (pc : SlotRef) : Container :=
  match slots s !! pc with
  | Some p => pc_container p
  | None => None
  end.

(** The handles [waitReady] has stored when it stops after [k] members of
    a group of [n]. *)
Definition handles_upto (s : Sys) (pcs : list SlotRef) (k : nat)
    : list Container :=
  (slot_container s <$> take k pcs) ++ replicate (length pcs - k) None.

(** The error [waitReady] returns when it stops at member [k]. *)
Definition wait_error (s : Sys) (pcs : list SlotRef) (k : nat) : error :=
  match pcs !! k with
  | Some pc =>
      match slots s !! pc with
      | Some p => (fun e => pc_name p +:+ ": " +:+ e) <$> pc_err p
      | None => None
      end
  | None => None
  end.

(** Handles written one after another from index [i] on. *)
Fixpoint store_handles (i : nat) (hs acc : list Container) : list Container :=
  match hs with
  | [] => acc
  | h :: hs' => store_handles (S i) hs' (<[i := h]> acc)
  end.

(** The group with [isReady] set, as [mustReady] leaves the caller's copy. *)
Definition ready_group (wc : WorldContainer) : WorldContainer :=
  {| Name := Name wc; isReady := true; pending := pending wc;
     onDestroy := onDestroy wc |}.

(** The observations made since the trace had length [n]. *)
Definition obs_since (n : nat) (s : Sys) : list Obs := drop n (trace s).

(* ================================================================== *)
(** * Sample inputs *)
(* ================================================================== *)

(** A clock that advances one second per reading, a provider that fails
    for the second replica of the first alpine group, and a file system
    without failures. *)
Definition sampleEnv : Env :=
  {| clock := fun n => 1000000000 * (Z.of_nat n + 1);
     provision := fun r =>
       if String.eqb (req_Name r) "T-alpine-1-2" then (None, Some "boom")
       else (Some (String.length (req_Name r)), None);
     containerLogs := fun _ => inl "ready";
     terminate := fun _ => None;
     createFails := fun _ => false;
     absPath := fun p => inl ("/abs/" +:+ p);
     mkdirFails := fun _ => None;
     tempDir := "/tmp/t" |}.

Definition sampleWorld : World :=
  {| name := "T"; cn := "net"; containers := ∅; containerKinds := ∅ |}.

Definition alpineSpec : ContainerSpec :=
  {| Image := "alpine:latest"; spec_FromDockerfile := {| Context := "" |};
     Started := false; Awaited := false; Replicas := 0;
     Entrypoint := []; Cmd := ["sleep"; "30"]; ExposedPorts := [];
     OnDestroy := None |}.

(** Three replicas, created with [Awaited] set. *)
Definition awaitedSpec : ContainerSpec :=
  {| Image := "alpine:latest"; spec_FromDockerfile := {| Context := "" |};
     Started := true; Awaited := true; Replicas := 3;
     Entrypoint := []; Cmd := ["sleep"; "30"]; ExposedPorts := [];
     OnDestroy := Some 7%nat |}.

(** Every goroutine the scheduler still holds, run one after another. *)
Definition run_spawned (env : Env) (s : Sys) : Outcome unit * Sys :=
  run env (for_each (spawned s) task_body) (upd_spawned (fun _ => []) s).

(** A world with a log, one finished event, and the group of
    [awaitedSpec]. *)
Definition sampleSetup : Prog (World * WorldContainer) :=
  r <- NewWorldLog "T" "logs" ;;
  match fst r with
  | Some el => trigger (ESetLog el)
  | None => Ret tt
  end ;;;
  event <- newEvent "World: Create" ;;
  Event_finish event ;;;
  NewContainer sampleWorld awaitedSpec.

(** The state when [NewContainer] has returned, and the state once the
    three provisioning tasks have run. *)
Definition sampleCreated : Sys :=
  Eval vm_compute in snd (run sampleEnv sampleSetup initialSys).

Definition sampleState : Sys :=
  Eval vm_compute in snd (run_spawned sampleEnv sampleCreated).

Definition sampleGroup : WorldContainer :=
  {| Name := "T-alpine-1"; isReady := false; pending := 0%nat;
     onDestroy := Some 7%nat |}.

Definition sampleRegistered : World :=
  {| name := "T"; cn := "net";
     containers := <["T-alpine-1" := sampleGroup]> ∅;
     containerKinds := <["alpine" := 1]> ∅ |}.





(** What [WorldLog.finish] shows after the moment of finalisation. *)
Definition finish_report (el : WorldLog) (r : error) : list Obs :=
  match r with
  | None => [OLog (sprint_args ["World destroyed, event logs written to ";
                                combinedLogPath el])]
  | Some _ => []
  end.

(** Writing to the combined log changes nothing but that file. *)
Definition only_combined (s s' : Sys) : Prop :=
  wlog s' = wlog s /\ evheap s' = evheap s /\ slots s' = slots s /\
  arrays s' = arrays s /\ spawned s' = spawned s /\ evfiles s' = evfiles s /\
  trace s' = trace s.


(** [n] reads of a group, one after another. *)
Fixpoint waitReady_times (n : nat) (wc : WorldContainer)
    : Prog (list (list Container * error)) :=
  match n with
  | O => Ret []
  | S n' =>
      r <- waitReady wc ;;
      rs <- waitReady_times n' wc ;;
      Ret (r :: rs)
  end.

(** The provisioning requests among some observations. *)
Definition creates (t : list Obs) : list Request :=
  omap (fun o => match o with OCreate r => Some r | _ => None end) t.

(** The slot a task writes once, as it leaves it. *)
Definition resolved (env : Env) (req : Request) (p : pendingContainer)
    : pendingContainer :=
  {| pc_name := pc_name p; pc_ready := true;
     pc_container := fst (provision env req);
     pc_err := snd (provision env req) |}.

Definition task_slot (t : Task) : SlotRef :=
  match t with CreateFn _ _ pc _ => pc end.

Definition task_request (t : Task) : Request :=
  match t with CreateFn _ _ _ req => req end.

Definition resolve_slot (env : Env) (sl : list pendingContainer) (t : Task)
    : list pendingContainer :=
  alter (resolved env (task_request t)) (task_slot t) sl.

(* ================================================================== *)
(** * The finalized log *)
(* ================================================================== *)

(** The text of a file, empty when there is none. *)
Definition file_text (files : list (string * FileData)) (path : string) : string :=
  match file_lookup path files with
  | Some d => content d
  | None => ""
  end.

(** Strings written one after another. *)
Definition cat (l : list string) : string := foldr String.app "" l.

(** The events of the log, in the order of its list. *)
Definition listed_events (s : Sys) : list Event :=
  omap (fun ev => evheap s !! ev) (events (wlog s)).

Definition gantt_header (el : WorldLog) : string :=
  line ("Event Timeline (Total: " +:+ fmt_3f (totalDuration el) +:+ "s):") +:+
  line "ID  | Process Visualization" +:+
  line ("----|" +:+ Repeat "-" (Z.to_nat timelineWidth)).

Definition gantt_chart (el : WorldLog) (es : list Event) : string :=
  gantt_header el +:+
  cat (gantt_line (startTime el) (finishTime el) (totalDuration el) <$> es).

(** The files of the events directory, copied in the order [os.ReadDir]
    lists them. *)
Definition copied_logs (dir : string) (files : list (string * FileData))
    : string :=
  cat ((fun f => file_text files (path_join dir f)) <$> ReadDir dir files).

(** Everything [WorldLog.finish] appends to the combined log. *)
Definition finalized_text (el : WorldLog) (es : list Event)
    (files : list (string * FileData)) : string :=
  gantt_chart el es +:+ line (LF +:+ LF +:+ "Event Logs:") +:+
  copied_logs (eventsDir el) files.

(** From [s] to [s'] the text [txt] was appended to the combined log and
    nothing else changed. *)
Definition wrote (s s' : Sys) (txt : string) : Prop :=
  only_combined s s' /\ combinedClosed s' = combinedClosed s /\
  combined s' = combined s +:+ txt.

(** The span in the words of the specification: from the first start of
    an event to the last finish of an event. *)
Definition first_start (es : list Event) : Time :=
  match es with
  | [] => zeroTime
  | e :: es' => foldr (fun e' t => Z.min (ev_startTime e') t) (ev_startTime e) es'
  end.

Definition last_finish (es : list Event) : Time :=
  match es with
  | [] => zeroTime
  | e :: es' => foldr (fun e' t => Z.max (ev_finishTime e') t) (ev_finishTime e) es'
  end.

Definition spec_total_span (es : list Event) : F64.t :=
  Seconds (Sub (last_finish es) (first_start es)).

(** A finite float above zero. *)
Definition F64_positive (f : F64.t) : bool :=
  match f with
  | S754_finite false _ _ => true
  | _ => false
  end.

(** The rendering of one event in the words of the specification: the
    offset and the length as fractions of the total, the finish of an event
    that never finished taken to be the teardown time, both scaled by the
    width of the chart and clamped. *)
Definition spec_offset (timelineStart : Time) (total : F64.t) (e : Event) : F64.t :=
  F64.div (Seconds (Sub (ev_startTime e) timelineStart)) total.

Definition spec_finish (teardown : Time) (e : Event) : Time :=
  if IsZero (ev_finishTime e) then teardown else ev_finishTime e.

Definition spec_length (teardown : Time) (total : F64.t) (e : Event) : F64.t :=
  F64.div (Seconds (Sub (spec_finish teardown e) (ev_startTime e))) total.

Definition chart_columns (fraction : F64.t) : Z :=
  F64.to_int (F64.mul fraction (F64.of_int 80)).

Definition pad_width (timelineStart : Time) (total : F64.t) (e : Event) : Z :=
  Z.max (chart_columns (spec_offset timelineStart total e)) 0.

Definition bar_width (teardown : Time) (total : F64.t) (e : Event) : Z :=
  Z.max (chart_columns (spec_length teardown total e)) 1.

Definition spec_line (timelineStart teardown : Time) (total : F64.t)
    (e : Event) : string :=
  fmt_03d (id e) +:+ " |" +:+
  Repeat " " (Z.to_nat (pad_width timelineStart total e)) +:+ "[" +:+
  Repeat "#" (Z.to_nat (bar_width teardown total e)) +:+ "] (" +:+
  fmt_3f (Seconds (Sub (spec_finish teardown e) (ev_startTime e))) +:+ "s) " +:+
  description e +:+ LF.

(** A clock of coarse resolution: its first four readings are the same. *)
Definition coarseEnv : Env :=
  {| clock := fun n => if (n <? 4)%nat then 1 * Second else 2 * Second;
     provision := provision sampleEnv;
     containerLogs := containerLogs sampleEnv;
     terminate := terminate sampleEnv;
     createFails := createFails sampleEnv;
     absPath := absPath sampleEnv;
     mkdirFails := mkdirFails sampleEnv;
     tempDir := tempDir sampleEnv |}.

(** A log with an event that starts with the log and never finishes, and
    an event that finishes in the instant it starts. *)
Definition spanSetup : Prog unit :=
  r <- NewWorldLog "T" "logs" ;;
  match fst r with
  | Some el => trigger (ESetLog el)
  | None => Ret tt
  end ;;;
  newEvent "whole" ;;;
  event <- newEvent "instant" ;;
  Event_finish event.

Definition spanState : Sys :=
  Eval vm_compute in snd (run coarseEnv spanSetup initialSys).

(* ================================================================== *)
(** * The critical section of newEvent *)
(* ================================================================== *)

(** The effects on the event list, the counter and the mutex. The source
    performs them only in [newEvent], between [Lock] and [Unlock]; storing
    a log belongs to the construction of the world. *)
Definition critical (e : Eff) : bool :=
  match e with
  | ELock | EUnlock | EAllocEvent _ | EAppendEvent _ | EIncrCounter
  | ESetLog _ => true
  | _ => false
  end.

(** Programs that reach the event list only through the critical section
    of [newEvent]. *)
Inductive tl_safe {A} : Prog A -> Prop :=
| safe_Ret a : tl_safe (Ret a)
| safe_Exit : tl_safe Exit
| safe_Panic msg : tl_safe (Panic msg)
| safe_Vis e k :
    critical e = false -> (forall x, tl_safe (k x)) -> tl_safe (Vis e k)
| safe_newEvent now k :
    (forall ev, tl_safe (k ev)) -> tl_safe (newEvent_locked now k).

(** Where a goroutine stands inside the critical section: the statement it
    executes next. *)
Inductive Phase :=
| Allocating
| Appending (ev : EventRef)
| Counting (ev : EventRef)
| Unlocking (ev : EventRef).

Definition in_section (ph : Phase) (p : Prog unit) : Prop :=
  match ph with
  | Allocating => exists now k,
      (forall ev, tl_safe (k ev)) /\
      p = Vis (EAllocEvent now) (fun event =>
          Vis (EAppendEvent event) (fun _ =>
          Vis EIncrCounter (fun _ =>
          Vis EUnlock (fun _ => k event))))
  | Appending ev => exists k,
      (forall ev, tl_safe (k ev)) /\
      p = Vis (EAppendEvent ev) (fun _ =>
          Vis EIncrCounter (fun _ =>
          Vis EUnlock (fun _ => k ev)))
  | Counting ev => exists k,
      (forall ev, tl_safe (k ev)) /\
      p = Vis EIncrCounter (fun _ => Vis EUnlock (fun _ => k ev))
  | Unlocking ev => exists k,
      (forall ev, tl_safe (k ev)) /\
      p = Vis EUnlock (fun _ => k ev)
  end.

(** Event [i] of the list carries the [i]-th value of the counter. *)
Definition ids_ok (s : Sys) : Prop :=
  forall i ev, events (wlog s) !! i = Some ev ->
    exists e, evheap s !! ev = Some e /\ id e = wrap64 (Z.of_nat i).

(** The counter against the length of the list, by the phase of the
    goroutine that holds the mutex, if one does. *)
Definition counter_at (s : Sys) (ph : option Phase) : Prop :=
  let n := Z.of_nat (length (events (wlog s))) in
  match ph with
  | None => rw (wlog s) = false /\ eventCounter (wlog s) = wrap64 n
  | Some Allocating => rw (wlog s) = true /\ eventCounter (wlog s) = wrap64 n
  | Some (Appending ev) =>
      rw (wlog s) = true /\ eventCounter (wlog s) = wrap64 n /\
      exists e, evheap s !! ev = Some e /\ id e = wrap64 n
  | Some (Counting ev) =>
      rw (wlog s) = true /\ wrap64 (eventCounter (wlog s) + 1) = wrap64 n
  | Some (Unlocking ev) =>
      rw (wlog s) = true /\ eventCounter (wlog s) = wrap64 n
  end.

(** The invariant of the pool: at most one goroutine is inside the
    critical section, and the counter and the list agree up to the
    statements it still has to execute. *)
Definition pool_inv (P : Pool) : Prop :=
  ids_ok (sys P) /\
  exists holder : option (nat * Phase),
    counter_at (sys P) (snd <$> holder) /\
    (forall j ph, holder = Some (j, ph) -> is_Some (threads P !! j)) /\
    forall i p, threads P !! i = Some p ->
      match holder with
      | Some (j, ph) => if decide (i = j) then in_section ph p else tl_safe p
      | None => tl_safe p
      end.

(** A fresh timeline and goroutines that use it through [newEvent]. *)
Definition fresh_pool (P : Pool) : Prop :=
  rw (wlog (sys P)) = false /\ events (wlog (sys P)) = [] /\
  eventCounter (wlog (sys P)) = 0 /\
  forall p, p ∈ threads P -> tl_safe p.

(** The ids of the listed events, in the order of the list. *)
Definition event_ids (s : Sys) : list (option Z) :=
  (fun ev => id <$> evheap s !! ev) <$> events (wlog s).

(** A schedule names the goroutine that takes each step; a number past the
    running goroutines starts the oldest waiting one. A goroutine that
    cannot move lets the turn pass. *)
Definition sched_step (env : Env) (P : Pool) (i : nat) : option Pool :=
  match threads P !! i with
  | Some p =>
      match thread_step env p (sys P) with
      | Some (p', s') => Some {| threads := <[i := p']> (threads P); sys := s' |}
      | None => None
      end
  | None =>
      match spawned (sys P) with
      | t :: l => Some {| threads := threads P ++ [task_body t];
                          sys := upd_spawned (fun _ => [] ++ l) (sys P) |}
      | [] => None
      end
  end.

Definition schedule (env : Env) (l : list nat) (P : Pool) : Pool :=
  foldl (fun P i => default P (sched_step env P i)) P l.

(** The sample world once its log exists. *)
Definition sampleLogged : Sys :=
  Eval vm_compute in
    snd (run sampleEnv
           (r <- NewWorldLog "T" "logs" ;;
            match fst r with
            | Some el => trigger (ESetLog el)
            | None => Ret tt
            end) initialSys).

(** The main goroutine creates the group of three replicas; the three
    provisioning goroutines then take turns, one statement at a time. *)
Definition samplePool : Pool :=
  {| threads := [NewContainer sampleWorld awaitedSpec ;;; Ret tt];
     sys := sampleLogged |}.

Definition sampleSchedule : list nat :=
  replicate 10 0%nat ++ [1; 2; 3]%nat ++
  concat (replicate 40 [3; 1; 2]%nat).


Definition id_le (a b : Event) : Prop := id a <= id b.

#[global] Instance id_le_dec : RelDecision id_le.
Proof. intros a b. unfold id_le. apply _. Defined.





(** Whether a byte occurs in a string. *)
Fixpoint has_byte (c : ascii) (s : string) : bool :=
  match s with
  | EmptyString => false
  | String a s' => Ascii.eqb a c || has_byte c s'
  end.

(** The record [newEvent] leaves on the heap for an event. *)
Definition started_event (idv : Z) (d : string) (now : Time)
    (f : option File) : Event :=
  {| id := idv; description := d; ev_startTime := now;
     ev_finishTime := zeroTime; log := f |}.

(** The line an event's log starts with and the line it ends with. *)
Definition start_line (idv : Z) (d : string) : string :=
  line ("Event " +:+ fmt_03d idv +:+ " start:  " +:+ d).

Definition finish_line (idv : Z) (start finish : Time) : string :=
  line ("Event " +:+ fmt_03d idv +:+ " finish: duration " +:+
        fmt_3f (Seconds (Sub finish start)) +:+ "s").

(** The path of the log of the event with id [idv]. *)
Definition event_path (el : WorldLog) (idv : Z) : string :=
  path_join (eventsDir el) (event_log_name idv).

(** Two states that differ at most in the timeline's own data. *)
Definition same_containers (s s' : Sys) : Prop :=
  slots s' = slots s /\ arrays s' = arrays s /\ spawned s' = spawned s /\
  combined s' = combined s /\ combinedClosed s' = combinedClosed s.

(** The log but for its list, counter and mutex. *)
Definition same_log_setup (el el' : WorldLog) : Prop :=
  world el' = world el /\ worldName el' = worldName el /\
  combinedLogPath el' = combinedLogPath el /\ eventsDir el' = eventsDir el /\
  startTime el' = startTime el /\ finishTime el' = finishTime el.

(** A second sample: two replicas of a web server, both provisioned. *)
Definition webSpec : ContainerSpec :=
  {| Image := "docker.io/library/nginx:1.19";
     spec_FromDockerfile := {| Context := "" |};
     Started := true; Awaited := false; Replicas := 2;
     Entrypoint := []; Cmd := []; ExposedPorts := ["80"];
     OnDestroy := None |}.

Definition webSetup : Prog (World * WorldContainer) :=
  r <- NewWorldLog "T" "logs" ;;
  match fst r with
  | Some el => trigger (ESetLog el)
  | None => Ret tt
  end ;;;
  NewContainer sampleWorld webSpec.

Definition webState : Sys :=
  Eval vm_compute in
    snd (run_spawned sampleEnv (snd (run sampleEnv webSetup initialSys))).

Definition webGroup : WorldContainer :=
  {| Name := "T-nginx-1"; isReady := false; pending := 0%nat;
     onDestroy := None |}.

(** From [s] to [s'] nothing changed but the text of the combined log, and
    not even that when the log was closed. *)
Definition appended (s s' : Sys) : Prop :=
  only_combined s s' /\ combinedClosed s' = combinedClosed s /\
  (combinedClosed s = true -> combined s' = combined s).

(** The registry after the groups [wcs] have been stored in it, one after
    another, each under its name. *)
Definition register (m : gmap string WorldContainer)
    (wcs : list WorldContainer) : gmap string WorldContainer :=
  foldl (fun m wc => <[Name wc := wc]> m) m wcs.

(* ================================================================== *)
(** * The test harness, the network and the operations on containers *)
(* ================================================================== *)

(** A [wait.Strategy], named by a number. *)
Abbreviation Strategy := nat (only parsing).

(** The calls of [New], [Exec], [Wait] and [LogFile] into the testing
    package, the network provider and a container. *)
Inductive XEff : Type :=
| XParallel
| XShort
| XSkip (msg : string)
| XName
| XTempDir
| XNetworkNew
| XCleanupNetwork (network : option string)
| XExec (c : Container) (cmd : list string)
| XWaitUntilReady (strategy : Strategy) (c : Container)
| XCopyFileFromContainer (c : Container) (path : string).

(** What they return. [network.New] gives the network, known by its name,
    or an error; [Exec] gives the exit code and the output of the command,
    or an error; [CopyFileFromContainer] gives the content of the file, or
    an error. *)
Definition XResp (e : XEff) : Type :=
  match e with
  | XShort => bool
  | XName => string
  | XTempDir => string
  | XNetworkNew => (string + string)%type
  | XExec _ _ => (Z * string + string)%type
  | XWaitUntilReady _ _ => option string
  | XCopyFileFromContainer _ _ => (string + string)%type
  | _ => unit
  end.

(** Programs of the package that make such calls. The code of the
    previous sections runs inside them as it is. *)
Inductive XProg (A : Type) : Type :=
| XRet (a : A)
| XExit
| XPanic (msg : string)
| XBase {B : Type} (p : Prog B) (k : B -> XProg A)
| XVis (e : XEff) (k : XResp e -> XProg A).

Arguments XRet {A} a.
Arguments XExit {A}.
Arguments XPanic {A} msg.
Arguments XBase {A B} p k.
Arguments XVis {A} e k.

Fixpoint xbind {A B} (m : XProg A) (f : A -> XProg B) : XProg B :=
  match m with
  | XRet a => f a
  | XExit => XExit
  | XPanic msg => XPanic msg
  | XBase p k => XBase p (fun b => xbind (k b) f)
  | XVis e k => XVis e (fun x => xbind (k x) f)
  end.

Definition xbase {A} (p : Prog A) : XProg A := XBase p XRet.
Definition xtrigger (e : XEff) : XProg (XResp e) := XVis e XRet.

(** [for i, x := range l], counting from [i]. *)
Fixpoint xfor_range {A} (i : nat) (l : list A) (body : nat -> A -> XProg unit)
    : XProg unit :=
  match l with
  | [] => XRet tt
  | x :: l' => xbind (body i x) (fun _ => xfor_range (S i) l' body)
  end.

(** [%v] of a slice of strings. *)
Definition fmt_v_strings (l : list string) : string :=
  "[" +:+ Join l " " +:+ "]".

(** The world log of [New], lines 116-134: none is asked for, or it cannot
    be created, or it is created. A failure is logged and the dummy log
    taken. *)
Definition New_worldLog (testName logPath : string) : XProg unit :=
  if negb (String.eqb logPath "") then
    xbind (xtrigger XTempDir) (fun tmp =>
    let logDir := tmp +:+ "/worldlogs" in
    xbind (xbase (trigger (EMkdirAll logDir))) (fun err =>
    xbind (match err with
           | Some err =>
               xbase (trigger (ETLog ["Failed to create world log directory:";
                                      err]))
           | None => XRet tt
           end) (fun _ =>
    xbind (xbase (NewWorldLog testName logPath)) (fun r =>
    match snd r with
    | Some err =>
        xbase (trigger (ETLog ["Failed to create world log:"; err]) ;;;
               trigger (ESetLog dummyWorldLog))
    | None =>
        xbase (trigger (ESetLog (default dummyWorldLog (fst r))))
    end))))
  else xbase (trigger (ESetLog dummyWorldLog)).

(** [New], lines 96-152. [t.Skip] and [t.Fatalf] end the goroutine; the
    deferred [event.finish] runs on every way out that follows its
    [defer]. The world is returned with its network. *)
Definition New (logPath : string) : XProg World :=
  xbind (xtrigger XParallel) (fun _ =>
  xbind (xtrigger XShort) (fun short =>
  if short : bool then
    xbind (xtrigger (XSkip "skipping testworld test in short mode"))
          (fun _ => XExit)
  else
  xbind (xtrigger XName) (fun testName =>
  let w := {| name := testName; cn := ""; containers := ∅;
              containerKinds := ∅ |} in
  xbind (New_worldLog testName logPath) (fun _ =>
  xbind (xbase (newEvent "World: Create")) (fun event =>
  xbind (xtrigger XNetworkNew) (fun r =>
  xbind (xtrigger (XCleanupNetwork
                     (match r with inl network => Some network | inr _ => None end)))
        (fun _ =>
  match r with
  | inr err =>
      xbind (xbase (Destroy (Some w) [])) (fun _ =>
      xbind (xbase (trigger (ETFatalf ("Failed to create network: " +:+ err))))
            (fun _ =>
      xbind (xbase (Event_finish event)) (fun _ => XExit)))
  | inl network =>
      xbind (xbase (Event_finish event)) (fun _ =>
      XRet {| name := testName; cn := network; containers := ∅;
              containerKinds := ∅ |})
  end))))))).

(** [wc.pending[i].name] *)
Definition member_name (wc : WorldContainer) (i : nat) : Prog string :=
  pending <- trigger (EGetPending (pending wc)) ;;
  match pending !! i with
  | Some (Some pc) => p <- trigger (EGetSlot pc) ;; Ret (pc_name p)
  | Some None => Panic "nil pointer dereference"
  | None => Panic "index out of range"
  end.

(** Writing to [event.log] when the event is not nil; a failure of the
    write is returned. *)
Definition write_event_log (event : option EventRef) (data : string)
    : Prog error :=
  match event with
  | Some ev =>
      e <- trigger (EGetEvent ev) ;;
      match log e with
      | Some f => trigger (EWrite f data)
      | None => Panic "nil pointer dereference"
      end
  | None => Ret None
  end.

(** The body of the loop of [Exec], lines 290-307. *)
Definition Exec_member (wc : WorldContainer) (cmd : list string)
    (expectCode : Z) (i : nat) (container : Container) : XProg unit :=
  xbind (xbase (member_name wc i)) (fun name =>
  xbind (xbase (newEvent (name +:+ ": exec " +:+ Join cmd " "))) (fun event =>
  xbind (xtrigger (XExec container cmd)) (fun r =>
  match r with
  | inr err =>
      xbind (xbase (trigger (ETFatalf ("Failed to exec in container " +:+ name +:+
                                       ": " +:+ err))))
            (fun _ => XExit)
  | inl (exitCode, output) =>
      xbind (xbase (write_event_log event output)) (fun _ =>
      if negb (exitCode =? expectCode) then
        xbind (xbase (trigger (ETFatalf
                 ("Command " +:+ fmt_v_strings cmd +:+ " exited with code " +:+
                  fmt_d exitCode +:+ " (expected " +:+ fmt_d expectCode +:+
                  ") in container " +:+ name))))
              (fun _ => XExit)
      else xbase (Event_finish event))
  end))).

(** [Exec], lines 287-308. The receiver is a pointer: the caller's group
    comes back as [mustReady] left it. *)
Definition Exec (wc : WorldContainer) (cmd : list string) (expectCode : Z)
    : XProg WorldContainer :=
  xbind (xbase (mustReady wc)) (fun r =>
  xbind (xfor_range 0 (snd r) (Exec_member (fst r) cmd expectCode)) (fun _ =>
  XRet (fst r))).

(** The body of the loop of [Wait], lines 313-322. *)
Definition Wait_member (wc : WorldContainer) (waitStrategy : Strategy)
    (i : nat) (container : Container) : XProg unit :=
  xbind (xbase (member_name wc i)) (fun name =>
  xbind (xbase (newEvent (name +:+ ": wait"))) (fun event =>
  xbind (xtrigger (XWaitUntilReady waitStrategy container)) (fun err =>
  match err with
  | Some err =>
      xbind (xbase (trigger (ETFatalf ("Wait failed for container " +:+ name +:+
                                       ": " +:+ err))))
            (fun _ => XExit)
  | None => xbase (Event_finish event)
  end))).

(** [Wait], lines 311-323. *)
Definition Wait (wc : WorldContainer) (waitStrategy : Strategy)
    : XProg WorldContainer :=
  xbind (xbase (mustReady wc)) (fun r =>
  xbind (xfor_range 0 (snd r) (Wait_member (fst r) waitStrategy)) (fun _ =>
  XRet (fst r))).

(** The body of the loop of [LogFile], lines 328-346. *)
Definition LogFile_member (wc : WorldContainer) (path : string)
    (i : nat) (container : Container) : XProg unit :=
  xbind (xbase (member_name wc i)) (fun name =>
  xbind (xbase (newEvent (name +:+ ": log file " +:+ path))) (fun event =>
  xbind (xtrigger (XCopyFileFromContainer container path)) (fun r =>
  match r with
  | inr err =>
      xbind (xbase (trigger (ETFatalf ("Failed to copy file " +:+ path +:+
                                       " from container " +:+ name +:+ ": " +:+
                                       err))))
            (fun _ => XExit)
  | inl data =>
      xbind (xbase (write_event_log event data)) (fun err =>
      match err with
      | Some err =>
          xbind (xbase (trigger (ETFatalf ("Failed to copy file content for " +:+
                                           path +:+ ": " +:+ err))))
                (fun _ => XExit)
      | None => xbase (Event_finish event)
      end)
  end))).

(** [LogFile], lines 326-347. *)
Definition LogFile (wc : WorldContainer) (path : string)
    : XProg WorldContainer :=
  xbind (xbase (mustReady wc)) (fun r =>
  xbind (xfor_range 0 (snd r) (LogFile_member (fst r) path)) (fun _ =>
  XRet (fst r))).

(** What the surroundings decide for these calls. *)
Record XEnv := {
  short : bool;
  testName : string;
  harnessTempDir : string;
  networkNew : string + string;
  exec : Container -> list string -> Z * string + string;
  waitUntilReady : Strategy -> Container -> option string;
  copyFile : Container -> string -> string + string;
}.

(** The calls made, in their order. *)
Inductive XObs :=
| OParallel
| OSkip (msg : string)
| ONetworkNew
| OCleanupNetwork (network : option string)
| OExec (c : Container) (cmd : list string)
| OWaitUntilReady (strategy : Strategy) (c : Container)
| OCopyFile (c : Container) (path : string).

Record XSys := { base : Sys; xtrace : list XObs }.

Definition xobserve (os : list XObs) (s : XSys) : XSys :=
  {| base := base s; xtrace := xtrace s ++ os |}.

Definition set_base (b : Sys) (s : XSys) : XSys :=
  {| base := b; xtrace := xtrace s |}.

Definition xhandle (xenv : XEnv) (e : XEff) : XResp e * list XObs :=
  match e as e0 return XResp e0 * list XObs with
  | XParallel => (tt, [OParallel])
  | XShort => (short xenv, [])
  | XSkip msg => (tt, [OSkip msg])
  | XName => (testName xenv, [])
  | XTempDir => (harnessTempDir xenv, [])
  | XNetworkNew => (networkNew xenv, [ONetworkNew])
  | XCleanupNetwork n => (tt, [OCleanupNetwork n])
  | XExec c cmd => (exec xenv c cmd, [OExec c cmd])
  | XWaitUntilReady st c => (waitUntilReady xenv st c, [OWaitUntilReady st c])
  | XCopyFileFromContainer c path => (copyFile xenv c path, [OCopyFile c path])
  end.

(** One goroutine run from a state until it returns, exits, panics or has
    to wait. *)
Fixpoint xrun {A} (env : Env) (xenv : XEnv) (p : XProg A) (s : XSys)
    : Outcome A * XSys :=
  match p with
  | XRet a => (Done a, s)
  | XExit => (Exited, s)
  | XPanic msg => (Panicked msg, s)
  | XBase q k =>
      match run env q (base s) with
      | (Done b, s') => xrun env xenv (k b) (set_base s' s)
      | (Exited, s') => (Exited, set_base s' s)
      | (Panicked msg, s') => (Panicked msg, set_base s' s)
      | (Blocked, s') => (Blocked, set_base s' s)
      end
  | XVis e k =>
      xrun env xenv (k (fst (xhandle xenv e)))
        (xobserve (snd (xhandle xenv e)) s)
  end.

(** A harness in which everything succeeds, and runs from it. *)
Definition sampleXEnv : XEnv :=
  {| short := false; testName := "T"; harnessTempDir := "/tmp/h";
     networkNew := inl "net";
     exec := fun _ cmd => inl (0, "ok" +:+ LF);
     waitUntilReady := fun _ _ => None;
     copyFile := fun _ path => inl ("content of " +:+ path +:+ LF) |}.

Definition initialXSys : XSys := {| base := initialSys; xtrace := [] |}.

(** From [s] to [s'] the code of the earlier sections made the
    observations [bobs] of its own and the calls [xobs] were made. *)
Definition xyields (s s' : XSys) (bobs : list Obs) (xobs : list XObs) : Prop :=
  yields (base s) (base s') bobs /\ xtrace s' = xtrace s ++ xobs.

(** The fatal report of [mustReady] for a group whose member [k] failed. *)
Definition ready_fatal (wc : WorldContainer) (s : Sys) (pcs : list SlotRef)
    (k : nat) : list Obs :=
  match wait_error s pcs k with
  | Some err => [OFatal ("Container " +:+ Name wc +:+ " failed to create: " +:+ err)]
  | None => []
  end.

(** The name a slot carries. *)
Definition slot_name (s : Sys) (pc : SlotRef) : string :=
  match slots s !! pc with
  | Some p => pc_name p
  | None => ""
  end.

(** Whether a command runs in a container and exits as expected, and the
    fatal report of [Exec] when it does not. *)
Definition exec_good (xenv : XEnv) (cmd : list string) (expectCode : Z)
    (c : Container) : bool :=
  match exec xenv c cmd with
  | inl (exitCode, _) => exitCode =? expectCode
  | inr _ => false
  end.

Definition exec_fatal (xenv : XEnv) (cmd : list string) (expectCode : Z)
    (name : string) (c : Container) : Obs :=
  match exec xenv c cmd with
  | inl (exitCode, _) =>
      OFatal ("Command " +:+ fmt_v_strings cmd +:+ " exited with code " +:+
              fmt_d exitCode +:+ " (expected " +:+ fmt_d expectCode +:+
              ") in container " +:+ name)
  | inr err =>
      OFatal ("Failed to exec in container " +:+ name +:+ ": " +:+ err)
  end.

(** Whether a container becomes ready under a strategy, and the fatal
    report of [Wait] when it does not. *)
Definition wait_good (xenv : XEnv) (st : Strategy) (c : Container) : bool :=
  match waitUntilReady xenv st c with
  | Some _ => false
  | None => true
  end.

Definition wait_fatal (xenv : XEnv) (st : Strategy) (name : string)
    (c : Container) : Obs :=
  OFatal ("Wait failed for container " +:+ name +:+ ": " +:+
          default "" (waitUntilReady xenv st c)).

(** Whether a file can be copied out of a container, and the fatal report
    of [LogFile] when it cannot. *)
Definition copy_good (xenv : XEnv) (path : string) (c : Container) : bool :=
  match copyFile xenv c path with
  | inl _ => true
  | inr _ => false
  end.

Definition copy_fatal (xenv : XEnv) (path : string) (name : string)
    (c : Container) : Obs :=
  OFatal ("Failed to copy file " +:+ path +:+ " from container " +:+ name +:+
          ": " +:+ match copyFile xenv c path with
                   | inl _ => ""
                   | inr err => err
                   end).

(** A harness in which nothing succeeds. *)
Definition failingXEnv : XEnv :=
  {| short := false; testName := "T"; harnessTempDir := "/tmp/h";
     networkNew := inr "no docker";
     exec := fun _ _ => inl (1, "sh: not found" +:+ LF);
     waitUntilReady := fun _ _ => Some "timeout";
     copyFile := fun _ _ => inr "no such file" |}.

Definition webXState : XSys := {| base := webState; xtrace := [] |}.

(** A third sample: one container with an enabled log, provisioned. *)
Definition oneSetup : Prog (World * WorldContainer) :=
  r <- NewWorldLog "T" "logs" ;;
  match fst r with
  | Some el => trigger (ESetLog el)
  | None => Ret tt
  end ;;;
  NewContainer sampleWorld alpineSpec.

Definition oneState : Sys :=
  Eval vm_compute in
    snd (run_spawned sampleEnv (snd (run sampleEnv oneSetup initialSys))).

Definition oneGroup : WorldContainer :=
  {| Name := "T-alpine-1"; isReady := true; pending := 0%nat;
     onDestroy := None |}.

Definition oneXState : XSys := {| base := oneState; xtrace := [] |}.

(** The error of [NewWorldLog], by what the file system allows. *)
Definition new_log_error (env : Env) (nm path : string) : error :=
  match absPath env path with
  | inr err => Some err
  | inl dir =>
      match mkdirFails env dir with
      | Some err => Some err
      | None =>
          if createFails env (path_join dir ("log_" +:+ nm +:+ "_events.log"))
          then Some "cannot create file"
          else mkdirFails env (path_join (tempDir env) "events")
      end
  end.

(** The log [NewWorldLog] returns when there is no error. *)
Definition fresh_log (env : Env) (nm path : string) (now : Time) : WorldLog :=
  {| rw := false; world := true; worldName := nm;
     combinedLogPath :=
       path_join (match absPath env path with inl dir => dir | inr _ => "" end)
                 ("log_" +:+ nm +:+ "_events.log");
     eventsDir := path_join (tempDir env) "events"; events := [];
     startTime := now; finishTime := zeroTime; eventCounter := 0 |}.

(** Whether [New] gets a log, the log of the world it makes, and what it
    reports about the log. *)
Definition log_enabled (env : Env) (nm logPath : string) : bool :=
  negb (String.eqb logPath "") &&
  match new_log_error env nm logPath with Some _ => false | None => true end.

Definition world_log (env : Env) (nm logPath : string) (now : Time) : WorldLog :=
  if log_enabled env nm logPath then fresh_log env nm logPath now
  else dummyWorldLog.

Definition log_setup_reports (env : Env) (xenv : XEnv) (logPath : string)
    : list Obs :=
  if String.eqb logPath "" then []
  else
    match mkdirFails env (harnessTempDir xenv +:+ "/worldlogs") with
    | Some err => [OLog (sprint_args ["Failed to create world log directory:"; err])]
    | None => []
    end ++
    match new_log_error env (testName xenv) logPath with
    | Some err => [OLog (sprint_args ["Failed to create world log:"; err])]
    | None => []
    end.

(** A file system in which no file can be created. *)
Definition readOnlyEnv : Env :=
  {| clock := clock sampleEnv; provision := provision sampleEnv;
     containerLogs := containerLogs sampleEnv; terminate := terminate sampleEnv;
     createFails := fun _ => true;
     absPath := absPath sampleEnv; mkdirFails := mkdirFails sampleEnv;
     tempDir := tempDir sampleEnv |}.

(** The three operations on the containers of a group. *)
Inductive Operation :=
| OpExec (cmd : list string) (expectCode : Z)
| OpWait (waitStrategy : Strategy)
| OpLogFile (path : string).

Definition operate (wc : WorldContainer) (op : Operation) : XProg WorldContainer :=
  match op with
  | OpExec cmd expectCode => Exec wc cmd expectCode
  | OpWait waitStrategy => Wait wc waitStrategy
  | OpLogFile path => LogFile wc path
  end.



(* ================================================================== *)
(** * Properties *)
(* ================================================================== *)

(** ** Strings, numbers and formats *)

Lemma Repeat_length c n : String.length (Repeat c n) = n.
Proof. induction n; simpl; congruence. Qed.

Example basename_alpine : basename "alpine:latest" = "alpine".
Proof. reflexivity. Qed.
Example basename_nginx : basename "docker.io/library/nginx:1.19" = "nginx".
Proof. reflexivity. Qed.
Example basename_port : basename "localhost:5000/app" = "app".
Proof. reflexivity. Qed.

Section BasenameRefinement.

Lemma prefix_byte c s :
  String.prefix (String c EmptyString) s =
  match s with String a _ => Ascii.eqb c a | EmptyString => false end.
Proof.
  destruct s as [|a s]; simpl; [done|].
  destruct (ascii_dec c a) as [->|Hne].
  - rewrite Ascii.eqb_refl. by destruct s.
  - symmetry. by apply Ascii.eqb_neq.
Qed.

Lemma fields_nonempty c s : fields c s <> [].
Proof.
  destruct s as [|a s]; simpl; [done|].
  destruct (Ascii.eqb a c); [done|]. by destruct (fields c s).
Qed.

(** [strings.Index] finds the end of the first field. *)
Lemma Index_from_fields c s i :
  let r := Index_from i s (String c EmptyString) in
  (r = -1 /\ fields c s = [s]) \/
  (Z.of_nat i <= r /\
   List.hd EmptyString (fields c s) = stake (Z.to_nat (r - Z.of_nat i)) s).
Proof.
  revert i. induction s as [|a s IH]; intros i; cbn zeta.
  - by left.
  - cbn [Index_from fields]. rewrite prefix_byte, (Ascii.eqb_sym c a).
    destruct (Ascii.eqb a c) eqn:Hac.
    + right. split; [lia|]. by rewrite Z.sub_diag.
    + destruct (IH (S i)) as [[-> Hf]|[Hle Hhd]].
      * left. by rewrite Hf.
      * right. split; [lia|].
        replace (Z.to_nat (Index_from (S i) s (String c EmptyString) - Z.of_nat i))
          with (S (Z.to_nat (Index_from (S i) s (String c EmptyString) - Z.of_nat (S i))))
          by lia.
        cbn [stake]. rewrite <- Hhd.
        pose proof (fields_nonempty c s). by destruct (fields c s).
Qed.

(** [strings.LastIndex] finds the start of the last field. *)
Lemma LastIndex_from_fields c s i :
  let r := LastIndex_from i s (String c EmptyString) in
  (r = -1 /\ fields c s = [s]) \/
  (Z.of_nat i <= r /\ (2 <= length (fields c s))%nat /\
   List.last (fields c s) EmptyString =
     sdrop (Z.to_nat (r - Z.of_nat i + 1)) s).
Proof.
  revert i. induction s as [|a s IH]; intros i; cbn zeta.
  - by left.
  - cbn [LastIndex_from fields]. rewrite prefix_byte, (Ascii.eqb_sym c a).
    destruct (IH (S i)) as [[Hr Hf]|(Hle & Hlen & Hlast)].
    + rewrite Hr. cbn [Z.leb Z.compare]. rewrite Hf.
      destruct (Ascii.eqb a c) eqn:Hac.
      * right. split; [lia|]. split; [simpl; lia|].
        by replace (Z.to_nat (Z.of_nat i - Z.of_nat i + 1)) with 1%nat by lia.
      * by left.
    + destruct (Z.leb_spec 0 (LastIndex_from (S i) s (String c EmptyString)));
        [|lia].
      right. split; [lia|].
      replace (Z.to_nat (LastIndex_from (S i) s (String c EmptyString) - Z.of_nat i + 1))
        with (S (Z.to_nat (LastIndex_from (S i) s (String c EmptyString) - Z.of_nat (S i) + 1)))
        by lia.
      cbn [sdrop]. rewrite <- Hlast.
      destruct (fields c s) as [|x [|y r]]; simpl in Hlen; [lia..|].
      destruct (Ascii.eqb a c); split; simpl; (lia || done).
Qed.

(** The code of [basename] computes what the specification describes:
    the last path segment with everything from the first colon removed. *)
Lemma basename_spec s : basename s = spec_kind_of s.
Proof.
  unfold basename, spec_kind_of, last_segment, before_colon, LastIndex, Index.
  set (t := if 0 <=? LastIndex_from 0 s "/" then _ else s).
  assert (Ht : t = List.last (fields "/" s) EmptyString).
  { subst t. destruct (LastIndex_from_fields "/" s 0) as [[-> ->]|(Hle & _ & ->)].
    - done.
    - cbn zeta in Hle. destruct (Z.leb_spec 0 (LastIndex_from 0 s "/")); [|lia].
      f_equal. lia. }
  rewrite <- Ht. clear Ht. generalize t. clear. intros t.
  destruct (Index_from_fields ":" t 0) as [[-> ->]|[Hle ->]].
  - done.
  - cbn zeta in Hle. destruct (Z.leb_spec 0 (Index_from 0 t ":")); [|lia].
    f_equal. lia.
Qed.

End BasenameRefinement.

Lemma wrap64_id z : minInt64 <= z <= maxInt64 -> wrap64 z = z.
Proof.
  unfold wrap64, minInt64, maxInt64. intros Hz.
  rewrite Z.mod_small; lia.
Qed.

Lemma wrap64_range z : minInt64 <= wrap64 z <= maxInt64.
Proof.
  unfold wrap64, minInt64, maxInt64.
  pose proof (Z.mod_pos_bound (z + 2 ^ 63) (2 ^ 64)). lia.
Qed.

Example fmt_03d_7 : fmt_03d 7 = "007". Proof. reflexivity. Qed.
Example fmt_03d_1000 : fmt_03d 1000 = "1000". Proof. reflexivity. Qed.
Example fmt_03d_neg : fmt_03d (-5) = "-05". Proof. reflexivity. Qed.
Example seconds_1500ms :
  fmt_3f (Seconds 1500000000) = "1.500".
Proof. vm_compute. reflexivity. Qed.
Example seconds_half_ms :
  fmt_3f (Seconds 500000) = "0.001".
Proof. vm_compute. reflexivity. Qed.
Example seconds_neg :
  fmt_3f (Seconds (-250000000)) = "-0.250".
Proof. vm_compute. reflexivity. Qed.
Example to_int_80 :
  F64.to_int (F64.mul (F64.div (Seconds 7) (Seconds 7)) (F64.of_int 80)) = 80.
Proof. vm_compute. reflexivity. Qed.

Lemma run_bind {A B} env (m : Prog A) (f : A -> Prog B) s :
  run env (bind m f) s =
  match run env m s with
  | (Done a, s') => run env (f a) s'
  | (Exited, s') => (Exited, s')
  | (Panicked msg, s') => (Panicked msg, s')
  | (Blocked, s') => (Blocked, s')
  end.
Proof.
  revert s. induction m as [a| |msg|e k IH]; intros s; simpl; try done.
  destruct (handle env e s) as [x s'| |msg]; simpl; auto.
Qed.

(** ** Running programs *)

Lemma run_for_each_nil {A} env (body : A -> Prog unit) s :
  run env (for_each [] body) s = (Done tt, s).
Proof. reflexivity. Qed.

Lemma run_for_each_cons {A} env (body : A -> Prog unit) x l s :
  run env (for_each (x :: l) body) s =
  match run env (body x) s with
  | (Done _, s') => run env (for_each l body) s'
  | (Exited, s') => (Exited, s')
  | (Panicked msg, s') => (Panicked msg, s')
  | (Blocked, s') => (Blocked, s')
  end.
Proof. cbn [for_each]. by rewrite run_bind. Qed.


(** ** NewContainer *)

Section NewContainerRun.
Variable env : Env.
Variables (w : World) (spec : ContainerSpec) (kind groupName : string).
Variables (replicas : Z) (a : ArrRef).

Let step := replica_state w spec kind groupName replicas a.

Lemma replica_state_slots s i :
  slots (step s i) =
  slots s ++ [newPending (replicaName_of groupName replicas i)].
Proof. reflexivity. Qed.

Lemma run_newContainer_replica s l i :
  arrays s !! a = Some l -> (i < length l)%nat ->
  run env (newContainer_replica w spec kind groupName replicas a i) s =
  (Done tt, step s i).
Proof.
  intros Ha Hi. unfold newContainer_replica. cbn.
  rewrite Ha. destruct (decide (i < length l)%nat); [|lia]. reflexivity.
Qed.

Lemma replica_state_arrays s l i :
  arrays s !! a = Some l ->
  arrays (step s i) !! a = Some (<[i := Some (length (slots s))]> l).
Proof.
  intros Ha. cbn. rewrite list_lookup_alter_eq, Ha. reflexivity.
Qed.

Lemma run_newContainer_loop m : forall s l i0,
  arrays s !! a = Some l -> (i0 + m <= length l)%nat ->
  run env (for_each (seq i0 m)
             (newContainer_replica w spec kind groupName replicas a)) s =
  (Done tt, foldl step s (seq i0 m)).
Proof.
  induction m as [|m IH]; intros s l i0 Ha Hle; [reflexivity|].
  cbn [seq foldl]. rewrite run_for_each_cons.
  rewrite (run_newContainer_replica s l i0 Ha) by lia.
  eapply IH.
  - by apply replica_state_arrays.
  - rewrite length_insert. lia.
Qed.

Lemma foldl_step_slots m : forall s i0,
  slots (foldl step s (seq i0 m)) =
  slots s ++ map (fun i => newPending (replicaName_of groupName replicas i))
                 (seq i0 m).
Proof.
  induction m as [|m IH]; intros s i0; cbn [seq foldl map].
  - by rewrite app_nil_r.
  - rewrite IH, replica_state_slots, <- app_assoc. reflexivity.
Qed.

Lemma foldl_step_spawned m : forall s i0,
  spawned (foldl step s (seq i0 m)) =
  spawned s ++
  map (fun i => CreateFn kind (replicaName_of groupName replicas i)
                  (length (slots s) + (i - i0))
                  (toGenericContainerRequest spec
                     (replicaName_of groupName replicas i) (cn w)
                     (aliases_of groupName replicas i)))
      (seq i0 m).
Proof.
  induction m as [|m IH]; intros s i0; cbn [seq foldl map].
  - by rewrite app_nil_r.
  - rewrite IH. cbn [step replica_state upd_spawned spawned upd_arrays upd_slots slots].
    rewrite <- app_assoc. cbn [app]. f_equal. f_equal.
    + by rewrite Nat.sub_diag, Nat.add_0_r.
    + apply map_ext_in. intros i Hi%in_seq. rewrite length_app. cbn [length].
      f_equal. lia.
Qed.

Lemma replica_state_arrays_eq s l i :
  arrays s !! a = Some l ->
  arrays (step s i) = <[a := <[i := Some (length (slots s))]> l]> (arrays s).
Proof.
  intros Ha. cbn. apply list_eq. intros j.
  destruct (decide (j = a)) as [->|Hne].
  - rewrite list_lookup_alter_eq, Ha.
    rewrite list_lookup_insert_eq; [done|]. by eapply lookup_lt_Some.
  - rewrite list_lookup_alter_ne, list_lookup_insert_ne by done. done.
Qed.

Lemma foldl_step_arrays m : forall s l i0,
  arrays s !! a = Some l -> (i0 + m <= length l)%nat ->
  exists l', arrays (foldl step s (seq i0 m)) = <[a := l']> (arrays s) /\
    length l' = length l /\
    forall j, l' !! j =
      if decide (i0 <= j < i0 + m)%nat
      then Some (Some (length (slots s) + (j - i0))%nat)
      else l !! j.
Proof.
  induction m as [|m IH]; intros s l i0 Ha Hle; cbn [seq foldl].
  - exists l. split; [by rewrite list_insert_id|]. split; [done|]. intros j.
    destruct (decide _); [lia|done].
  - destruct (IH (step s i0) (<[i0 := Some (length (slots s))]> l) (S i0))
      as (l' & Hl' & Hlen & Hj).
    { by apply replica_state_arrays. }
    { rewrite length_insert. lia. }
    exists l'. split.
    { rewrite Hl', (replica_state_arrays_eq s l i0 Ha).
      by rewrite list_insert_insert_eq. }
    split; [by rewrite Hlen, length_insert|].
    intros j. rewrite Hj, replica_state_slots, length_app. cbn [length].
    destruct (decide (S i0 <= j < S i0 + m)%nat),
             (decide (i0 <= j < i0 + S m)%nat); try lia.
    + do 2 f_equal. lia.
    + assert (j = i0) as -> by lia.
      rewrite list_lookup_insert_eq by lia. do 2 f_equal. lia.
    + apply list_lookup_insert_ne. lia.
Qed.

Lemma foldl_step_frame m : forall s i0,
  let s' := foldl step s (seq i0 m) in
  wlog s' = wlog s /\ evheap s' = evheap s /\ evfiles s' = evfiles s /\
  combined s' = combined s /\ combinedClosed s' = combinedClosed s /\
  tick s' = tick s /\ trace s' = trace s.
Proof.
  induction m as [|m IH]; intros s i0; cbn [seq foldl]; [done|].
  destruct (IH (step s i0) (S i0)) as (?&?&?&?&?&?&?). cbn zeta.
  repeat split; etrans; try eassumption; reflexivity.
Qed.

End NewContainerRun.

(** What [NewContainer] returns and the state it leaves: the group is
    registered, its slots are fresh and unresolved, and one task per
    replica has been handed to the scheduler. *)
Lemma run_NewContainer env w spec s :
  let wc := {| Name := group_name w spec; isReady := false;
               pending := length (arrays s); onDestroy := OnDestroy spec |} in
  let w' := {| name := name w; cn := cn w;
               containers := <[group_name w spec := wc]> (containers w);
               containerKinds :=
                 <[kind_of_spec spec := next_count w spec]> (containerKinds w) |} in
  let n := replica_count spec in
  let g := group_name w spec in
  let r := Z.max (Replicas spec) 1 in
  exists s',
    run env (NewContainer w spec) s = (Done (w', wc), s') /\
    slots s' = slots s ++ map (fun i => newPending (replicaName_of g r i)) (seq 0 n) /\
    arrays s' = arrays s ++ [map (fun i => Some (length (slots s) + i)%nat) (seq 0 n)] /\
    spawned s' = spawned s ++
      map (fun i => replica_task w spec (length (slots s) + i) i) (seq 0 n) /\
    wlog s' = wlog s /\ evheap s' = evheap s /\ evfiles s' = evfiles s /\
    combined s' = combined s /\ combinedClosed s' = combinedClosed s /\
    tick s' = tick s /\ trace s' = trace s.
Proof.
  intros wc w' n g r. unfold NewContainer.
  fold (next_count w spec). fold (group_name w spec). fold g. fold r.
  change (Z.to_nat r) with n.
  rewrite run_bind. cbn [trigger run handle].
  set (s0 := upd_arrays _ s).
  assert (Ha : arrays s0 !! length (arrays s) = Some (replicate n None)).
  { subst s0. cbn. by rewrite lookup_app_r, Nat.sub_diag by lia. }
  rewrite run_bind.
  rewrite (run_newContainer_loop env _ _ _ _ _ _ n s0 _ 0 Ha)
    by (rewrite length_replicate; lia).
  cbn [run].
  exists (foldl (replica_state w' spec (kind_of_spec spec) g r (length (arrays s)))
            s0 (seq 0 n)).
  split; [reflexivity|].
  destruct (foldl_step_arrays w' spec (kind_of_spec spec) g r (length (arrays s))
              n s0 _ 0 Ha) as (l' & Hl' & Hlen & Hj).
  { rewrite length_replicate. lia. }
  destruct (foldl_step_frame w' spec (kind_of_spec spec) g r (length (arrays s))
              n s0 0) as (?&?&?&?&?&?&?).
  split; [by rewrite foldl_step_slots|].
  split.
  { rewrite Hl'. subst s0. cbn [arrays upd_arrays].
    rewrite insert_app_r_alt, Nat.sub_diag by lia. cbn. f_equal. f_equal.
    apply list_eq. intros j. rewrite Hj, list_lookup_fmap.
    rewrite length_replicate in Hlen.
    destruct (decide (0 <= j < 0 + n)%nat).
    - rewrite lookup_seq_lt by lia. cbn. do 2 f_equal. lia.
    - rewrite lookup_seq_ge by lia. cbn. apply lookup_replicate_None.
      lia. }
  split.
  { rewrite foldl_step_spawned. f_equal. apply map_ext_in.
    intros i _. unfold replica_task. fold g. fold r. f_equal.
    subst s0. cbn [slots upd_arrays]. lia. }
  done.
Qed.

(** ** Names of groups and members *)

Lemma kind_of_spec_spec spec : kind_of_spec spec = spec_kind spec.
Proof.
  unfold kind_of_spec, spec_kind. rewrite !basename_spec. cbn zeta.
  set (a := spec_kind_of (Image spec)).
  set (b := spec_kind_of (Context (spec_FromDockerfile spec))).
  destruct (String.eqb_spec a "") as [Ha|Ha];
    destruct (String.eqb_spec b "") as [Hb|Hb];
    repeat destruct (decide _); try first [congruence | tauto].
  all: destruct (String.eqb_spec a ""); first [congruence | tauto].
Qed.

Lemma fmt_d_succ (i : nat) : fmt_d (Z.of_nat i + 1) = pretty (S i).
Proof.
  unfold fmt_d. replace (Z.of_nat i + 1) with (Z.pos (Pos.of_succ_nat i)) by lia.
  reflexivity.
Qed.

Lemma replicaName_of_spec g spec i :
  replicaName_of g (Z.max (Replicas spec) 1) i =
  spec_member_address g (replica_count spec) (S i).
Proof.
  unfold replicaName_of, spec_member_address, replica_count.
  rewrite fmt_d_succ.
  destruct (Z.ltb_spec 1 (Z.max (Replicas spec) 1)), (decide _); (done || lia).
Qed.

Lemma aliases_of_spec g spec i :
  aliases_of g (Z.max (Replicas spec) 1) i =
  spec_member_aliases g (replica_count spec) (S i).
Proof.
  unfold aliases_of, spec_member_aliases. rewrite replicaName_of_spec.
  unfold replica_count.
  destruct (Z.ltb_spec 1 (Z.max (Replicas spec) 1)), (decide _); (done || lia).
Qed.

Lemma fmt_d_inj a b : fmt_d a = fmt_d b -> a = b.
Proof. unfold fmt_d. apply pretty_Z_inj. Qed.

Lemma group_name_inj nm kind a b :
  nm +:+ "-" +:+ kind +:+ "-" +:+ fmt_d a =
  nm +:+ "-" +:+ kind +:+ "-" +:+ fmt_d b -> a = b.
Proof.
  intros H. do 4 apply String.app_inj in H. by apply fmt_d_inj.
Qed.

Lemma count_kind_cons kind spec rest :
  count_kind kind (spec :: rest) =
  (if decide (kind_of_spec spec = kind) then 1 else 0) + count_kind kind rest.
Proof.
  unfold count_kind. rewrite filter_cons.
  destruct (decide _); cbn [length]; lia.
Qed.

Lemma count_kind_nonneg kind specs : 0 <= count_kind kind specs.
Proof. unfold count_kind. lia. Qed.

Lemma count_kind_take_lt kind specs i j spj :
  (i < j)%nat -> specs !! j = Some spj -> kind_of_spec spj = kind ->
  count_kind kind (take (S i) specs) < count_kind kind (take (S j) specs).
Proof.
  intros Hij Hj Hk.
  rewrite (take_S_r specs j spj Hj).
  unfold count_kind. rewrite filter_app, length_app, filter_cons, decide_True by done.
  cbn [filter length].
  assert (length (filter (fun sp => kind_of_spec sp = kind) (take (S i) specs))
          <= length (filter (fun sp => kind_of_spec sp = kind) (take j specs)))%nat.
  { replace (take (S i) specs) with (take (S i) (take j specs))
      by (rewrite take_take; f_equal; lia).
    rewrite <- (take_drop (S i) (take j specs)) at 2.
    rewrite filter_app, length_app. lia. }
  lia.
Qed.

Lemma next_count_ok w spec n :
  counters_ok w (S n) ->
  next_count w spec = default 0 (containerKinds w !! kind_of_spec spec) + 1.
Proof.
  intros Hok. unfold next_count. apply wrap64_id.
  destruct (Hok (kind_of_spec spec)) as [H0 H1].
  unfold minInt64, maxInt64 in *. lia.
Qed.

(** The groups a sequence of [NewContainer] calls returns are numbered, per
    kind, from the world's counter upwards. *)
Lemma run_NewContainers env specs : forall w s,
  counters_ok w (length specs) ->
  exists w' wcs s',
    run env (NewContainers w specs) s = (Done (w', wcs), s') /\
    forall i spec wc,
      specs !! i = Some spec -> wcs !! i = Some wc ->
      Name wc = name w +:+ "-" +:+ kind_of_spec spec +:+ "-" +:+
                fmt_d (default 0 (containerKinds w !! kind_of_spec spec) +
                       count_kind (kind_of_spec spec) (take (S i) specs)).
Proof.
  induction specs as [|spec rest IH]; intros w s Hok.
  - exists w, [], s. split; [done|]. intros i ? ? Hi. by destruct i.
  - cbn [NewContainers length] in *.
    destruct (run_NewContainer env w spec s) as (s1 & Hrun & _).
    rewrite run_bind, Hrun. cbn [fst snd].
    set (wc1 := {| Name := group_name w spec |}) in *.
    set (w1 := {| name := name w |}) in *.
    assert (Hok1 : counters_ok w1 (length rest)).
    { intros kind. subst w1. cbn [containerKinds].
      rewrite (next_count_ok w spec (length rest) Hok).
      destruct (Hok kind) as [H0 H1].
      destruct (decide (kind_of_spec spec = kind)) as [<-|Hne].
      - rewrite lookup_insert_eq. cbn [from_option Datatypes.id]. clear -H0 H1. lia.
      - rewrite lookup_insert_ne by done. clear -H0 H1. lia. }
    destruct (IH w1 s1 Hok1) as (w' & wcs & s' & Hrun' & Hnames).
    rewrite run_bind, Hrun'. cbn [run fst snd].
    exists w', (wc1 :: wcs), s'. split; [done|].
    intros [|i] sp wc Hsp Hwc; cbn in Hsp, Hwc; simplify_eq.
    + cbn [Name]. unfold group_name.
      rewrite (next_count_ok w sp (length rest) Hok).
      cbn [take]. rewrite count_kind_cons, decide_True by done.
      unfold count_kind. cbn. repeat (f_equal; try lia).
    + rewrite (Hnames i sp wc Hsp Hwc). subst w1. cbn [name containerKinds].
      rewrite (next_count_ok w spec (length rest) Hok).
      cbn [take]. rewrite count_kind_cons.
      destruct (decide (kind_of_spec spec = kind_of_spec sp)) as [Heq|Hne].
      * rewrite Heq, lookup_insert_eq. cbn. repeat (f_equal; try lia).
      * rewrite lookup_insert_ne by done. repeat (f_equal; try lia).
Qed.

(** C4. For every [NewContainer(spec)] call on a world [w] the group is
    named [{w.name}-{kind}-{c}]: [kind] is the last path segment of the
    image with everything from the first colon removed, else the same
    of the Dockerfile context, else the literal container; [c] is the
    per-kind counter after the increment. The group is registered under
    that name and holds exactly as many unresolved slots as replicas were
    requested (at least one). A sole member has the group name as its
    address and as its only alias; of several members, member [i]
    (counted from 1) has address [{group}-{i}] and aliases
    [{group}-{i}] and [{group}]. Of the groups one world creates, two of
    the same kind carry strictly increasing numbers and different names,
    as long as no counter overflows. *)
Theorem NewContainer_naming env w specs s
    (Hok : counters_ok w (length specs)) :
  (forall spec s0,
     let kind := spec_kind spec in
     let c := wrap64 (default 0 (containerKinds w !! kind) + 1) in
     let group := name w +:+ "-" +:+ kind +:+ "-" +:+ fmt_d c in
     let n := Z.to_nat (Z.max (Replicas spec) 1) in
     exists w' wc s',
       run env (NewContainer w spec) s0 = (Done (w', wc), s') /\
       Name wc = group /\
       containerKinds w' !! kind = Some c /\
       containers w' !! group = Some wc /\
       exists pcs,
         arrays s' !! pending wc = Some (map Some pcs) /\
         length pcs = n /\
         forall i pc, pcs !! i = Some pc ->
           member_created w spec s' pc
             (spec_member_address group n (S i))
             (spec_member_aliases group n (S i))) /\
  exists w' wcs s',
    run env (NewContainers w specs) s = (Done (w', wcs), s') /\
    forall i j spi spj wci wcj,
      (i < j)%nat ->
      specs !! i = Some spi -> specs !! j = Some spj ->
      wcs !! i = Some wci -> wcs !! j = Some wcj ->
      spec_kind spi = spec_kind spj ->
      exists ci cj,
        Name wci = name w +:+ "-" +:+ spec_kind spi +:+ "-" +:+ fmt_d ci /\
        Name wcj = name w +:+ "-" +:+ spec_kind spj +:+ "-" +:+ fmt_d cj /\
        ci < cj /\
        Name wci <> Name wcj.
Proof.
  split.
  - intros spec s0. cbn zeta. rewrite <- kind_of_spec_spec.
    fold (next_count w spec). fold (group_name w spec).
    fold (replica_count spec).
    destruct (run_NewContainer env w spec s0)
      as (s' & Hrun & Hslots & Harr & Hsp & _).
    eexists _, _, s'. split; [exact Hrun|].
    cbn [Name containerKinds containers pending].
    split; [done|]. split; [by rewrite lookup_insert_eq|].
    split; [by rewrite lookup_insert_eq|].
    exists (map (fun i => length (slots s0) + i)%nat (seq 0 (replica_count spec))).
    split.
    { rewrite Harr, lookup_app_r, Nat.sub_diag by lia. cbn [lookup list_lookup].
      by rewrite map_map. }
    split; [by rewrite length_map, length_seq|].
    intros i pc Hpc.
    rewrite list_lookup_fmap in Hpc.
    destruct (seq 0 (replica_count spec) !! i) as [i'|] eqn:Hi; [|done].
    apply lookup_seq in Hi as [-> Hlt]. cbn in Hpc. simplify_eq.
    rewrite <- replicaName_of_spec, <- aliases_of_spec.
    split.
    + rewrite Hslots, lookup_app_r by lia.
      replace (length (slots s0) + i - length (slots s0))%nat with i by lia.
      rewrite list_lookup_fmap, lookup_seq_lt by done. reflexivity.
    + eexists. split; [|reflexivity].
      rewrite Hsp. apply elem_of_app. right.
      apply (list_elem_of_fmap_2'
               (fun i => replica_task w spec (length (slots s0) + i) i) _ i).
      * apply elem_of_seq. lia.
      * reflexivity.
  - destruct (run_NewContainers env specs w s Hok)
      as (w' & wcs & s' & Hrun & Hnames).
    exists w', wcs, s'. split; [exact Hrun|].
    intros i j spi spj wci wcj Hij Hi Hj Hwi Hwj Hk.
    rewrite <- !kind_of_spec_spec in *.
    eexists _, _.
    split; [exact (Hnames i spi wci Hi Hwi)|].
    split; [exact (Hnames j spj wcj Hj Hwj)|].
    assert (Hlt : default 0 (containerKinds w !! kind_of_spec spi) +
                  count_kind (kind_of_spec spi) (take (S i) specs) <
                  default 0 (containerKinds w !! kind_of_spec spj) +
                  count_kind (kind_of_spec spj) (take (S j) specs)).
    { rewrite Hk.
      pose proof (count_kind_take_lt (kind_of_spec spj) specs i j spj Hij Hj eq_refl).
      lia. }
    split; [exact Hlt|].
    rewrite (Hnames i spi wci Hi Hwi), (Hnames j spj wcj Hj Hwj), Hk.
    intros Heq%group_name_inj. rewrite Hk in Hlt. lia.
Qed.

(** An instance: two alpine groups in a fresh world. *)
Lemma NewContainer_naming_witness :
  counters_ok sampleWorld 2 /\
  exists w' wc1 wc2 s',
    run sampleEnv (NewContainers sampleWorld [alpineSpec; alpineSpec])
        initialSys = (Done (w', [wc1; wc2]), s') /\
    Name wc1 = "T-alpine-1" /\ Name wc2 = "T-alpine-2" /\
    Name wc1 <> Name wc2.
Proof.
  assert (Hok : counters_ok sampleWorld 2).
  { intros kind. cbn. rewrite lookup_empty. cbn. unfold maxInt64. lia. }
  split; [exact Hok|].
  destruct (NewContainer_naming sampleEnv sampleWorld [alpineSpec; alpineSpec]
              initialSys Hok) as [_ (w' & wcs & s' & Hrun & Hn)].
  destruct wcs as [|wc1 [|wc2 [|? ?]]];
    try (vm_compute in Hrun; discriminate Hrun).
  exists w', wc1, wc2, s'. split; [exact Hrun|].
  destruct (Hn 0%nat 1%nat alpineSpec alpineSpec wc1 wc2)
    as (ci & cj & _ & _ & _ & Hne); try reflexivity; [lia|].
  vm_compute in Hrun.
  injection Hrun as _ <- <- _.
  repeat split; try reflexivity. exact Hne.
Defined.

Lemma NewContainer_Replicas_max w spec :
  NewContainer w spec = NewContainer w (with_Replicas (Z.max (Replicas spec) 1) spec).
Proof.
  unfold NewContainer. cbn [Replicas with_Replicas].
  replace (Z.max (Z.max (Replicas spec) 1) 1) with (Z.max (Replicas spec) 1) by lia.
  reflexivity.
Qed.

(** C10. A non-positive [Replicas] is treated exactly like 1: the run of
    [NewContainer] is the one of the same spec with [Replicas = 1]; the
    group has exactly one slot, and that member's address is the group
    name. *)
Theorem NewContainer_nonpositive_replicas env w spec s :
  Replicas spec <= 0 ->
  run env (NewContainer w spec) s =
    run env (NewContainer w (with_Replicas 1 spec)) s /\
  exists w' wc s' pc,
    run env (NewContainer w spec) s = (Done (w', wc), s') /\
    arrays s' !! pending wc = Some [Some pc] /\
    slots s' !! pc = Some (newPending (Name wc)).
Proof.
  intros Hle. split.
  { rewrite NewContainer_Replicas_max. by rewrite Z.max_r by lia. }
  destruct (run_NewContainer env w spec s)
    as (s' & Hrun & Hslots & Harr & _).
  unfold replica_count in *. rewrite Z.max_r in * by lia.
  change (Z.to_nat 1) with 1%nat in *. cbn in Hslots, Harr.
  eexists _, _, s', (length (slots s)). split; [exact Hrun|].
  cbn [pending Name]. split.
  - rewrite Harr, lookup_app_r, Nat.sub_diag by lia. cbn.
    by rewrite Nat.add_0_r.
  - rewrite Hslots, lookup_app_r, Nat.sub_diag by lia. reflexivity.
Qed.

(** An instance: a spec that leaves [Replicas] unset. *)
Lemma NewContainer_nonpositive_replicas_witness :
  Replicas alpineSpec <= 0 /\
  exists w' wc s' pc,
    run sampleEnv (NewContainer sampleWorld alpineSpec) initialSys =
      (Done (w', wc), s') /\
    arrays s' !! pending wc = Some [Some pc] /\
    slots s' !! pc = Some (newPending (Name wc)).
Proof.
  assert (H : Replicas alpineSpec <= 0) by (cbn; lia).
  split; [exact H|].
  exact (proj2 (NewContainer_nonpositive_replicas sampleEnv sampleWorld
                  alpineSpec initialSys H)).
Defined.

(** ** The timeline seen from its callers *)

Lemma quiet_refl s : quiet s s.
Proof.
  unfold quiet, yields. split_and!; try done. exists []. by rewrite app_nil_r.
Qed.

Lemma own_obs_app a b : own_obs (a ++ b) = own_obs a ++ own_obs b.
Proof. apply List.filter_app. Qed.

Lemma quiet_trans s1 s2 s3 : quiet s1 s2 -> quiet s2 s3 -> quiet s1 s3.
Proof.
  intros (A1&A2&A3&A4&A5&A6&A7&os1&A8&A9) (B1&B2&B3&B4&B5&B6&B7&os2&B8&B9).
  unfold quiet, yields. split_and!; try congruence; auto.
  exists (os1 ++ os2). split.
  - by rewrite B8, A8, app_assoc.
  - by rewrite own_obs_app, A9, B9.
Qed.

Lemma prefix_app s t : String.prefix s (s +:+ t) = true.
Proof.
  induction s as [|a s IH].
  - by destruct t.
  - change (String.prefix (String a s) (String a (s +:+ t)) = true).
    cbn [String.prefix]. by destruct (ascii_dec a a).
Qed.

Lemma event_message_line rest :
  is_event_message (OLog ("Event " +:+ rest)) = true.
Proof. apply prefix_app. Qed.

Lemma heap_alter_new {A} (h : list A) x f :
  alter f (length h) (h ++ [x]) = h ++ [f x].
Proof.
  apply list_eq. intros i. destruct (decide (i = length h)) as [->|Hne].
  - rewrite list_lookup_alter_eq, !lookup_app_r, Nat.sub_diag by lia. done.
  - rewrite list_lookup_alter_ne by done.
    destruct (decide (i < length h)%nat).
    + by rewrite !lookup_app_l by done.
    + rewrite !lookup_app_r by lia.
      destruct (i - length h)%nat as [|k] eqn:Hk; [lia|done].
Qed.

Lemma heap_lookup_new {A} (h : list A) x : (h ++ [x]) !! length h = Some x.
Proof. by rewrite lookup_app_r, Nat.sub_diag by lia. Qed.

Lemma file_lookup_update path f files d :
  file_lookup path files = Some d ->
  file_lookup path (file_update path f files) = Some (f d).
Proof.
  induction files as [|[p d'] files IH]; cbn; [done|].
  destruct (String.eqb_spec p path) as [->|Hne]; cbn.
  - rewrite String.eqb_refl. congruence.
  - intros H. apply String.eqb_neq in Hne. rewrite Hne. auto.
Qed.

Lemma file_lookup_app path files1 files2 :
  file_lookup path (files1 ++ files2) =
  match file_lookup path files1 with
  | Some d => Some d
  | None => file_lookup path files2
  end.
Proof.
  induction files1 as [|[p d] files1 IH]; cbn; [done|].
  by destruct (String.eqb p path).
Qed.

Lemma file_lookup_create path files :
  file_lookup path (file_create path files) =
  Some {| content := ""; closed := false |}.
Proof.
  unfold file_create. destruct (file_lookup path files) as [d|] eqn:Hl.
  - by rewrite (file_lookup_update _ _ _ d).
  - rewrite file_lookup_app, Hl. cbn. by rewrite String.eqb_refl.
Qed.

Lemma ev_live_app s s' x :
  evheap s' = evheap s ++ [x] ->
  forall ev, ev_live s ev -> ev_live s' ev.
Proof.
  intros Hh ev (e & f & He & Hf). exists e, f. split; [|done].
  rewrite Hh, lookup_app_l; [done|]. by eapply lookup_lt_Some.
Qed.

Lemma wf_log_app s s' x :
  evheap s' = evheap s ++ [x] ->
  rw (wlog s') = false ->
  events (wlog s') = events (wlog s) ++ [length (evheap s)] ->
  wf_log s -> wf_log s'.
Proof.
  intros Hh Hrw Hev [_ Hall]. split; [done|].
  rewrite Hev, Hh. apply Forall_app. split.
  - eapply Forall_impl; [exact Hall|]. intros ev [e He].
    exists e. rewrite lookup_app_l; [done|]. by eapply lookup_lt_Some.
  - constructor; [|constructor]. rewrite heap_lookup_new. by eexists.
Qed.

Lemma run_newEvent env d s :
  wf_log s ->
  exists r s',
    run env (newEvent d) s = (Done r, s') /\
    quiet s s' /\
    forall ev, r = Some ev ->
      exists e f, evheap s' !! ev = Some e /\ log e = Some f /\ file_open s' f.
Proof.
  intros Hwf. pose proof Hwf as [Hrw Hev].
  unfold newEvent. rewrite run_bind. cbn [trigger run handle].
  destruct (world (wlog s)) eqn:Hw; cbn [negb].
  2:{ exists None, s. split; [done|]. split; [apply quiet_refl|done]. }
  rewrite run_bind. cbn [trigger run handle].
  unfold newEvent_locked. cbn [run handle next_tick wlog]. rewrite Hrw.
  cbn. rewrite heap_alter_new, heap_lookup_new. cbn.
  set (path := path_join _ _). set (msg := String.app _ _).
  destruct (createFails env path); cbn.
  - eexists None, _. split; [reflexivity|]. split; [|done].
    unfold quiet, yields. cbn. split_and!; try done.
    + eapply wf_log_app; cbn; rewrite ?heap_alter_new; reflexivity.
    + eapply ev_live_app. cbn. rewrite !heap_alter_new. reflexivity.
    + exists []. by rewrite app_nil_r.
  - rewrite file_lookup_create. cbn.
    eexists (Some _), _. split; [reflexivity|]. split.
    + unfold quiet, yields. cbn. split_and!; try done.
      * eapply wf_log_app; cbn; rewrite ?heap_alter_new; reflexivity.
      * eapply ev_live_app. cbn. rewrite !heap_alter_new. reflexivity.
      * eexists [_]. split; [reflexivity|].
        unfold own_obs. cbn [List.filter]. subst msg.
        by rewrite event_message_line.
    + intros ev [= <-]. cbn. rewrite !heap_alter_new, heap_lookup_new.
      eexists _, _. split; [reflexivity|]. split; [reflexivity|].
      eexists. cbn. split.
      * erewrite file_lookup_update; [reflexivity|apply file_lookup_create].
      * reflexivity.
Qed.

Lemma ev_live_alter s s' g ev0 :
  evheap s' = alter g ev0 (evheap s) ->
  (forall e, log (g e) = log e) ->
  forall ev, ev_live s ev -> ev_live s' ev.
Proof.
  intros Hh Hg ev (e & f & He & Hf). unfold ev_live. rewrite Hh.
  destruct (decide (ev = ev0)) as [->|Hne].
  - exists (g e), f. rewrite list_lookup_alter_eq, He. by rewrite Hg.
  - exists e, f. by rewrite list_lookup_alter_ne.
Qed.

Lemma wf_log_alter s s' g ev0 :
  evheap s' = alter g ev0 (evheap s) ->
  wlog s' = wlog s ->
  wf_log s -> wf_log s'.
Proof.
  intros Hh Hl [Hrw Hall]. split; [by rewrite Hl|].
  rewrite Hl, Hh. eapply Forall_impl; [exact Hall|].
  intros ev [e He]. destruct (decide (ev = ev0)) as [->|Hne].
  - rewrite list_lookup_alter_eq, He. by eexists.
  - rewrite list_lookup_alter_ne by done. by eexists.
Qed.

Lemma quiet_same s s' os :
  slots s' = slots s -> arrays s' = arrays s -> spawned s' = spawned s ->
  wlog s' = wlog s -> evheap s' = evheap s ->
  trace s' = trace s ++ os -> own_obs os = [] ->
  quiet s s'.
Proof.
  intros H1 H2 H3 H4 H5 H6 H7. unfold quiet, yields.
  split_and!; try done; try (by rewrite H4).
  - unfold wf_log. by rewrite H4, H5.
  - unfold ev_live. intros ev. by rewrite H5.
  - by exists os.
Qed.

Lemma run_Event_finish env r s :
  (forall ev, r = Some ev -> ev_live s ev) ->
  exists s', run env (Event_finish r) s = (Done tt, s') /\ quiet s s'.
Proof.
  intros Hlive. destruct r as [ev|]; cbn [Event_finish].
  2:{ exists s. split; [done|apply quiet_refl]. }
  destruct (Hlive ev eq_refl) as (e & f & He & Hf).
  rewrite run_bind. cbn [trigger run handle].
  rewrite run_bind. cbn [trigger run handle].
  rewrite run_bind. cbn [trigger run handle evheap upd_evheap next_tick].
  cbn [Resp]. rewrite list_lookup_alter_eq, He.
  cbn [fmap option_fmap option_map log set_ev_finishTime].
  rewrite Hf. rewrite run_bind. cbn [trigger run handle].
  set (msg := String.app _ _).
  set (s1 := upd_evheap _ _).
  assert (Hq1 : quiet s s1).
  { unfold quiet, yields. subst s1. cbn. split_and!; try done.
    - eapply wf_log_alter; cbn; reflexivity.
    - eapply ev_live_alter; cbn; [reflexivity|]. by intros [].
    - exists []. by rewrite app_nil_r. }
  assert (Hfin : forall s2, quiet s s2 ->
    exists s', run env (Vis (ETLog [msg]) (fun _ => trigger (EClose f))) s2 = (Done tt, s')
               /\ quiet s s').
  { intros s2 Hq2. cbn. eexists. split; [reflexivity|].
    eapply quiet_trans; [exact Hq2|].
    eapply (quiet_same _ _ [_]); cbn; try reflexivity.
    unfold own_obs. cbn [List.filter]. subst msg.
    by rewrite event_message_line. }
  destruct (file_lookup f (evfiles s1)) as [dd|] eqn:Hfl.
  - destruct (closed dd).
    + cbn [run]. rewrite run_bind. apply Hfin, Hq1.
    + cbn [run]. rewrite run_bind.
      destruct (Hfin (upd_evfiles
        (file_update f (fun d => {| content := content d +:+ line msg; closed := false |})) s1))
        as (s' & Hr & Hq).
      { eapply quiet_trans; [exact Hq1|].
        eapply (quiet_same _ _ []); cbn; try reflexivity. by rewrite app_nil_r. }
      cbn [trigger bind] in *. eauto.
  - cbn [run]. rewrite run_bind. apply Hfin, Hq1.
Qed.

(** ** Waiting for a group *)

Lemma observe_add_obs o s : observe o s = add_obs [o] s.
Proof. reflexivity. Qed.

Lemma add_obs_nil s : add_obs [] s = s.
Proof. destruct s. unfold add_obs. cbn. by rewrite app_nil_r. Qed.

Lemma add_obs_app os1 os2 s : add_obs os2 (add_obs os1 s) = add_obs (os1 ++ os2) s.
Proof. unfold add_obs. cbn. by rewrite app_assoc. Qed.

(** The loop of [waitReady] receives from the members in order and stops
    at the first failure. *)
Lemma run_waitReady_loop env s pcs : forall s' i acc k,
  slots s' = slots s ->
  (k <= length pcs)%nat ->
  (forall j pc, (j < k)%nat -> pcs !! j = Some pc -> slot_resolved_ok s pc) ->
  (forall pc, pcs !! k = Some pc -> exists nm e, slot_failed s pc nm e) ->
  run env (waitReady_loop (Some <$> pcs) i acc) s' =
    (Done (store_handles i (slot_container s <$> take k pcs) acc,
           wait_error s pcs k),
     add_obs (ORecv <$> take (S k) pcs) s').
Proof.
  induction pcs as [|pc rest IH]; intros s' i acc k Hs Hk Hok Hfail.
  - assert (k = 0)%nat as -> by (cbn in Hk; lia). cbn. by rewrite add_obs_nil.
  - destruct k as [|k].
    + destruct (Hfail pc eq_refl) as (nm & e & p & Hp & Hr & Hn & He).
      cbn [fmap list_fmap waitReady_loop]. rewrite run_bind.
      cbn [trigger run handle]. rewrite Hs, Hp, Hr.
      cbn [run]. rewrite run_bind. cbn [trigger run handle slots observe Resp].
      rewrite Hs, Hp. cbn [run]. rewrite He. cbn [run].
      unfold wait_error. cbn. rewrite Hp, He. cbn. reflexivity.
    + destruct (Hok 0%nat pc) as (p & Hp & Hr & He); [lia|done|].
      cbn [fmap list_fmap waitReady_loop]. rewrite run_bind.
      cbn [trigger run handle]. rewrite Hs, Hp, Hr.
      cbn [run]. rewrite run_bind. cbn [trigger run handle slots observe Resp].
      rewrite Hs, Hp. cbn [run]. rewrite He.
      change (list_fmap _ _ Some rest) with (Some <$> rest).
      assert (Hk' : (k <= length rest)%nat) by (cbn in Hk; lia).
      assert (Hok' : forall j pc', (j < k)%nat -> rest !! j = Some pc' ->
                slot_resolved_ok s pc').
      { intros j pc' Hj Hl. apply (Hok (S j) pc'); [lia|done]. }
      assert (Hfail' : forall pc', rest !! k = Some pc' ->
                exists nm e, slot_failed s pc' nm e).
      { intros pc' Hl. by apply (Hfail pc'). }
      rewrite (IH (observe (ORecv pc) s') (S i) _ k Hs Hk' Hok' Hfail').
      rewrite observe_add_obs, add_obs_app. cbn [take fmap list_fmap app].
      unfold wait_error at 2. cbn [lookup list_lookup].
      unfold slot_container at 2. rewrite Hp. reflexivity.
Qed.

Lemma store_handles_app hs : forall pre m,
  (length hs <= m)%nat ->
  store_handles (length pre) hs (pre ++ replicate m None) =
  pre ++ hs ++ replicate (m - length hs) None.
Proof.
  induction hs as [|h hs IH]; intros pre m Hm; cbn [store_handles length app].
  - by rewrite Nat.sub_0_r.
  - cbn in Hm. destruct m as [|m]; [lia|].
    rewrite insert_app_r_alt, Nat.sub_diag by lia. cbn [replicate insert list_insert].
    replace (pre ++ h :: replicate m None) with ((pre ++ [h]) ++ replicate m None)
      by (by rewrite <- app_assoc).
    replace (S (length pre)) with (length (pre ++ [h]))
      by (rewrite length_app; cbn; lia).
    rewrite IH by lia. rewrite <- app_assoc. reflexivity.
Qed.

(** [waitReady] on a group whose first [k] members resolved successfully
    and whose member [k], if there is one, failed. *)
Lemma run_waitReady env wc s0 s pcs k :
  slots s = slots s0 ->
  arrays s !! pending wc = Some (Some <$> pcs) ->
  (k <= length pcs)%nat ->
  (forall j pc, (j < k)%nat -> pcs !! j = Some pc -> slot_resolved_ok s0 pc) ->
  (forall pc, pcs !! k = Some pc -> exists nm e, slot_failed s0 pc nm e) ->
  run env (waitReady wc) s =
    (Done (handles_upto s0 pcs k, wait_error s0 pcs k),
     add_obs (ORecv <$> take (S k) pcs) s).
Proof.
  intros Hs Ha Hk Hok Hfail. unfold waitReady. rewrite run_bind.
  cbn [trigger run handle Resp]. rewrite Ha. cbn [run].
  rewrite (run_waitReady_loop env s0 pcs s 0 _ k Hs Hk Hok Hfail).
  do 2 f_equal. f_equal. rewrite length_fmap.
  pose proof (store_handles_app (slot_container s0 <$> take k pcs) []
                (length pcs)) as H.
  cbn [length app] in H. rewrite H.
  - unfold handles_upto. by rewrite length_fmap, length_take, Nat.min_l by lia.
  - rewrite length_fmap, length_take. lia.
Qed.

Lemma own_obs_recv pcs : own_obs (ORecv <$> pcs) = ORecv <$> pcs.
Proof. induction pcs as [|pc pcs IH]; cbn; [done|]. by f_equal. Qed.

Lemma quiet_live s s' r :
  quiet s s' ->
  (forall ev : nat, r = Some ev -> ev_live s ev) ->
  forall ev : nat, r = Some ev -> ev_live s' ev.
Proof. intros (_&_&_&_&_&_&Hl&_) H ev Hev. auto. Qed.

Lemma quiet_add_obs s os : own_obs os = [] -> quiet s (add_obs os s).
Proof. intros H. by eapply (quiet_same _ _ os). Qed.

Lemma ev_live_add_obs s os ev : ev_live s ev -> ev_live (add_obs os s) ev.
Proof. done. Qed.

Lemma wait_error_failed s pcs k pc nm e :
  pcs !! k = Some pc -> slot_failed s pc nm e ->
  wait_error s pcs k = Some (nm +:+ ": " +:+ e).
Proof.
  intros Hk (p & Hp & _ & Hn & He). unfold wait_error.
  rewrite Hk, Hp, He, Hn. reflexivity.
Qed.

Lemma wait_error_all s pcs : wait_error s pcs (length pcs) = None.
Proof.
  unfold wait_error. by rewrite lookup_ge_None_2.
Qed.

Lemma handles_upto_all s pcs :
  handles_upto s pcs (length pcs) = slot_container s <$> pcs.
Proof.
  unfold handles_upto. rewrite firstn_all, Nat.sub_diag. cbn.
  by rewrite app_nil_r.
Qed.

(** C2. The members of a group are waited for in member order. When the
    first [k] members resolved successfully and member [k] resolved with
    an error, [waitReady] receives from exactly the members up to [k] and
    returns that member's name with its error, and [mustReady] reports a
    fatal failure that names the group and the failed member and ends the
    goroutine: no later member's slot is received from, whatever its state.
    When every member resolved successfully, all handles are returned in
    member order. *)
Theorem mustReady_fail_fast env wc s pcs k :
  wf_log s ->
  arrays s !! pending wc = Some (Some <$> pcs) ->
  (k <= length pcs)%nat ->
  (forall j pc, (j < k)%nat -> pcs !! j = Some pc -> slot_resolved_ok s pc) ->
  (forall pc, pcs !! k = Some pc -> exists nm e, slot_failed s pc nm e) ->
  run env (waitReady wc) s =
    (Done (handles_upto s pcs k, wait_error s pcs k),
     add_obs (ORecv <$> take (S k) pcs) s) /\
  (forall pc nm e,
     pcs !! k = Some pc -> slot_failed s pc nm e ->
     wait_error s pcs k = Some (nm +:+ ": " +:+ e) /\
     exists s',
       run env (mustReady wc) s = (Exited, s') /\
       own_obs (obs_since (length (trace s)) s') =
         (ORecv <$> take (S k) pcs) ++
         [OFatal ("Container " +:+ Name wc +:+ " failed to create: " +:+
                  nm +:+ ": " +:+ e)]) /\
  (k = length pcs ->
     wait_error s pcs k = None /\
     handles_upto s pcs k = slot_container s <$> pcs /\
     exists s',
       run env (mustReady wc) s =
         (Done (ready_group wc, slot_container s <$> pcs), s') /\
       own_obs (obs_since (length (trace s)) s') = ORecv <$> pcs).
Proof.
  intros Hwf Ha Hk Hok Hfail.
  split; [by apply (run_waitReady env wc s s pcs k)|].
  (* the event that brackets the wait *)
  assert (Hev : exists r s1,
    run env (if negb (isReady wc) then newEvent (Name wc +:+ ": await")
             else Ret None) s = (Done r, s1) /\ quiet s s1 /\
    forall ev, r = Some ev -> ev_live s1 ev).
  { destruct (isReady wc); cbn [negb].
    - exists None, s. split; [done|]. split; [apply quiet_refl|done].
    - destruct (run_newEvent env (Name wc +:+ ": await") s Hwf)
        as (r & s1 & Hr & Hq & Hl).
      exists r, s1. split; [done|]. split; [done|].
      intros ev Hev. destruct (Hl ev Hev) as (e & f & ? & ? & _).
      by exists e, f. }
  destruct Hev as (r & s1 & Hr1 & Hq1 & Hl1).
  pose proof Hq1 as (Hs1 & Ha1 & _ & _ & _ & _ & _ & os1 & Ht1 & Ho1).
  assert (Hwait := run_waitReady env wc s s1 pcs k Hs1
                     ltac:(by rewrite Ha1) Hk Hok Hfail).
  set (s2 := add_obs (ORecv <$> take (S k) pcs) s1) in *.
  split.
  - intros pc nm e Hpc Hf.
    pose proof (wait_error_failed s pcs k pc nm e Hpc Hf) as Herr.
    split; [exact Herr|].
    set (msg := "Container " +:+ Name wc +:+ " failed to create: " +:+
                nm +:+ ": " +:+ e).
    destruct (run_Event_finish env r (observe (OFatal msg) s2))
      as (s4 & Hr4 & Hq4).
    { intros ev Hev. by apply Hl1. }
    exists s4. split.
    + unfold mustReady. rewrite run_bind, Hr1. rewrite run_bind, Hwait.
      cbn [snd]. rewrite Herr. rewrite run_bind. cbn [trigger run handle].
      rewrite run_bind. fold msg. rewrite Hr4. reflexivity.
    + destruct Hq4 as (_&_&_&_&_&_&_& os4 & Ht4 & Ho4).
      unfold obs_since. rewrite Ht4. cbn [trace observe s2 add_obs].
      rewrite Ht1, <- !app_assoc, drop_app_length.
      rewrite !own_obs_app, Ho1, Ho4, own_obs_recv. cbn.
      by rewrite ?app_nil_r.
  - intros ->.
    split; [apply wait_error_all|]. split; [apply handles_upto_all|].
    destruct (run_Event_finish env r s2) as (s4 & Hr4 & Hq4).
    { intros ev Hev. by apply Hl1. }
    exists s4. split.
    + unfold mustReady. rewrite run_bind, Hr1. rewrite run_bind, Hwait.
      cbn [snd fst]. rewrite wait_error_all. rewrite run_bind, Hr4.
      cbn [run]. by rewrite handles_upto_all.
    + destruct Hq4 as (_&_&_&_&_&_&_& os4 & Ht4 & Ho4).
      unfold obs_since. rewrite Ht4. cbn [trace s2 add_obs].
      rewrite Ht1, <- !app_assoc, drop_app_length.
      rewrite !own_obs_app, Ho1, Ho4, own_obs_recv.
      rewrite firstn_all2 by lia. cbn. by rewrite ?app_nil_r.
Qed.

Example sampleSetup_result :
  fst (run sampleEnv sampleSetup initialSys) = Done (sampleRegistered, sampleGroup).
Proof. vm_compute. reflexivity. Qed.

(** An instance: the second of three replicas failed. *)
Lemma mustReady_fail_fast_witness :
  wf_log sampleState /\
  arrays sampleState !! pending sampleGroup = Some (Some <$> [0; 1; 2]%nat) /\
  slot_resolved_ok sampleState 0%nat /\
  slot_failed sampleState 1%nat "T-alpine-1-2" "boom" /\
  exists s',
    run sampleEnv (mustReady sampleGroup) sampleState = (Exited, s') /\
    own_obs (obs_since (length (trace sampleState)) s') =
      [ORecv 0%nat; ORecv 1%nat;
       OFatal "Container T-alpine-1 failed to create: T-alpine-1-2: boom"].
Proof.
  assert (Hwf : wf_log sampleState).
  { split; [reflexivity|]. repeat constructor; vm_compute; eauto. }
  assert (Ha : arrays sampleState !! pending sampleGroup =
               Some (Some <$> [0; 1; 2]%nat)) by reflexivity.
  assert (H0 : slot_resolved_ok sampleState 0%nat).
  { eexists. split; [reflexivity|]. split; reflexivity. }
  assert (H1 : slot_failed sampleState 1%nat "T-alpine-1-2" "boom").
  { eexists. split; [reflexivity|]. repeat split; reflexivity. }
  split; [exact Hwf|]. split; [exact Ha|]. split; [exact H0|].
  split; [exact H1|].
  destruct (mustReady_fail_fast sampleEnv sampleGroup sampleState
              [0; 1; 2]%nat 1 Hwf Ha) as (_ & Hfail & _).
  - cbn. lia.
  - intros [|j] pc Hj Hpc; [|lia]. cbn in Hpc. by simplify_eq.
  - intros pc Hpc. cbn in Hpc. simplify_eq. eauto.
  - destruct (Hfail 1%nat "T-alpine-1-2" "boom" eq_refl H1) as (_ & s' & Hr & Ho).
    exists s'. split; [exact Hr|exact Ho].
Defined.

(** ** Provisioning once, reading many times *)

Lemma creates_app a b : creates (a ++ b) = creates a ++ creates b.
Proof. unfold creates. apply omap_app. Qed.

Lemma creates_quiet os : own_obs os = [] -> creates os = [].
Proof.
  induction os as [|o os IH]; [done|].
  unfold own_obs. cbn [List.filter].
  destruct o; cbn; try done.
  destruct (String.prefix "Event " msg); cbn; [exact IH|done].
Qed.

Lemma creates_recv pcs : creates (ORecv <$> pcs) = [].
Proof. induction pcs; cbn; done. Qed.

(** One provisioning task: one request to the provider, one write of its
    own slot, nothing else. *)
Lemma run_createFn env kind nm pc req s p :
  wf_log s ->
  slots s !! pc = Some p -> pc_ready p = false ->
  exists s',
    run env (createFn kind nm pc req) s = (Done tt, s') /\
    wf_log s' /\
    slots s' = alter (resolved env req) pc (slots s) /\
    arrays s' = arrays s /\ spawned s' = spawned s /\
    exists os, trace s' = trace s ++ os /\ creates os = [req].
Proof.
  intros Hwf Hp Hr. unfold createFn.
  destruct (run_newEvent env ("World: add " +:+ kind +:+ " container " +:+ nm) s Hwf)
    as (r & s1 & Hr1 & Hq1 & Hl1).
  rewrite run_bind, Hr1.
  pose proof Hq1 as (Hs1 & Ha1 & Hsp1 & _ & _ & Hwf1 & _ & os1 & Ht1 & Ho1).
  rewrite run_bind. cbn [trigger run handle Resp].
  rewrite run_bind. cbn [trigger run handle Resp].
  rewrite run_bind. cbn [trigger run handle Resp].
  rewrite run_bind. cbn [trigger run handle Resp].
  rewrite run_bind. cbn [trigger run handle Resp slots upd_slots observe].
  rewrite !list_lookup_alter_eq, Hs1, Hp.
  cbn [fmap option_fmap option_map set_pc_err set_pc_container pc_ready].
  rewrite Hr. cbn [run].
  set (s2 := upd_slots _ _).
  destruct (run_Event_finish env r s2) as (s3 & Hr3 & Hq3).
  { intros ev Hev. destruct (Hl1 ev Hev) as (e & f & ? & ? & _). by exists e, f. }
  exists s3. split; [exact Hr3|].
  pose proof Hq3 as (Hs3 & Ha3 & Hsp3 & _ & _ & Hwf3 & _ & os3 & Ht3 & Ho3).
  split.
  { apply Hwf3. destruct (Hwf1 Hwf) as [? ?]. by split. }
  split.
  { rewrite Hs3. subst s2. cbn [slots upd_slots observe]. rewrite Hs1.
    apply list_eq. intros j. destruct (decide (j = pc)) as [->|Hne].
    - rewrite !list_lookup_alter_eq, Hp. cbn. reflexivity.
    - by rewrite !list_lookup_alter_ne by done. }
  split; [by rewrite Ha3|]. split; [by rewrite Hsp3|].
  exists (os1 ++ [OCreate req; OCleanup (fst (provision env req))] ++ os3).
  split.
  - rewrite Ht3. subst s2. cbn [trace upd_slots observe]. rewrite Ht1.
    by rewrite <- !app_assoc.
  - rewrite !creates_app, (creates_quiet os1 Ho1), (creates_quiet os3 Ho3).
    reflexivity.
Qed.

Lemma foldl_resolve_other env ts : forall sl pc,
  pc ∉ task_slot <$> ts ->
  foldl (resolve_slot env) sl ts !! pc = sl !! pc.
Proof.
  induction ts as [|t ts IH]; intros sl pc Hnin; [done|].
  cbn [foldl]. rewrite IH.
  - unfold resolve_slot. apply list_lookup_alter_ne.
    intros <-. apply Hnin. cbn. left.
  - intros Hin. apply Hnin. cbn. by right.
Qed.

Lemma foldl_resolve_lookup env ts : forall sl t,
  NoDup (task_slot <$> ts) -> t ∈ ts ->
  foldl (resolve_slot env) sl ts !! task_slot t =
  resolved env (task_request t) <$> sl !! task_slot t.
Proof.
  induction ts as [|t0 ts IH]; intros sl t Hnd Hin; [by inversion Hin|].
  cbn in Hnd. apply NoDup_cons in Hnd as [Hnin Hnd]. cbn [foldl].
  apply elem_of_cons in Hin as [->|Hin].
  - rewrite foldl_resolve_other by done.
    unfold resolve_slot. by rewrite list_lookup_alter_eq.
  - rewrite IH by done. unfold resolve_slot.
    rewrite list_lookup_alter_ne; [done|].
    intros Heq. apply Hnin. rewrite Heq. by apply list_elem_of_fmap_2.
Qed.


(** A list of provisioning tasks run one after another: each makes its one
    request and resolves its own slot. *)
Lemma run_tasks env ts : forall s,
  wf_log s ->
  NoDup (task_slot <$> ts) ->
  (forall t, t ∈ ts ->
     exists p, slots s !! task_slot t = Some p /\ pc_ready p = false) ->
  exists s',
    run env (for_each ts task_body) s = (Done tt, s') /\
    wf_log s' /\
    slots s' = foldl (resolve_slot env) (slots s) ts /\
    arrays s' = arrays s /\ spawned s' = spawned s /\
    exists os, trace s' = trace s ++ os /\ creates os = task_request <$> ts.
Proof.
  induction ts as [|t ts IH]; intros s Hwf Hnd Hun.
  - exists s. split; [done|]. split; [done|]. split; [done|].
    split; [done|]. split; [done|]. exists []. by rewrite app_nil_r.
  - cbn in Hnd. apply NoDup_cons in Hnd as [Hnin Hnd].
    destruct (Hun t) as (p & Hp & Hr); [left|].
    destruct t as [kind nm pc req]. cbn [task_slot] in *.
    destruct (run_createFn env kind nm pc req s p Hwf Hp Hr)
      as (s1 & Hr1 & Hwf1 & Hs1 & Ha1 & Hsp1 & os1 & Ht1 & Hc1).
    destruct (IH s1 Hwf1 Hnd) as (s2 & Hr2 & Hwf2 & Hs2 & Ha2 & Hsp2 & os2 & Ht2 & Hc2).
    { intros t Hin. destruct (Hun t) as (p' & Hp' & Hr'); [by right|].
      exists p'. split; [|done]. rewrite Hs1, list_lookup_alter_ne; [done|].
      intros Heq. apply Hnin. rewrite Heq. by apply list_elem_of_fmap_2. }
    exists s2. rewrite run_for_each_cons. cbn [task_body]. rewrite Hr1.
    split; [exact Hr2|]. split; [done|].
    split; [by rewrite Hs2, Hs1|]. split; [congruence|]. split; [congruence|].
    exists (os1 ++ os2). split.
    + by rewrite Ht2, Ht1, app_assoc.
    + rewrite creates_app, Hc1, Hc2. reflexivity.
Qed.

(** Among members that have all resolved there is a first failure, or
    none. *)
Lemma first_failure_exists s pcs :
  (forall pc, pc ∈ pcs -> exists p, slots s !! pc = Some p /\ pc_ready p = true) ->
  exists k, (k <= length pcs)%nat /\
    (forall j pc, (j < k)%nat -> pcs !! j = Some pc -> slot_resolved_ok s pc) /\
    (forall pc, pcs !! k = Some pc -> exists nm e, slot_failed s pc nm e).
Proof.
  induction pcs as [|pc pcs IH]; intros Hall.
  - exists 0%nat. split; [done|]. split; [intros; lia|done].
  - destruct (Hall pc) as (p & Hp & Hr); [left|].
    destruct (pc_err p) as [e|] eqn:He.
    + exists 0%nat. split; [cbn; lia|]. split; [intros; lia|].
      intros pc' [= <-]. exists (pc_name p), e, p. done.
    + destruct IH as (k & Hk & Hok & Hf).
      { intros pc' Hin. apply Hall. by right. }
      exists (S k). split; [cbn; lia|]. split.
      * intros [|j] pc' Hj Hl; cbn in Hl; simplify_eq.
        -- by exists p.
        -- apply (Hok j); [lia|done].
      * intros pc' Hl. by apply Hf.
Qed.

(** Reading a group again and again. *)
Lemma run_waitReady_times env wc s0 pcs k :
  (k <= length pcs)%nat ->
  (forall j pc, (j < k)%nat -> pcs !! j = Some pc -> slot_resolved_ok s0 pc) ->
  (forall pc, pcs !! k = Some pc -> exists nm e, slot_failed s0 pc nm e) ->
  forall n s,
    slots s = slots s0 ->
    arrays s !! pending wc = Some (Some <$> pcs) ->
    exists s',
      run env (waitReady_times n wc) s =
        (Done (replicate n (handles_upto s0 pcs k, wait_error s0 pcs k)), s') /\
      slots s' = slots s /\ arrays s' = arrays s /\ spawned s' = spawned s /\
      exists os, trace s' = trace s ++ os /\ creates os = [].
Proof.
  intros Hk Hok Hfail. induction n as [|n IH]; intros s Hs Ha.
  - exists s. split; [done|]. split_and!; try done. exists []. by rewrite app_nil_r.
  - cbn [waitReady_times]. rewrite run_bind.
    rewrite (run_waitReady env wc s0 s pcs k Hs Ha Hk Hok Hfail).
    destruct (IH (add_obs (ORecv <$> take (S k) pcs) s) Hs Ha)
      as (s' & Hr & Hs' & Ha' & Hsp' & os & Ht & Hc).
    rewrite run_bind, Hr. cbn [run replicate].
    exists s'. split; [done|]. split_and!; try done.
    exists ((ORecv <$> take (S k) pcs) ++ os). split.
    + by rewrite Ht, app_assoc.
    + by rewrite creates_app, creates_recv, Hc.
Qed.

(** C9. Reading a resolved group is idempotent and provisions nothing.
    On a group whose first [k] members resolved successfully and whose
    member [k], if any, failed, [n] reads in a row all return the same
    stored handles and error, and they leave the slots, the scheduler and
    the provider untouched. And from [NewContainer] on: one task per
    replica is created, each task makes one request to the provider and
    resolves its own slot, and however many reads follow, the requests
    made are exactly the replicas' requests, one each. *)
Theorem slot_read_idempotent env wc s pcs k n :
  arrays s !! pending wc = Some (Some <$> pcs) ->
  (k <= length pcs)%nat ->
  (forall j pc, (j < k)%nat -> pcs !! j = Some pc -> slot_resolved_ok s pc) ->
  (forall pc, pcs !! k = Some pc -> exists nm e, slot_failed s pc nm e) ->
  (exists s',
     run env (waitReady_times n wc) s =
       (Done (replicate n (handles_upto s pcs k, wait_error s pcs k)), s') /\
     slots s' = slots s /\ spawned s' = spawned s /\
     creates (obs_since (length (trace s)) s') = []) /\
  (forall w spec s0,
     wf_log s0 -> spawned s0 = [] ->
     exists w' wc' s1 s2 r s3,
       run env (NewContainer w spec) s0 = (Done (w', wc'), s1) /\
       run_spawned env s1 = (Done tt, s2) /\
       run env (waitReady_times n wc') s2 = (Done (replicate n r), s3) /\
       slots s3 = slots s2 /\ spawned s3 = [] /\
       creates (obs_since (length (trace s0)) s3) =
         (fun i => task_request (replica_task w spec (length (slots s0) + i) i))
           <$> seq 0 (replica_count spec)).
Proof.
  intros Ha Hk Hok Hfail. split.
  - destruct (run_waitReady_times env wc s pcs k Hk Hok Hfail n s eq_refl Ha)
      as (s' & Hr & Hs & _ & Hsp & os & Ht & Hc).
    exists s'. split_and!; try done.
    unfold obs_since. by rewrite Ht, drop_app_length.
  - clear. intros w spec s0 Hwf Hsp0.
    destruct (run_NewContainer env w spec s0)
      as (s1 & Hrun & Hslots & Harr & Hspawn & Hwl & Hheap & _ & _ & _ & _ & Htr).
    rewrite Hsp0 in Hspawn. cbn [app] in Hspawn.
    set (base := length (slots s0)) in *.
    set (m := replica_count spec) in *.
    set (ts := map (fun i => replica_task w spec (base + i) i) (seq 0 m)) in *.
    set (pcs := (fun i => base + i)%nat <$> seq 0 m).
    assert (Hts : task_slot <$> ts = pcs).
    { subst ts pcs. change (map ?f ?l) with (f <$> l).
      rewrite <- list_fmap_compose. reflexivity. }
    assert (Hnd : NoDup (task_slot <$> ts)).
    { rewrite Hts. subst pcs. apply NoDup_fmap_2; [|apply NoDup_seq].
      intros ? ? ?. lia. }
    assert (Hwf1 : wf_log (upd_spawned (fun _ => []) s1)).
    { destruct Hwf as [Hrw Hall]. split; cbn [wlog evheap upd_spawned].
      - by rewrite Hwl.
      - by rewrite Hwl, Hheap. }
    destruct (run_tasks env ts (upd_spawned (fun _ => []) s1) Hwf1 Hnd)
      as (s2 & Hr2 & Hwf2 & Hs2 & Ha2 & Hsp2 & os2 & Ht2 & Hc2).
    { intros t Hin. subst ts. change (map ?f ?l) with (f <$> l) in Hin.
      apply list_elem_of_fmap in Hin as (i & -> & Hi%elem_of_seq).
      cbn [task_slot replica_task upd_spawned slots].
      exists (newPending (replicaName_of (group_name w spec)
                            (Z.max (Replicas spec) 1) i)).
      split; [|reflexivity].
      rewrite Hslots, lookup_app_r by (subst base; lia).
      replace (base + i - length (slots s0))%nat with i by (subst base; lia).
      change (map ?f ?l) with (f <$> l).
      rewrite list_lookup_fmap, lookup_seq_lt by lia. reflexivity. }
    cbn [slots arrays spawned trace upd_spawned] in Hs2, Ha2, Hsp2, Ht2.
    assert (Harr2 : arrays s2 !! length (arrays s0) = Some (Some <$> pcs)).
    { rewrite Ha2, Harr, lookup_app_r, Nat.sub_diag by lia. cbn.
      subst pcs. change (map ?f ?l) with (f <$> l).
      by rewrite <- list_fmap_compose. }
    destruct (first_failure_exists s2 pcs) as (k & Hk & Hok & Hfail).
    { intros pc Hin. rewrite <- Hts in Hin.
      apply list_elem_of_fmap in Hin as (t & -> & Hin).
      rewrite Hs2, (foldl_resolve_lookup env ts _ t Hnd Hin).
      subst ts. change (map ?f ?l) with (f <$> l) in Hin.
      apply list_elem_of_fmap in Hin as (i & -> & Hi%elem_of_seq).
      cbn [task_slot replica_task].
      rewrite Hslots, lookup_app_r by (subst base; lia).
      replace (base + i - length (slots s0))%nat with i by (subst base; lia).
      change (map ?f ?l) with (f <$> l).
      rewrite list_lookup_fmap, lookup_seq_lt by lia. cbn.
      eexists. split; reflexivity. }
    set (wc' := {| Name := group_name w spec |}) in *.
    destruct (run_waitReady_times env wc' s2 pcs k Hk Hok Hfail n s2 eq_refl Harr2)
      as (s3 & Hr3 & Hs3 & _ & Hsp3 & os3 & Ht3 & Hc3).
    eexists _, wc', s1, s2, _, s3.
    split; [exact Hrun|]. split.
    { unfold run_spawned. rewrite Hspawn. exact Hr2. }
    split; [exact Hr3|]. split; [exact Hs3|]. split; [congruence|].
    unfold obs_since. rewrite Ht3, Ht2, Htr, <- app_assoc, drop_app_length.
    rewrite creates_app, Hc2, Hc3, app_nil_r. subst ts.
    change (map ?f ?l) with (f <$> l). by rewrite <- list_fmap_compose.
Qed.

(** An instance: three reads of the sample group, whose second replica
    failed. *)
Lemma slot_read_idempotent_witness :
  arrays sampleState !! pending sampleGroup = Some (Some <$> [0; 1; 2]%nat) /\
  slot_resolved_ok sampleState 0%nat /\
  slot_failed sampleState 1%nat "T-alpine-1-2" "boom" /\
  exists s',
    run sampleEnv (waitReady_times 3 sampleGroup) sampleState =
      (Done (replicate 3 ([Some 12%nat; None; None],
                          Some "T-alpine-1-2: boom")), s') /\
    slots s' = slots sampleState.
Proof.
  assert (Ha : arrays sampleState !! pending sampleGroup =
               Some (Some <$> [0; 1; 2]%nat)) by reflexivity.
  assert (H0 : slot_resolved_ok sampleState 0%nat).
  { eexists. split; [reflexivity|]. split; reflexivity. }
  assert (H1 : slot_failed sampleState 1%nat "T-alpine-1-2" "boom").
  { eexists. split; [reflexivity|]. repeat split; reflexivity. }
  split; [exact Ha|]. split; [exact H0|]. split; [exact H1|].
  destruct (slot_read_idempotent sampleEnv sampleGroup sampleState
              [0; 1; 2]%nat 1 3 Ha) as ((s' & Hr & Hs & _) & _).
  - cbn. lia.
  - intros [|j] pc Hj Hpc; [|lia]. cbn in Hpc. by simplify_eq.
  - intros pc Hpc. cbn in Hpc. simplify_eq. eauto.
  - exists s'. split; [exact Hr|exact Hs].
Defined.

(** ** Awaited creation *)

(** C1 (the code departs from the claim). [NewContainer] never looks at
    [Awaited]: the program is the same for either value. With [Awaited]
    set it still hands every provisioning body to the scheduler, so when it
    returns every slot of the group is unresolved and the provider has not
    been called on the caller's goroutine. *)
Theorem NewContainer_ignores_Awaited env w spec s b :
  NewContainer w (with_Awaited b spec) = NewContainer w spec /\
  exists w' wc s',
    run env (NewContainer w (with_Awaited true spec)) s = (Done (w', wc), s') /\
    (exists pcs,
       arrays s' !! pending wc = Some (Some <$> pcs) /\
       length pcs = replica_count spec /\
       forall pc, pc ∈ pcs ->
         exists p, slots s' !! pc = Some p /\ pc_ready p = false) /\
    creates (obs_since (length (trace s)) s') = [] /\
    length (spawned s') = (length (spawned s) + replica_count spec)%nat.
Proof.
  split; [reflexivity|].
  change (NewContainer w (with_Awaited true spec)) with (NewContainer w spec).
  destruct (run_NewContainer env w spec s)
    as (s' & Hrun & Hslots & Harr & Hsp & _ & _ & _ & _ & _ & _ & Htr).
  eexists _, _, s'. split; [exact Hrun|]. cbn [pending]. split.
  - exists ((fun i => length (slots s) + i)%nat <$> seq 0 (replica_count spec)).
    split.
    { rewrite Harr, lookup_app_r, Nat.sub_diag by lia. cbn.
      change (map ?f ?l) with (f <$> l). by rewrite <- list_fmap_compose. }
    split; [by rewrite length_fmap, length_seq|].
    intros pc (i & -> & Hi%elem_of_seq)%list_elem_of_fmap.
    eexists. split.
    + rewrite Hslots, lookup_app_r by lia.
      replace (length (slots s) + i - length (slots s))%nat with i by lia.
      change (map ?f ?l) with (f <$> l).
      rewrite list_lookup_fmap, lookup_seq_lt by lia. reflexivity.
    + reflexivity.
  - split.
    + unfold obs_since. by rewrite Htr, drop_all.
    + rewrite Hsp, length_app, length_map, length_seq. reflexivity.
Qed.

(** The same at a concrete input: three replicas requested with [Awaited]
    set. When [NewContainer] returns, no slot is resolved, the provider has
    not been called, and three tasks wait for the scheduler. *)
Example NewContainer_awaited_pending :
  Awaited awaitedSpec = true /\
  exists w' wc s',
    run sampleEnv (NewContainer sampleWorld awaitedSpec) initialSys =
      (Done (w', wc), s') /\
    slots s' = [newPending "T-alpine-1-1"; newPending "T-alpine-1-2";
                newPending "T-alpine-1-3"] /\
    trace s' = [] /\
    length (spawned s') = 3%nat.
Proof.
  split; [reflexivity|]. eexists _, _, _. split; [vm_compute; reflexivity|].
  repeat split.
Qed.

(** ** Teardown *)

Lemma yields_trans s1 s2 s3 a b :
  yields s1 s2 a -> yields s2 s3 b -> yields s1 s3 (a ++ b).
Proof.
  intros (A1&A2&A3&A4&A5&A6&A7&os1&A8&A9) (B1&B2&B3&B4&B5&B6&B7&os2&B8&B9).
  unfold yields. split_and!; try congruence; auto.
  exists (os1 ++ os2). split.
  - by rewrite B8, A8, app_assoc.
  - by rewrite own_obs_app, A9, B9.
Qed.

Lemma yields_same s s' os :
  slots s' = slots s -> arrays s' = arrays s -> spawned s' = spawned s ->
  wlog s' = wlog s -> evheap s' = evheap s ->
  trace s' = trace s ++ os ->
  yields s s' (own_obs os).
Proof.
  intros H1 H2 H3 H4 H5 H6. unfold yields.
  split_and!; try done; try (by rewrite H4).
  - unfold wf_log. by rewrite H4, H5.
  - unfold ev_live. intros ev. by rewrite H5.
  - by exists os.
Qed.

Lemma yields_quiet_l s1 s2 s3 b :
  quiet s1 s2 -> yields s2 s3 b -> yields s1 s3 b.
Proof. intros H1 H2. apply (yields_trans s1 s2 s3 [] b H1 H2). Qed.

Lemma yields_quiet_r s1 s2 s3 a :
  yields s1 s2 a -> quiet s2 s3 -> yields s1 s3 a.
Proof.
  intros H1 H2. rewrite <- (app_nil_r a). apply (yields_trans s1 s2 s3 a [] H1 H2).
Qed.


Lemma yields_observe s o :
  is_event_message o = false -> yields s (observe o s) [o].
Proof.
  intros Ho. replace [o] with (own_obs [o]).
  - by apply yields_same.
  - unfold own_obs. cbn. by rewrite Ho.
Qed.

Lemma yields_refl s : yields s s [].
Proof. apply quiet_refl. Qed.


Lemma yields_wf s s' obs : yields s s' obs -> wf_log s -> wf_log s'.
Proof. intros (_&_&_&_&_&H&_). exact H. Qed.





Lemma only_combined_refl s : only_combined s s.
Proof. by unfold only_combined. Qed.

Lemma only_combined_trans s1 s2 s3 :
  only_combined s1 s2 -> only_combined s2 s3 -> only_combined s1 s3.
Proof.
  intros (?&?&?&?&?&?&?) (?&?&?&?&?&?&?). unfold only_combined.
  split_and!; congruence.
Qed.

Lemma only_combined_quiet s s' : only_combined s s' -> quiet s s'.
Proof.
  intros (H1&H2&H3&H4&H5&H6&H7). apply (quiet_same s s' []); try done.
  by rewrite app_nil_r.
Qed.

Lemma handle_WriteCombined env d s :
  exists r s', handle env (EWriteCombined d) s = Ok r s' /\ only_combined s s'.
Proof.
  cbn [handle]. destruct (combinedClosed s).
  - eexists _, s. split; [reflexivity|apply only_combined_refl].
  - eexists _, _. split; [reflexivity|]. by unfold only_combined.
Qed.

Lemma run_WriteCombined env d s :
  exists r s', run env (trigger (EWriteCombined d)) s = (Done r, s') /\
               only_combined s s'.
Proof.
  destruct (handle_WriteCombined env d s) as (r & s' & Hh & Hc).
  exists r, s'. cbn [trigger run]. by rewrite Hh.
Qed.

Lemma run_gantt_loop env (el : WorldLog) evs : forall s,
  Forall (fun ev => is_Some (evheap s !! ev)) evs ->
  exists s',
    run env (for_each evs (fun ev =>
      e <- trigger (EGetEvent ev) ;;
      trigger (EWriteCombined
        (gantt_line (startTime el) (finishTime el) (totalDuration el) e)) ;;;
      Ret tt)) s = (Done tt, s') /\
    only_combined s s'.
Proof.
  induction evs as [|ev evs IH]; intros s Hall.
  - exists s. split; [done|apply only_combined_refl].
  - apply Forall_cons in Hall as [[e He] Hall].
    rewrite run_for_each_cons, run_bind. cbn [trigger run handle Resp].
    rewrite He. cbn [run].
    destruct (handle_WriteCombined env
      (gantt_line (startTime el) (finishTime el) (totalDuration el) e) s)
      as (r & s1 & Hh & Hc1).
    rewrite run_bind. cbn [trigger run]. rewrite Hh. cbn [run].
    destruct (IH s1) as (s2 & Hr2 & Hc2).
    { destruct Hc1 as (_&H&_). by rewrite H. }
    exists s2. split; [done|]. by eapply only_combined_trans.
Qed.

Lemma run_printGantt env s :
  wf_log s ->
  exists s', run env printGantt s = (Done tt, s') /\ only_combined s s'.
Proof.
  intros [_ Hall]. unfold printGantt. rewrite run_bind. cbn [trigger run handle Resp].
  destruct (world (wlog s)); cbn [negb].
  2:{ exists s. split; [done|apply only_combined_refl]. }
  rewrite run_bind.
  edestruct (run_WriteCombined env) as (r1 & s1 & -> & Hc1).
  rewrite run_bind.
  edestruct (run_WriteCombined env) as (r2 & s2 & -> & Hc2).
  rewrite run_bind.
  edestruct (run_WriteCombined env) as (r3 & s3 & -> & Hc3).
  pose proof (only_combined_trans _ _ _ Hc1 (only_combined_trans _ _ _ Hc2 Hc3)) as Hc.
  destruct (run_gantt_loop env (wlog s) (events (wlog s)) s3) as (s4 & Hr4 & Hc4).
  { destruct Hc as (_&H&_). by rewrite H. }
  exists s4. split; [exact Hr4|]. by eapply only_combined_trans.
Qed.

Lemma run_copy_event_logs env dir files : forall s,
  exists r s', run env (copy_event_logs dir files) s = (Done r, s') /\
               only_combined s s'.
Proof.
  induction files as [|f files IH]; intros s.
  - exists None, s. split; [done|apply only_combined_refl].
  - cbn [copy_event_logs]. rewrite run_bind. cbn [trigger run handle Resp].
    destruct (file_lookup (path_join dir f) (evfiles s)) as [d|]; cbn [run].
    + rewrite run_bind.
      edestruct (run_WriteCombined env) as (r1 & s1 & -> & Hc1).
      destruct r1 as [err|].
      * eexists _, s1. split; [reflexivity|done].
      * destruct (IH s1) as (r & s2 & Hr2 & Hc2). exists r, s2.
        split; [done|]. by eapply only_combined_trans.
    + eexists _, s. split; [reflexivity|apply only_combined_refl].
Qed.

Lemma run_WorldLog_finish env s :
  wf_log s ->
  exists r s',
    run env WorldLog_finish s = (Done r, s') /\
    yields s s' (if world (wlog s) then OFinalize :: finish_report (wlog s) r
                 else []).
Proof.
  intros Hwf. unfold WorldLog_finish. rewrite run_bind. cbn [trigger run handle Resp].
  destruct (world (wlog s)) eqn:Hw; cbn [negb].
  2:{ exists None, s. split; [done|apply yields_refl]. }
  rewrite run_bind. cbn [trigger run handle Resp].
  rewrite run_bind. cbn [trigger run handle Resp].
  set (s1 := observe OFinalize _).
  assert (Hy1 : yields s s1 [OFinalize]).
  { unfold yields, wf_log, ev_live. subst s1. cbn.
    split_and!; try done. by exists [OFinalize]. }
  assert (Hwf1 : wf_log s1) by (by eapply yields_wf).
  destruct (run_printGantt env s1 Hwf1) as (s2 & Hr2 & Hc2).
  rewrite run_bind, Hr2. rewrite run_bind.
  edestruct (run_WriteCombined env) as (r3 & s3 & -> & Hc3).
  rewrite run_bind. cbn [trigger run handle Resp].
  destruct (run_copy_event_logs env (eventsDir (wlog s))
              (ReadDir (eventsDir (wlog s)) (evfiles s3)) s3) as (r & s4 & Hr4 & Hc4).
  rewrite run_bind, Hr4.
  pose proof (only_combined_quiet _ _
    (only_combined_trans _ _ _ Hc2 (only_combined_trans _ _ _ Hc3 Hc4))) as Hq.
  pose proof (yields_quiet_r _ _ _ _ Hy1 Hq) as Hy4.
  destruct r as [err|].
  - rewrite run_bind. cbn [trigger run handle]. eexists _, _. split; [reflexivity|].
    eapply yields_quiet_r; [exact Hy4|].
    apply (quiet_same _ _ []); try done. by rewrite app_nil_r.
  - rewrite run_bind. cbn [trigger run handle].
    rewrite run_bind. cbn [trigger run handle].
    eexists _, _. split; [reflexivity|].
    set (m := OLog _).
    assert (Hy5 : yields s4 (observe m s4) [m]) by (by apply yields_observe).
    pose proof (yields_trans _ _ _ _ _ Hy4 Hy5) as Hy. cbn [app] in Hy.
    eapply yields_quiet_r; [exact Hy|].
    apply (quiet_same _ _ []); try done. by rewrite app_nil_r.
Qed.

Lemma yields_obs_since s s' obs :
  yields s s' obs -> own_obs (obs_since (length (trace s)) s') = obs.
Proof.
  intros (_&_&_&_&_&_&_&os&Ht&Ho). unfold obs_since.
  by rewrite Ht, drop_app_length.
Qed.






(** The same run, evaluated. *)
Example Destroy_sample_trace :
  own_obs (obs_since (length (trace sampleState))
             (snd (run sampleEnv (Destroy (Some sampleRegistered) ["T-alpine-1"])
                     sampleState))) =
  [ORecv 0%nat; OLogs (Some 12%nat);
   OTerminate (Some 12%nat) (500 * Millisecond);
   ORecv 1%nat; OLog "Container  T-alpine-1-2  failed to create:  boom";
   ORecv 2%nat; OLogs (Some 12%nat);
   OTerminate (Some 12%nat) (500 * Millisecond);
   OCallback 7%nat sampleGroup; OFinalize;
   OLog "World destroyed, event logs written to  /abs/logs/log_T_events.log"].
Proof. vm_compute. reflexivity. Qed.

(** ** The text of the finalized log *)

Lemma string_app_nil_r (s : string) : s +:+ "" = s.
Proof.
  induction s as [|a s IH]; [done|].
  change (String a (s +:+ "") = String a s). by rewrite IH.
Qed.

Lemma string_app_assoc (a b c : string) : (a +:+ b) +:+ c = a +:+ (b +:+ c).
Proof.
  induction a as [|x a IH]; [done|].
  change (String x ((a +:+ b) +:+ c) = String x (a +:+ (b +:+ c))).
  by rewrite IH.
Qed.

Lemma cat_cons x l : cat (x :: l) = x +:+ cat l.
Proof. done. Qed.

Lemma wrote_refl s : wrote s s "".
Proof.
  split; [apply only_combined_refl|]. split; [done|]. by rewrite string_app_nil_r.
Qed.

Lemma wrote_trans s1 s2 s3 a b :
  wrote s1 s2 a -> wrote s2 s3 b -> wrote s1 s3 (a +:+ b).
Proof.
  intros (A1&A2&A3) (B1&B2&B3). split; [by eapply only_combined_trans|].
  split; [congruence|]. by rewrite B3, A3, string_app_assoc.
Qed.

Lemma run_write_open env d s :
  combinedClosed s = false ->
  exists s', run env (trigger (EWriteCombined d)) s = (Done None, s') /\
             wrote s s' d.
Proof.
  intros Hc. cbn [trigger run handle]. rewrite Hc. eexists. split; [reflexivity|].
  by unfold wrote, only_combined.
Qed.

Lemma listed_events_cons s ev e evs :
  evheap s !! ev = Some e ->
  omap (fun ev => evheap s !! ev) (ev :: evs) =
  e :: omap (fun ev => evheap s !! ev) evs.
Proof. intros H. cbn. by rewrite H. Qed.

Lemma run_gantt_loop_text env (el : WorldLog) evs : forall s,
  combinedClosed s = false ->
  Forall (fun ev => is_Some (evheap s !! ev)) evs ->
  exists s',
    run env (for_each evs (fun ev =>
      e <- trigger (EGetEvent ev) ;;
      trigger (EWriteCombined
        (gantt_line (startTime el) (finishTime el) (totalDuration el) e)) ;;;
      Ret tt)) s = (Done tt, s') /\
    wrote s s' (cat (gantt_line (startTime el) (finishTime el) (totalDuration el)
                       <$> omap (fun ev => evheap s !! ev) evs)).
Proof.
  induction evs as [|ev evs IH]; intros s Hopen Hall.
  - exists s. split; [done|apply wrote_refl].
  - apply Forall_cons in Hall as [[e He] Hall].
    assert (Hg : run env (trigger (EGetEvent ev)) s = (Done e, s)).
    { cbn [trigger run handle Resp]. by rewrite He. }
    destruct (run_write_open env
      (gantt_line (startTime el) (finishTime el) (totalDuration el) e) s Hopen)
      as (s1 & Hr1 & Hw1).
    rewrite run_for_each_cons, run_bind, Hg, run_bind, Hr1. cbn [run].
    pose proof Hw1 as ((_&Hh&_)&Hcl&_).
    destruct (IH s1) as (s2 & Hr2 & Hw2).
    { by rewrite Hcl. }
    { by rewrite Hh. }
    exists s2. split; [done|].
    rewrite (listed_events_cons s ev e evs He), fmap_cons, cat_cons.
    rewrite Hh in Hw2. by eapply wrote_trans.
Qed.

Lemma run_printGantt_text env s :
  wf_log s -> world (wlog s) = true -> combinedClosed s = false ->
  exists s', run env printGantt s = (Done tt, s') /\
             wrote s s' (gantt_chart (wlog s) (listed_events s)).
Proof.
  intros [_ Hall] Hw Hopen. unfold printGantt.
  rewrite run_bind. cbn [trigger run handle Resp]. rewrite Hw. cbn [negb].
  rewrite run_bind.
  edestruct (run_write_open env) as (s1 & -> & Hw1); [exact Hopen|].
  pose proof Hw1 as (_&Hcl1&_).
  rewrite run_bind.
  edestruct (run_write_open env) as (s2 & -> & Hw2); [by rewrite Hcl1|].
  pose proof Hw2 as (_&Hcl2&_).
  rewrite run_bind.
  edestruct (run_write_open env) as (s3 & -> & Hw3); [by rewrite Hcl2, Hcl1|].
  pose proof Hw3 as (_&Hcl3&_).
  pose proof (wrote_trans _ _ _ _ _ Hw1 (wrote_trans _ _ _ _ _ Hw2 Hw3)) as Hw13.
  pose proof Hw13 as ((_&Hh&_)&_&_).
  destruct (run_gantt_loop_text env (wlog s) (events (wlog s)) s3) as (s4 & Hr4 & Hw4).
  { by rewrite Hcl3, Hcl2, Hcl1. }
  { by rewrite Hh. }
  exists s4. split; [exact Hr4|].
  unfold gantt_chart, gantt_header, listed_events. rewrite Hh in Hw4.
  pose proof (wrote_trans _ _ _ _ _ Hw13 Hw4) as H.
  by rewrite <- !string_app_assoc in H |- *.
Qed.

Lemma prefix_sdrop p s :
  String.prefix p s = true -> s = p +:+ sdrop (String.length p) s.
Proof.
  revert s. induction p as [|a p IH]; intros s H; [done|].
  destruct s as [|b s]; [done|]. cbn [String.prefix] in H.
  destruct (ascii_dec a b) as [->|]; [|done].
  cbn [String.length sdrop].
  change (String b s = String b (p +:+ sdrop (String.length p) s)).
  f_equal. by apply IH.
Qed.

Lemma file_lookup_elem p d files :
  (p, d) ∈ files -> is_Some (file_lookup p files).
Proof.
  induction files as [|[q e] files IH]; intros Hin.
  - by apply elem_of_nil in Hin.
  - cbn [file_lookup]. destruct (String.eqb q p) eqn:Hq; [by eexists|].
    apply elem_of_cons in Hin as [Heq|Hin]; [|by apply IH].
    simplify_eq. by rewrite String.eqb_refl in Hq.
Qed.

(** Every name [os.ReadDir] lists is the name of a file in the directory. *)
Lemma ReadDir_lookup dir files f :
  f ∈ ReadDir dir files -> is_Some (file_lookup (path_join dir f) files).
Proof.
  unfold ReadDir. rewrite merge_sort_Permutation. unfold dir_entries.
  intros ([p d] & Hin & Hs)%list_elem_of_omap. cbn [fst] in Hs.
  unfold strip_dir in Hs.
  destruct (String.prefix (dir +:+ "/") p) eqn:Hp; [|done]. simplify_eq.
  apply prefix_sdrop in Hp. unfold path_join.
  rewrite <- string_app_assoc, <- Hp. by eapply file_lookup_elem.
Qed.

Lemma run_copy_event_logs_text env dir files : forall names s,
  combinedClosed s = false -> evfiles s = files ->
  (forall f, f ∈ names -> is_Some (file_lookup (path_join dir f) files)) ->
  exists s',
    run env (copy_event_logs dir names) s = (Done None, s') /\
    wrote s s' (cat ((fun f => file_text files (path_join dir f)) <$> names)).
Proof.
  induction names as [|f names IH]; intros s Hopen Hf Hall.
  - exists s. split; [done|apply wrote_refl].
  - cbn [copy_event_logs]. destruct (Hall f) as [d Hd]; [by left|].
    assert (Hg : run env (trigger (EReadFile (path_join dir f))) s =
                 (Done (inl (content d)), s)).
    { cbn [trigger run handle Resp]. by rewrite Hf, Hd. }
    destruct (run_write_open env (content d) s Hopen) as (s1 & Hr1 & Hw1).
    rewrite run_bind, Hg, run_bind, Hr1.
    pose proof Hw1 as ((_&_&_&_&_&Hfs&_)&Hcl&_).
    destruct (IH s1) as (s2 & Hr2 & Hw2).
    { by rewrite Hcl. }
    { by rewrite Hfs. }
    { intros f' Hin. apply Hall. by right. }
    exists s2. split; [done|].
    rewrite fmap_cons, cat_cons. unfold file_text at 1. rewrite Hd.
    by eapply wrote_trans.
Qed.

(** [WorldLog.finish] on an open combined log: the finish time is the
    reading of the clock, and the log receives the chart of the listed
    events followed by the files of the events directory. *)
Lemma run_WorldLog_finish_text env s :
  wf_log s -> world (wlog s) = true -> combinedClosed s = false ->
  exists s',
    run env WorldLog_finish s = (Done None, s') /\
    wlog s' = set_finishTime (clock env (tick s)) (wlog s) /\
    evheap s' = evheap s /\ evfiles s' = evfiles s /\
    combined s' = combined s +:+
      finalized_text (set_finishTime (clock env (tick s)) (wlog s))
        (listed_events s) (evfiles s).
Proof.
  intros Hwf Hw Hopen. unfold WorldLog_finish.
  rewrite run_bind. cbn [trigger run handle Resp]. rewrite Hw. cbn [negb].
  rewrite run_bind. cbn [trigger run handle Resp].
  rewrite run_bind. cbn [trigger run handle Resp].
  set (el := set_finishTime (clock env (tick s)) (wlog s)).
  set (s1 := observe OFinalize _).
  assert (Hwf1 : wf_log s1) by (destruct Hwf; by split).
  destruct (run_printGantt_text env s1 Hwf1 Hw Hopen) as (s2 & Hr2 & Hw2).
  rewrite run_bind, Hr2.
  pose proof Hw2 as (_&Hcl2&_).
  destruct (run_write_open env (line (LF +:+ LF +:+ "Event Logs:")) s2)
    as (s3 & Hr3 & Hw3); [by rewrite Hcl2|].
  cbn [Resp] in Hr3. rewrite run_bind, Hr3.
  pose proof (wrote_trans _ _ _ _ _ Hw2 Hw3) as Hw23.
  pose proof Hw23 as ((Hl3&Hh3&_&_&_&Hfs3&_)&Hcl3&_).
  rewrite run_bind. cbn [trigger run handle Resp].
  destruct (run_copy_event_logs_text env (eventsDir (wlog s)) (evfiles s3)
              (ReadDir (eventsDir (wlog s)) (evfiles s3)) s3)
    as (s4 & Hr4 & Hw4).
  { by rewrite Hcl3. }
  { done. }
  { intros f. apply ReadDir_lookup. }
  rewrite run_bind, Hr4.
  pose proof (wrote_trans _ _ _ _ _ Hw23 Hw4) as Hw14.
  destruct Hw14 as ((Hl4&Hh4&_&_&_&Hfs4&_)&Hcl4&Hc4).
  rewrite run_bind. cbn [trigger run handle].
  rewrite run_bind. cbn [trigger run handle].
  eexists. split; [reflexivity|]. cbn.
  split; [exact Hl4|]. split; [exact Hh4|]. split; [exact Hfs4|].
  rewrite Hc4. unfold finalized_text, copied_logs. rewrite Hfs3.
  change (evfiles s1) with (evfiles s). change (combined s1) with (combined s).
  by rewrite !string_app_assoc.
Qed.

(** ** The span of the timeline *)

(** C6 does not hold: the sample log was created at 1s, its events run
    from 2s to 9s and it is finalized at 10s. The span computed and printed
    is 9s, from creation to finalisation; from the first start to the last
    finish there are 7s. *)
Lemma total_span_counterexample :
  let s := snd (run sampleEnv WorldLog_finish sampleState) in
  first_start (listed_events s) = 2 * Second /\
  last_finish (listed_events s) = 9 * Second /\
  spec_total_span (listed_events s) = Seconds (7 * Second) /\
  totalDuration (wlog s) = Seconds (9 * Second) /\
  totalDuration (wlog s) <> spec_total_span (listed_events s) /\
  String.prefix "Event Timeline (Total: 9.000s):" (combined s) = true.
Proof. vm_compute. repeat split; discriminate. Qed.

Lemma run_NewWorldLog_startTime env nm path s0 el s1 :
  run env (NewWorldLog nm path) s0 = (Done (Some el, None), s1) ->
  startTime el = clock env (tick s0).
Proof.
  unfold NewWorldLog. rewrite run_bind. cbn [trigger run handle Resp].
  rewrite run_bind. cbn [trigger run handle Resp].
  destruct (absPath env path) as [p|err]; [|done].
  rewrite run_bind. cbn [trigger run handle Resp].
  destruct (mkdirFails env p); [done|].
  rewrite run_bind. cbn [trigger run handle Resp].
  destruct (createFails env _); [done|]. cbn [run].
  rewrite run_bind. cbn [trigger run handle Resp].
  rewrite run_bind. cbn [trigger run handle Resp].
  destruct (mkdirFails env _); [done|]. cbn [run].
  intros H. by simplify_eq.
Qed.

(** C6, amended. The span [finish] computes, prints in the heading of the
    chart and divides every bar by, is the time from the creation of the
    timeline to its finalisation: [NewWorldLog] stores its reading of the
    clock as the start, [finish] stores its own as the finish, and the
    total is the seconds between the two, whatever the events' times. *)
Theorem total_span_is_log_lifetime env s :
  wf_log s -> world (wlog s) = true -> combinedClosed s = false ->
  (forall nm path s0 el s1,
     run env (NewWorldLog nm path) s0 = (Done (Some el, None), s1) ->
     startTime el = clock env (tick s0)) /\
  exists s',
    run env WorldLog_finish s = (Done None, s') /\
    startTime (wlog s') = startTime (wlog s) /\
    finishTime (wlog s') = clock env (tick s) /\
    totalDuration (wlog s') =
      Seconds (Sub (clock env (tick s)) (startTime (wlog s))) /\
    exists rest,
      combined s' = combined s +:+
        line ("Event Timeline (Total: " +:+
              fmt_3f (Seconds (Sub (clock env (tick s)) (startTime (wlog s)))) +:+
              "s):") +:+
        line "ID  | Process Visualization" +:+
        line ("----|" +:+ Repeat "-" (Z.to_nat timelineWidth)) +:+
        cat (gantt_line (startTime (wlog s)) (clock env (tick s))
               (Seconds (Sub (clock env (tick s)) (startTime (wlog s))))
               <$> listed_events s) +:+
        rest.
Proof.
  intros Hwf Hw Hopen. split; [apply run_NewWorldLog_startTime|].
  destruct (run_WorldLog_finish_text env s Hwf Hw Hopen)
    as (s' & Hr & Hl & _ & _ & Hc).
  exists s'. split; [exact Hr|]. rewrite Hl. split; [done|]. split; [done|].
  split; [done|]. eexists. rewrite Hc.
  unfold finalized_text, gantt_chart, gantt_header, totalDuration. cbn.
  rewrite !string_app_assoc. reflexivity.
Qed.

(** An instance: the sample log, finalized at 10s. *)
Lemma total_span_is_log_lifetime_witness :
  wf_log sampleState /\ world (wlog sampleState) = true /\
  combinedClosed sampleState = false /\
  exists s',
    run sampleEnv WorldLog_finish sampleState = (Done None, s') /\
    totalDuration (wlog s') = Seconds (Sub (10 * Second) (1 * Second)).
Proof.
  assert (Hwf : wf_log sampleState).
  { split; [reflexivity|]. repeat constructor; vm_compute; eauto. }
  split; [exact Hwf|]. split; [reflexivity|]. split; [reflexivity|].
  destruct (total_span_is_log_lifetime sampleEnv sampleState Hwf eq_refl eq_refl)
    as (_ & s' & Hr & _ & _ & Ht & _).
  exists s'. split; [exact Hr|exact Ht].
Defined.

(** ** The chart *)

Lemma new_location_zero nb : new_location nb 0 = loc_Exact.
Proof. unfold new_location. by destruct (Z.even nb). Qed.

(** A finite float divided by itself is one. *)
Lemma div_self sx m e :
  F64.div (S754_finite sx m e) (S754_finite sx m e) = F64.one.
Proof.
  unfold F64.div, SFdiv, SFdiv_core_binary.
  rewrite !Z.sub_diag, xorb_nilpotent.
  change (fexp F64.prec F64.emax 0) with (-53).
  change (Z.min (-53) 0) with (-53). change (0 - -53) with 53.
  cbv iota beta.
  assert (Hd : Z.div_eucl (Z.shiftl (Z.pos m) 53) (Z.pos m) = (2 ^ 53, 0)).
  { rewrite Z.shiftl_mul_pow2 by lia.
    pose proof (Z.div_mul (2 ^ 53) (Z.pos m) ltac:(lia)) as Hq.
    pose proof (Z.mod_mul (2 ^ 53) (Z.pos m) ltac:(lia)) as Hr.
    rewrite (Z.mul_comm (Z.pos m)).
    unfold Z.div, Z.modulo in Hq, Hr.
    destruct (Z.div_eucl (2 ^ 53 * Z.pos m) (Z.pos m)) as [q r].
    by subst. }
  rewrite Hd, new_location_zero. by vm_compute.
Qed.

Lemma columns_one : chart_columns F64.one = 80.
Proof. by vm_compute. Qed.

Lemma columns_zero total :
  F64_positive total = true ->
  chart_columns (F64.div (Seconds 0) total) = 0.
Proof.
  intros H. destruct total as [| | |[] m e]; try done.
Qed.

Lemma Seconds_positive_div_self d :
  F64_positive (Seconds d) = true ->
  F64.div (Seconds d) (Seconds d) = F64.one.
Proof.
  destruct (Seconds d) as [| | |[] m e]; try done. intros _. apply div_self.
Qed.

(** The line the code writes for an event is the line of the rendering
    rule. *)
Lemma gantt_line_spec el e :
  gantt_line (startTime el) (finishTime el) (totalDuration el) e =
  spec_line (startTime el) (finishTime el) (totalDuration el) e.
Proof. reflexivity. Qed.

(** C8. When [finish] runs on an open log and the span from the creation
    of the timeline to this moment is positive, the chart it writes has,
    after the heading, one line per listed event, in the order of the list,
    and each is the line of the rendering rule: the id in three digits, a
    bar, the padding before it as many spaces as the offset (start minus
    timeline start, over the total) scaled by 80 and truncated, not below 0,
    the bar as many marks as the length (finish minus start, over the
    total, the teardown time standing in for the finish of an event that
    never finished) scaled by 80 and truncated, not below 1, the duration
    with three decimals and the description. An event that spans the whole
    timeline gets a bar of 80 marks; an event of no duration a bar of one. *)
Theorem gantt_rendering env s :
  wf_log s -> world (wlog s) = true -> combinedClosed s = false ->
  F64_positive (Seconds (Sub (clock env (tick s)) (startTime (wlog s)))) = true ->
  exists s' after,
    run env WorldLog_finish s = (Done None, s') /\
    combined s' = combined s +:+ gantt_header (wlog s') +:+
      cat (spec_line (startTime (wlog s)) (clock env (tick s))
             (Seconds (Sub (clock env (tick s)) (startTime (wlog s))))
             <$> listed_events s) +:+ after /\
    forall e, e ∈ listed_events s ->
      let timelineStart := startTime (wlog s) in
      let teardown := clock env (tick s) in
      let total := Seconds (Sub teardown timelineStart) in
      let pad := Repeat " " (Z.to_nat (pad_width timelineStart total e)) in
      let bars := Repeat "#" (Z.to_nat (bar_width teardown total e)) in
      spec_line timelineStart teardown total e =
        fmt_03d (id e) +:+ " |" +:+ pad +:+ "[" +:+ bars +:+ "] (" +:+
        fmt_3f (Seconds (Sub (spec_finish teardown e) (ev_startTime e))) +:+
        "s) " +:+ description e +:+ LF /\
      Z.of_nat (String.length pad) =
        Z.max (chart_columns (spec_offset timelineStart total e)) 0 /\
      Z.of_nat (String.length bars) =
        Z.max (chart_columns (spec_length teardown total e)) 1 /\
      (1 <= String.length bars)%nat /\
      (ev_startTime e = timelineStart -> spec_finish teardown e = teardown ->
       String.length bars = 80%nat) /\
      (spec_finish teardown e = ev_startTime e -> String.length bars = 1%nat).
Proof.
  intros Hwf Hw Hopen Hpos.
  destruct (run_WorldLog_finish_text env s Hwf Hw Hopen)
    as (s' & Hr & Hl & _ & _ & Hc).
  exists s'. eexists. split; [exact Hr|]. split.
  { rewrite Hc, Hl. unfold finalized_text, gantt_chart.
    rewrite !string_app_assoc. reflexivity. }
  intros e _. cbv zeta. rewrite !Repeat_length.
  split; [reflexivity|]. unfold pad_width, bar_width.
  split; [lia|]. split; [lia|]. split; [lia|]. split.
  - intros Hs Hf. unfold spec_length. rewrite Hf, Hs.
    rewrite Seconds_positive_div_self by done. by rewrite columns_one.
  - intros Hz. unfold spec_length. rewrite Hz.
    assert (Hsub : Sub (ev_startTime e) (ev_startTime e) = 0).
    { unfold Sub. by rewrite Z.sub_diag. }
    rewrite Hsub, columns_zero by done. reflexivity.
Qed.

(** An instance: the log whose first event never finished and whose second
    event took no time, finalized one second after its creation. *)
Lemma gantt_rendering_witness :
  wf_log spanState /\ world (wlog spanState) = true /\
  combinedClosed spanState = false /\
  F64_positive (Seconds (Sub (clock coarseEnv (tick spanState))
                           (startTime (wlog spanState)))) = true /\
  exists s' after,
    run coarseEnv WorldLog_finish spanState = (Done None, s') /\
    combined s' = combined spanState +:+ gantt_header (wlog s') +:+
      cat (spec_line (1 * Second) (2 * Second) (Seconds (1 * Second))
             <$> listed_events spanState) +:+ after.
Proof.
  assert (Hwf : wf_log spanState).
  { split; [reflexivity|]. repeat constructor; vm_compute; eauto. }
  split; [exact Hwf|]. split; [reflexivity|]. split; [reflexivity|].
  split; [reflexivity|].
  destruct (gantt_rendering coarseEnv spanState Hwf eq_refl eq_refl eq_refl)
    as (s' & after & Hr & Hc & _).
  exists s', after. split; [exact Hr|exact Hc].
Defined.

(** The chart of that log. *)
Example gantt_sample_chart :
  combined (snd (run coarseEnv WorldLog_finish spanState)) =
  cat ["Event Timeline (Total: 1.000s):"; LF;
       "ID  | Process Visualization"; LF;
       "----|"; Repeat "-" 80; LF;
       "000 |["; Repeat "#" 80; "] (1.000s) whole"; LF;
       "001 |[#] (0.000s) instant"; LF;
       LF; LF; "Event Logs:"; LF;
       "Event 000 start:  whole"; LF;
       "Event 001 start:  instant"; LF;
       "Event 001 finish: duration 0.000s"; LF].
Proof. vm_compute. reflexivity. Qed.

(** ** Event ids under concurrency *)

Lemma wrap64_succ z : wrap64 (wrap64 z + 1) = wrap64 (z + 1).
Proof.
  unfold wrap64.
  replace ((z + 2 ^ 63) mod 2 ^ 64 - 2 ^ 63 + 1 + 2 ^ 63)
    with ((z + 2 ^ 63) mod 2 ^ 64 + 1) by lia.
  rewrite Zplus_mod_idemp_l. f_equal. f_equal. lia.
Qed.

Lemma tl_safe_bind {A B} (m : Prog A) (f : A -> Prog B) :
  tl_safe m -> (forall a, tl_safe (f a)) -> tl_safe (bind m f).
Proof.
  intros Hm Hf. induction Hm as [a| |msg|e k Hc Hk IH|now k Hk IH]; cbn.
  - apply Hf.
  - constructor.
  - constructor.
  - by constructor.
  - apply (safe_newEvent now (fun ev => bind (k ev) f)). exact IH.
Qed.

Lemma tl_safe_trigger e : critical e = false -> tl_safe (trigger e).
Proof. intros H. apply safe_Vis; [done|]. intros x. constructor. Qed.

Lemma tl_safe_for_each {A} (l : list A) body :
  (forall x, tl_safe (body x)) -> tl_safe (for_each l body).
Proof.
  intros H. induction l as [|x l IH]; cbn [for_each]; [constructor|].
  apply tl_safe_bind; [apply H|]. by intros _.
Qed.

(** A step of the proofs below: an effect outside the critical section,
    followed by the rest. *)
Ltac safe_bind :=
  apply tl_safe_bind; [apply tl_safe_trigger; reflexivity|].

Lemma newEvent_safe d : tl_safe (newEvent d).
Proof.
  unfold newEvent. safe_bind. intros el. destruct (negb _); [constructor|].
  safe_bind. intros now. apply safe_newEvent. intros event.
  safe_bind. intros _. safe_bind. intros e. safe_bind. intros f.
  safe_bind. intros _. destruct f as [f|]; [|constructor].
  safe_bind. intros _. safe_bind. intros _. constructor.
Qed.

Lemma Event_finish_safe r : tl_safe (Event_finish r).
Proof.
  destruct r as [ev|]; cbn [Event_finish]; [|constructor].
  safe_bind. intros now. safe_bind. intros _. safe_bind. intros e.
  destruct (log e) as [f|]; [|constructor].
  safe_bind. intros _. safe_bind. intros _.
  exact (tl_safe_trigger (EClose f) eq_refl).
Qed.

Lemma task_body_safe t : tl_safe (task_body t).
Proof.
  destruct t. cbn [task_body]. unfold createFn.
  apply tl_safe_bind; [apply newEvent_safe|]. intros event.
  safe_bind. intros r. safe_bind. intros _. safe_bind. intros _.
  safe_bind. intros _. safe_bind. intros _. apply Event_finish_safe.
Qed.

Lemma NewContainer_safe w spec : tl_safe (NewContainer w spec).
Proof.
  unfold NewContainer. cbv zeta. safe_bind. intros pending.
  apply tl_safe_bind; [|intros _; constructor].
  apply tl_safe_for_each. intros i. unfold newContainer_replica.
  safe_bind. intros pc. safe_bind. intros _.
  exact (tl_safe_trigger (EGo _) eq_refl).
Qed.

(** An effect outside the critical section leaves the mutex, the list and
    the counter alone, and every event on the heap keeps its id. *)
Lemma handle_noncritical env e s :
  critical e = false ->
  forall x s', handle env e s = Ok x s' ->
    rw (wlog s') = rw (wlog s) /\ events (wlog s') = events (wlog s) /\
    eventCounter (wlog s') = eventCounter (wlog s) /\
    forall ev e0, evheap s !! ev = Some e0 ->
      exists e1, evheap s' !! ev = Some e1 /\ id e1 = id e0.
Proof.
  intros Hc.
  assert (Halter : forall g ev0 ev (e0 : Event),
    (forall e, id (g e) = id e) ->
    evheap s !! ev = Some e0 ->
    exists e1, alter g ev0 (evheap s) !! ev = Some e1 /\ id e1 = id e0).
  { intros g ev0 ev e0 Hg He. destruct (decide (ev = ev0)) as [->|Hne].
    - rewrite list_lookup_alter_eq, He. cbn. eauto.
    - rewrite list_lookup_alter_ne by done. eauto. }
  destruct e; try discriminate Hc; cbn [handle]; intros x s' H;
    repeat case_match; simplify_eq; cbn; split_and!; eauto.
Qed.

Lemma ids_ok_frame s s' :
  events (wlog s') = events (wlog s) ->
  (forall ev e0, evheap s !! ev = Some e0 ->
     exists e1, evheap s' !! ev = Some e1 /\ id e1 = id e0) ->
  ids_ok s -> ids_ok s'.
Proof.
  intros He Hh Hok i ev Hi. rewrite He in Hi.
  destruct (Hok i ev Hi) as (e0 & H0 & Hid).
  destruct (Hh ev e0 H0) as (e1 & H1 & Hid1). exists e1. split; [done|congruence].
Qed.

Lemma counter_at_frame s s' ph :
  rw (wlog s') = rw (wlog s) -> events (wlog s') = events (wlog s) ->
  eventCounter (wlog s') = eventCounter (wlog s) ->
  (forall ev e0, evheap s !! ev = Some e0 ->
     exists e1, evheap s' !! ev = Some e1 /\ id e1 = id e0) ->
  counter_at s ph -> counter_at s' ph.
Proof.
  intros Hrw He Hc Hh. unfold counter_at. rewrite Hrw, He, Hc.
  destruct ph as [[|ev|ev|ev]|]; try done.
  intros (Ha&Hb&e0&H0&Hid). split; [done|]. split; [done|].
  destruct (Hh ev e0 H0) as (e1 & He1 & Hid1). exists e1. split; [done|congruence].
Qed.

(** A step of a goroutine outside the critical section that is neither
    the entry into it. *)
Lemma pool_inv_other env P e x s' (holder : option (nat * Phase)) :
  ids_ok (sys P) -> counter_at (sys P) (snd <$> holder) ->
  critical e = false -> handle env e (sys P) = Ok x s' ->
  ids_ok s' /\ counter_at s' (snd <$> holder).
Proof.
  intros Hok Hc He Hh.
  destruct (handle_noncritical env e (sys P) He x s' Hh) as (H1&H2&H3&H4).
  split; [by eapply ids_ok_frame|by eapply counter_at_frame].
Qed.

Lemma pool_inv_step env P P' : pool_inv P -> pstep env P P' -> pool_inv P'.
Proof.
  intros (Hok & holder & Hc & Hj & Hth) Hstep.
  destruct Hstep as [P i p p' s' Hi Hs|P l1 t l2 Hsp].
  2:{ (* a spawned goroutine starts *)
    split; [exact Hok|]. exists holder. split; [exact Hc|]. cbn [threads sys].
    split.
    { intros j ph Hh. destruct (Hj j ph Hh) as [q Hq]. exists q.
      by apply lookup_app_l_Some. }
    intros i p Hi. apply lookup_app_Some in Hi as [Hi|[Hlen Hi]].
    { by apply Hth. }
    apply list_lookup_singleton_Some in Hi as [_ <-].
    destruct holder as [[j ph]|]; [|apply task_body_safe].
    destruct (decide (i = j)) as [->|_]; [|apply task_body_safe].
    destruct (Hj j ph eq_refl) as [q Hq]. apply lookup_lt_Some in Hq. lia. }
  pose proof (Hth i p Hi) as Hp.
  assert (Hother : forall e k x,
    p = Vis e k -> critical e = false -> handle env e (sys P) = Ok x s' ->
    p' = k x -> tl_safe (k x) ->
    (forall j ph, holder = Some (j, ph) -> i <> j) ->
    pool_inv {| threads := <[i := p']> (threads P); sys := s' |}).
  { intros e k x -> He Hh -> Hk Hne.
    destruct (pool_inv_other env P e x s' holder Hok Hc He Hh) as [Hok' Hc'].
    split; [exact Hok'|]. exists holder. split; [exact Hc'|]. cbn [threads sys].
    split.
    { intros j ph Hh'. destruct (Hj j ph Hh') as [q Hq].
      rewrite list_lookup_insert_ne by (by eapply Hne). by exists q. }
    intros i' q Hq. destruct (decide (i' = i)) as [->|Hne'].
    - rewrite list_lookup_insert_eq in Hq by (by eapply lookup_lt_Some).
      simplify_eq. destruct holder as [[j ph]|]; [|done].
      destruct (decide (i = j)) as [->|_]; [|done]. by destruct (Hne j ph).
    - rewrite list_lookup_insert_ne in Hq by done. by apply Hth. }
  assert (Hlt : (i < length (threads P))%nat) by (by eapply lookup_lt_Some).
  destruct holder as [[j ph]|]; cbn [fmap option_fmap option_map snd] in Hc.
  - destruct (decide (i = j)) as [->|Hne].
    + (* the goroutine inside the section moves on *)
      destruct ph as [|ev|ev|ev]; cbn [in_section] in Hp.
      * destruct Hp as (now & k & Hk & ->). cbn [thread_step handle] in Hs.
        simplify_eq. destruct Hc as [Hrw Hcnt].
        split.
        { intros i ev Hev. destruct (Hok i ev Hev) as (e & He & Hid).
          exists e. split; [|done]. cbn. by apply lookup_app_l_Some. }
        exists (Some (j, Appending (length (evheap (sys P))))).
        split; [|split].
        { cbn. split; [done|]. split; [done|]. eexists. split.
          - rewrite lookup_app_r, Nat.sub_diag by lia. reflexivity.
          - cbn. exact Hcnt. }
        { intros j' ph' Heq. simplify_eq. cbn.
          rewrite list_lookup_insert_eq by done. by eexists. }
        cbn [threads]. intros i' q Hq. destruct (decide (i' = j)) as [->|Hne'].
        -- rewrite list_lookup_insert_eq in Hq by done. simplify_eq.
           exists k. split; [done|reflexivity].
        -- rewrite list_lookup_insert_ne in Hq by done.
           pose proof (Hth i' q Hq) as Hq'. by rewrite decide_False in Hq' by done.
      * destruct Hp as (k & Hk & ->). cbn [thread_step handle] in Hs.
        simplify_eq. destruct Hc as (Hrw & Hcnt & e & He & Hid).
        split.
        { intros i ev' Hev. cbn in Hev |- *.
          apply lookup_app_Some in Hev as [Hev|[Hlen Hev]]; [by apply Hok|].
          apply list_lookup_singleton_Some in Hev as [Hi0 <-].
          exists e. split; [done|]. rewrite Hid. f_equal. lia. }
        exists (Some (j, Counting ev)). split; [|split].
        { cbn. split; [done|]. rewrite Hcnt, length_app. cbn [length].
          rewrite wrap64_succ. f_equal. lia. }
        { intros j' ph' Heq. simplify_eq. cbn.
          rewrite list_lookup_insert_eq by done. by eexists. }
        cbn [threads]. intros i' q Hq. destruct (decide (i' = j)) as [->|Hne'].
        -- rewrite list_lookup_insert_eq in Hq by done. simplify_eq.
           exists k. split; [done|reflexivity].
        -- rewrite list_lookup_insert_ne in Hq by done.
           pose proof (Hth i' q Hq) as Hq'. by rewrite decide_False in Hq' by done.
      * destruct Hp as (k & Hk & ->). cbn [thread_step handle] in Hs.
        simplify_eq. destruct Hc as (Hrw & Hcnt).
        split; [exact Hok|].
        exists (Some (j, Unlocking ev)). split; [|split].
        { cbn. split; [done|]. exact Hcnt. }
        { intros j' ph' Heq. simplify_eq. cbn.
          rewrite list_lookup_insert_eq by done. by eexists. }
        cbn [threads]. intros i' q Hq. destruct (decide (i' = j)) as [->|Hne'].
        -- rewrite list_lookup_insert_eq in Hq by done. simplify_eq.
           exists k. split; [done|reflexivity].
        -- rewrite list_lookup_insert_ne in Hq by done.
           pose proof (Hth i' q Hq) as Hq'. by rewrite decide_False in Hq' by done.
      * destruct Hp as (k & Hk & ->). cbn [thread_step handle] in Hs.
        destruct Hc as (Hrw & Hcnt). rewrite Hrw in Hs. simplify_eq.
        split; [exact Hok|].
        exists None. split; [|split].
        { cbn. split; [done|]. exact Hcnt. }
        { intros j' ph' Heq. simplify_eq. }
        cbn [threads]. intros i' q Hq. destruct (decide (i' = j)) as [->|Hne'].
        -- rewrite list_lookup_insert_eq in Hq by done. simplify_eq. apply Hk.
        -- rewrite list_lookup_insert_ne in Hq by done.
           pose proof (Hth i' q Hq) as Hq'. by rewrite decide_False in Hq' by done.
    + (* another goroutine, while the mutex is held *)
      destruct Hp as [a| |msg|e k He Hk|now k Hk]; try done.
      * cbn [thread_step] in Hs.
        destruct (handle env e (sys P)) as [x s''| |] eqn:Hh; try done.
        simplify_eq. eapply Hother; eauto; intros j' ph' Heq; by simplify_eq.
      * cbn [thread_step newEvent_locked handle] in Hs.
        assert (Hrw : rw (wlog (sys P)) = true).
        { destruct ph; cbn in Hc; by destruct Hc. }
        by rewrite Hrw in Hs.
  - (* the mutex is free *)
    destruct Hp as [a| |msg|e k He Hk|now k Hk]; try done.
    + cbn [thread_step] in Hs.
      destruct (handle env e (sys P)) as [x s''| |] eqn:Hh; try done.
      simplify_eq. eapply Hother; eauto; intros j' ph' Heq; by simplify_eq.
    + cbn [thread_step newEvent_locked handle] in Hs.
      destruct Hc as [Hrw Hcnt]. rewrite Hrw in Hs. simplify_eq.
      split; [exact Hok|].
      exists (Some (i, Allocating)). split; [|split].
      { cbn. split; [done|]. exact Hcnt. }
      { intros j' ph' Heq. simplify_eq. cbn.
        rewrite list_lookup_insert_eq by done. by eexists. }
      cbn [threads]. intros i' q Hq. destruct (decide (i' = i)) as [->|Hne'].
      * rewrite list_lookup_insert_eq in Hq by done. simplify_eq.
        exists now, k. split; [done|reflexivity].
      * rewrite list_lookup_insert_ne in Hq by done. by apply (Hth i' q).
Qed.

Lemma fresh_pool_inv P : fresh_pool P -> pool_inv P.
Proof.
  intros (Hrw & Hev & Hc & Hth). split.
  - intros i ev Hi. by rewrite Hev in Hi.
  - exists None. split; [|split].
    + cbn. by rewrite Hev, Hc.
    + done.
    + intros i p Hi. apply Hth. by eapply list_elem_of_lookup_2.
Qed.

Lemma pool_inv_steps env P P' : pool_inv P -> psteps env P P' -> pool_inv P'.
Proof.
  intros Hinv Hsteps. induction Hsteps as [P|P Q R Hstep _ IH]; [done|].
  apply IH. by eapply pool_inv_step.
Qed.

Lemma sched_step_pstep env P i P' :
  sched_step env P i = Some P' -> pstep env P P'.
Proof.
  unfold sched_step. destruct (threads P !! i) as [p|] eqn:Hi.
  - destruct (thread_step env p (sys P)) as [[p' s']|] eqn:Hs; [|done].
    intros ?; simplify_eq. by eapply pstep_run.
  - destruct (spawned (sys P)) as [|t l] eqn:Hsp; [done|].
    intros ?; simplify_eq. by apply (pstep_start env P [] t l).
Qed.

Lemma schedule_psteps env l : forall P, psteps env P (schedule env l P).
Proof.
  induction l as [|i l IH]; intros P; [apply rtc_refl|].
  cbn [schedule foldl]. destruct (sched_step env P i) as [P'|] eqn:Hs; cbn.
  - eapply rtc_l; [by eapply sched_step_pstep|apply IH].
  - apply IH.
Qed.

(** C5. Start from a fresh timeline (free mutex, no events, counter 0) and
    any goroutines that touch the event list only through [newEvent] — as
    [NewContainer], the provisioning bodies and [Event.finish] do — and let
    them run under any interleaving of their statements, goroutines
    started with [go] included. In every state they reach, as long as the
    list holds no more events than [int64] has non-negative values, the ids
    of the listed events are 0, 1, 2, ... in the order of the list: each id
    once, none missing. *)
Theorem event_ids_contiguous env P0 P :
  fresh_pool P0 -> psteps env P0 P ->
  Z.of_nat (length (events (wlog (sys P)))) <= 2 ^ 63 ->
  event_ids (sys P) =
    (fun i => Some (Z.of_nat i)) <$> seq 0 (length (events (wlog (sys P)))) /\
  NoDup (event_ids (sys P)).
Proof.
  intros Hfresh Hsteps Hbound.
  destruct (pool_inv_steps env P0 P (fresh_pool_inv P0 Hfresh) Hsteps)
    as (Hok & _).
  assert (Heq : event_ids (sys P) =
    (fun i => Some (Z.of_nat i)) <$> seq 0 (length (events (wlog (sys P))))).
  { unfold event_ids. apply list_eq. intros i. rewrite !list_lookup_fmap.
    destruct (events (wlog (sys P)) !! i) as [ev|] eqn:Hi.
    - pose proof (lookup_lt_Some _ _ _ Hi) as Hlt.
      destruct (Hok i ev Hi) as (e & He & Hid).
      rewrite lookup_seq_lt by done. cbn. rewrite He. cbn. rewrite Hid.
      rewrite wrap64_id; [done|]. unfold minInt64, maxInt64. lia.
    - apply lookup_ge_None in Hi. rewrite lookup_seq_ge by lia. done. }
  split; [exact Heq|]. rewrite Heq. apply NoDup_fmap_2.
  - intros i j Hij. simplify_eq. lia.
  - apply NoDup_seq.
Qed.

(** An instance: three provisioning goroutines taking turns. *)
Lemma event_ids_contiguous_witness :
  fresh_pool samplePool /\
  psteps sampleEnv samplePool (schedule sampleEnv sampleSchedule samplePool) /\
  Z.of_nat (length (events (wlog (sys
    (schedule sampleEnv sampleSchedule samplePool))))) <= 2 ^ 63 /\
  event_ids (sys (schedule sampleEnv sampleSchedule samplePool)) =
    (fun i => Some (Z.of_nat i)) <$>
      seq 0 (length (events (wlog (sys
        (schedule sampleEnv sampleSchedule samplePool))))) /\
  NoDup (event_ids (sys (schedule sampleEnv sampleSchedule samplePool))).
Proof.
  assert (Hfresh : fresh_pool samplePool).
  { split; [reflexivity|]. split; [reflexivity|]. split; [reflexivity|].
    intros p Hp. apply list_elem_of_singleton in Hp as ->.
    apply tl_safe_bind; [apply NewContainer_safe|]. intros _. constructor. }
  assert (Hsteps : psteps sampleEnv samplePool
                     (schedule sampleEnv sampleSchedule samplePool)).
  { apply schedule_psteps. }
  assert (Hbound : Z.of_nat (length (events (wlog (sys
    (schedule sampleEnv sampleSchedule samplePool))))) <= 2 ^ 63).
  { by vm_compute. }
  split; [exact Hfresh|]. split; [exact Hsteps|]. split; [exact Hbound|].
  exact (event_ids_contiguous sampleEnv samplePool _ Hfresh Hsteps Hbound).
Defined.

(** The run of that schedule: the three goroutines are created in the
    order of the replicas, enter the critical section in the order 3, 1, 2,
    and the events carry the ids 0, 1, 2 in that order. *)
Example sample_schedule_events :
  let s := sys (schedule sampleEnv sampleSchedule samplePool) in
  (fun ev => (fun e => (id e, description e)) <$> evheap s !! ev)
    <$> events (wlog s) =
  [Some (0, "World: add alpine container T-alpine-1-3");
   Some (1, "World: add alpine container T-alpine-1-1");
   Some (2, "World: add alpine container T-alpine-1-2")] /\
  Forall (fun p => p = Ret tt)
    (threads (schedule sampleEnv sampleSchedule samplePool)) /\
  rw (wlog s) = false /\ eventCounter (wlog s) = 3.
Proof. vm_compute. repeat constructor. Qed.

(** ** The order of the copied logs *)








(** ** More on [basename] *)

Lemma Index_from_absent c s : forall i,
  has_byte c s = false -> Index_from i s (String c EmptyString) = -1.
Proof.
  induction s as [|a s IH]; intros i H; [done|].
  cbn [has_byte] in H. apply orb_false_iff in H as [Ha Hs].
  cbn [Index_from]. rewrite prefix_byte, Ascii.eqb_sym, Ha. by apply IH.
Qed.

Lemma Index_from_present c s : forall i,
  has_byte c s = true -> Z.of_nat i <= Index_from i s (String c EmptyString).
Proof.
  induction s as [|a s IH]; intros i H; [done|].
  cbn [has_byte] in H. cbn [Index_from]. rewrite prefix_byte, Ascii.eqb_sym.
  destruct (Ascii.eqb a c); [lia|]. cbn in H. specialize (IH (S i) H). lia.
Qed.

Lemma LastIndex_from_absent c s : forall i,
  has_byte c s = false -> LastIndex_from i s (String c EmptyString) = -1.
Proof.
  induction s as [|a s IH]; intros i H; [done|].
  cbn [has_byte] in H. apply orb_false_iff in H as [Ha Hs].
  cbn [LastIndex_from]. rewrite (IH _ Hs), prefix_byte, Ascii.eqb_sym, Ha.
  reflexivity.
Qed.

(** No field contains the separator, and splitting introduces no byte. *)
Lemma fields_free c s : Forall (fun x => has_byte c x = false) (fields c s).
Proof.
  induction s as [|a s IH]; cbn [fields]; [by repeat constructor|].
  destruct (Ascii.eqb a c) eqn:Ha; [by constructor|].
  destruct (fields c s) as [|x r]; [repeat constructor; cbn; by rewrite Ha|].
  apply Forall_cons in IH as [Hx Hr]. constructor; [|done].
  cbn. by rewrite Ha.
Qed.

Lemma fields_keep_free d c s :
  has_byte d s = false -> Forall (fun x => has_byte d x = false) (fields c s).
Proof.
  induction s as [|a s IH]; cbn [fields has_byte]; intros H;
    [by repeat constructor|].
  apply orb_false_iff in H as [Ha Hs]. specialize (IH Hs).
  destruct (Ascii.eqb a c); [by constructor|].
  destruct (fields c s) as [|x r]; [repeat constructor; cbn; by rewrite Ha|].
  apply Forall_cons in IH as [Hx Hr]. constructor; [|done].
  cbn. by rewrite Ha.
Qed.

Lemma Forall_last {A} (P : A -> Prop) l d : l <> [] -> Forall P l -> P (List.last l d).
Proof.
  induction l as [|x l IH]; intros Hne Hall; [done|].
  apply Forall_cons in Hall as [Hx Hl]. destruct l as [|y l]; [done|].
  apply IH; done.
Qed.

Lemma basename_free s :
  has_byte "/" (basename s) = false /\ has_byte ":" (basename s) = false.
Proof.
  rewrite basename_spec. unfold spec_kind_of, before_colon, last_segment.
  set (t := List.last (fields "/" s) EmptyString).
  assert (Ht : has_byte "/" t = false).
  { apply (Forall_last (fun x => has_byte "/" x = false));
      [apply fields_nonempty|apply fields_free]. }
  pose proof (fields_free ":" t) as H1.
  pose proof (fields_keep_free "/" ":" t Ht) as H2.
  pose proof (fields_nonempty ":" t) as Hne.
  destruct (fields ":" t) as [|x r]; [done|].
  apply Forall_cons in H1 as [H1 _]. apply Forall_cons in H2 as [H2 _]. done.
Qed.

Lemma basename_fixed t :
  has_byte "/" t = false -> has_byte ":" t = false -> basename t = t.
Proof.
  intros H1 H2. unfold basename, LastIndex, Index.
  rewrite (LastIndex_from_absent "/" t 0 H1). cbn [Z.leb Z.compare].
  by rewrite (Index_from_absent ":" t 0 H2).
Qed.

Lemma basename_Index_absent s :
  Index (basename s) "/" = -1 /\ Index (basename s) ":" = -1.
Proof.
  destruct (basename_free s) as [H1 H2]. unfold Index.
  split; by apply Index_from_absent.
Qed.

(** The result of [basename] holds neither a slash nor a colon: both
    searches of the standard library fail on it. So a kind derived from an
    image name never contains a path or a tag separator. *)
Theorem basename_no_separator s :
  Index (basename s) "/" = -1 /\ Index (basename s) ":" = -1 /\
  LastIndex (basename s) "/" = -1.
Proof.
  destruct (basename_free s) as [H1 H2]. unfold Index, LastIndex.
  split; [by apply Index_from_absent|].
  split; [by apply Index_from_absent|by apply LastIndex_from_absent].
Qed.

(** [basename] is idempotent. *)
Theorem basename_idempotent s : basename (basename s) = basename s.
Proof. destruct (basename_free s). by apply basename_fixed. Qed.

(** A name that ends in a slash has the empty base name, and so has a name
    that starts its last segment with a colon: [NewContainer] then falls
    back to the Dockerfile context or to the word container. *)
Theorem basename_trailing_slash s : basename (s +:+ "/") = "".
Proof.
  rewrite basename_spec. unfold spec_kind_of, before_colon, last_segment.
  assert (H : (2 <= length (fields "/" (s +:+ "/")))%nat /\
              List.last (fields "/" (s +:+ "/")) EmptyString = "").
  { induction s as [|a s [IHl IH]]; [split; [vm_compute; lia|done]|].
    change (String a s +:+ "/") with (String a (s +:+ "/")).
    cbn [fields].
    destruct (fields "/" (s +:+ "/")) as [|x [|y r]]; cbn [length] in IHl;
      [exfalso; lia..|].
    destruct (Ascii.eqb a "/"); split; cbn [length]; try lia; exact IH. }
  destruct H as [_ H].
  by rewrite H.
Qed.

(** The kind [NewContainer] derives is never empty and holds neither a
    slash nor a colon, whatever the image name and the Dockerfile context
    are. *)
Theorem kind_of_spec_wellformed spec :
  kind_of_spec spec <> "" /\
  Index (kind_of_spec spec) "/" = -1 /\ Index (kind_of_spec spec) ":" = -1.
Proof.
  unfold kind_of_spec. cbv zeta.
  destruct (String.eqb_spec (basename (Image spec)) "") as [Hi|Hi].
  - destruct (String.eqb_spec (basename (Context (spec_FromDockerfile spec))) "")
      as [Hc|Hc].
    + by vm_compute.
    + split; [done|]. apply basename_Index_absent.
  - destruct (String.eqb_spec (basename (Image spec)) "") as [|_]; [done|].
    split; [done|]. apply basename_Index_absent.
Qed.

(** ** Events, one at a time *)

(** What one call of [newEvent] does to an enabled log whose mutex is
    free. *)
Lemma run_newEvent_exact env d s :
  rw (wlog s) = false -> world (wlog s) = true ->
  let idv := eventCounter (wlog s) in
  let ev := length (evheap s) in
  let path := event_path (wlog s) idv in
  let failed := createFails env path in
  exists s',
    run env (newEvent d) s = (Done (if failed then None else Some ev), s') /\
    same_containers s s' /\ same_log_setup (wlog s) (wlog s') /\
    rw (wlog s') = false /\
    events (wlog s') = events (wlog s) ++ [ev] /\
    eventCounter (wlog s') = wrap64 (idv + 1) /\
    evheap s' = evheap s ++
      [started_event idv d (clock env (tick s))
         (if failed then None else Some path)] /\
    evfiles s' =
      (if failed then evfiles s
       else file_update path
              (fun fd => {| content := content fd +:+ start_line idv d;
                            closed := false |})
              (file_create path (evfiles s))) /\
    trace s' = trace s ++
      (if failed then []
       else [OLog ("Event " +:+ fmt_03d idv +:+ " start:  " +:+ d)]) /\
    tick s' = S (tick s).
Proof.
  intros Hrw Hw. cbv zeta.
  unfold newEvent. rewrite run_bind. cbn [trigger run handle]. rewrite Hw.
  cbn [negb]. rewrite run_bind. cbn [trigger run handle].
  unfold newEvent_locked. cbn [run handle next_tick wlog]. rewrite Hrw.
  cbn. rewrite heap_alter_new, heap_lookup_new. cbn.
  fold (event_path (wlog s) (eventCounter (wlog s))).
  destruct (createFails env (event_path (wlog s) (eventCounter (wlog s)))); cbn.
  - eexists. split; [reflexivity|]. cbn. rewrite !heap_alter_new.
    unfold same_containers, same_log_setup. cbn. split_and!; try done.
    by rewrite app_nil_r.
  - rewrite file_lookup_create. cbn.
    eexists. split; [reflexivity|]. cbn. rewrite !heap_alter_new.
    unfold same_containers, same_log_setup. cbn. split_and!; done.
Qed.

Lemma file_lookup_update_ne path p f files :
  p <> path ->
  file_lookup p (file_update path f files) = file_lookup p files.
Proof.
  intros Hne. induction files as [|[q d] files IH]; cbn; [done|].
  destruct (String.eqb_spec q path) as [->|Hq]; cbn.
  - destruct (String.eqb_spec path p); [congruence|done].
  - by rewrite IH.
Qed.

Lemma file_lookup_create_ne path p files :
  p <> path ->
  file_lookup p (file_create path files) = file_lookup p files.
Proof.
  intros Hne. unfold file_create. destruct (file_lookup path files) eqn:Hl.
  - by apply file_lookup_update_ne.
  - rewrite file_lookup_app. destruct (file_lookup p files); [done|].
    cbn. destruct (String.eqb_spec path p); [congruence|done].
Qed.

(** What [Event.finish] does to an event that has its file. *)
Lemma run_Event_finish_exact env ev e f s :
  evheap s !! ev = Some e -> log e = Some f ->
  let now := clock env (tick s) in
  let fin := finish_line (id e) (ev_startTime e) now in
  exists s',
    run env (Event_finish (Some ev)) s = (Done tt, s') /\
    same_containers s s' /\ wlog s' = wlog s /\
    evheap s' = alter (set_ev_finishTime now) ev (evheap s) /\
    evfiles s' =
      file_update f (fun fd => {| content := content fd; closed := true |})
        (match file_lookup f (evfiles s) with
         | Some fd =>
             if closed fd then evfiles s
             else file_update f
                    (fun fd => {| content := content fd +:+ fin;
                                  closed := false |}) (evfiles s)
         | None => evfiles s
         end) /\
    trace s' = trace s ++
      [OLog ("Event " +:+ fmt_03d (id e) +:+ " finish: duration " +:+
             fmt_3f (Seconds (Sub now (ev_startTime e))) +:+ "s")] /\
    tick s' = S (tick s).
Proof.
  intros He Hf. cbv zeta. cbn [Event_finish].
  rewrite run_bind. cbn [trigger run handle].
  rewrite run_bind. cbn [trigger run handle].
  rewrite run_bind. cbn [trigger run handle evheap upd_evheap next_tick].
  cbn [Resp]. rewrite list_lookup_alter_eq, He.
  cbn [fmap option_fmap option_map log set_ev_finishTime id ev_startTime
       ev_finishTime].
  rewrite Hf. rewrite run_bind.
  cbn [trigger run handle evfiles upd_evheap next_tick].
  unfold finish_line.
  destruct (file_lookup f (evfiles s)) as [fd|] eqn:Hfl.
  - destruct (closed fd); cbn;
      (eexists; split; [reflexivity|]); unfold same_containers; cbn; done.
  - cbn. eexists. split; [reflexivity|]. unfold same_containers. cbn. done.
Qed.

(** [newEvent] on an enabled log, when the event's file can be created:
    the caller gets the new event; it is the last of the list and carries
    the value of the counter as its id, the description, the reading of
    the clock as its start and no finish; the counter has advanced by one;
    the file named after the id is new or truncated, open, and holds the
    start line; no other file is touched, and the start line is mirrored to
    the test log. *)
Theorem newEvent_records env d s :
  rw (wlog s) = false -> world (wlog s) = true ->
  createFails env (event_path (wlog s) (eventCounter (wlog s))) = false ->
  exists s',
    run env (newEvent d) s = (Done (Some (length (evheap s))), s') /\
    events (wlog s') = events (wlog s) ++ [length (evheap s)] /\
    evheap s' !! length (evheap s) =
      Some (started_event (eventCounter (wlog s)) d (clock env (tick s))
              (Some (event_path (wlog s) (eventCounter (wlog s))))) /\
    eventCounter (wlog s') = wrap64 (eventCounter (wlog s) + 1) /\
    file_lookup (event_path (wlog s) (eventCounter (wlog s))) (evfiles s') =
      Some {| content := start_line (eventCounter (wlog s)) d;
              closed := false |} /\
    (forall p, p <> event_path (wlog s) (eventCounter (wlog s)) ->
       file_lookup p (evfiles s') = file_lookup p (evfiles s)) /\
    (forall ev' e, evheap s !! ev' = Some e -> evheap s' !! ev' = Some e) /\
    trace s' = trace s ++
      [OLog ("Event " +:+ fmt_03d (eventCounter (wlog s)) +:+ " start:  " +:+ d)].
Proof.
  intros Hrw Hw Hc.
  destruct (run_newEvent_exact env d s Hrw Hw)
    as (s' & Hr & _ & _ & _ & Hev & Hcnt & Hh & Hf & Ht & _).
  cbv zeta in *. rewrite Hc in *.
  exists s'. split; [exact Hr|]. split; [exact Hev|].
  split; [by rewrite Hh, heap_lookup_new|]. split; [exact Hcnt|].
  split; [|split; [|split; [|exact Ht]]].
  - rewrite Hf. erewrite file_lookup_update; [|apply file_lookup_create]. done.
  - intros p Hp. rewrite Hf, file_lookup_update_ne, file_lookup_create_ne; done.
  - intros ev' e He. rewrite Hh. by apply lookup_app_l_Some.
Qed.

(** An instance: the first event of the sample log. *)
Lemma newEvent_records_witness :
  rw (wlog sampleLogged) = false /\ world (wlog sampleLogged) = true /\
  createFails sampleEnv
    (event_path (wlog sampleLogged) (eventCounter (wlog sampleLogged))) = false /\
  exists s',
    run sampleEnv (newEvent "World: Create") sampleLogged = (Done (Some 0%nat), s') /\
    file_lookup "/tmp/t/events/event_000.log" (evfiles s') =
      Some {| content := start_line 0 "World: Create"; closed := false |}.
Proof.
  split; [reflexivity|]. split; [reflexivity|]. split; [reflexivity|].
  destruct (newEvent_records sampleEnv "World: Create" sampleLogged
              eq_refl eq_refl eq_refl) as (s' & Hr & _ & _ & _ & Hf & _).
  exists s'. split; [exact Hr|exact Hf].
Defined.

(** [newEvent] when the event's file cannot be created: the caller gets
    nil, yet the event has been appended to the list with the counter's
    value as its id and without a file, and the counter has advanced.
    Nothing is written and nothing is mirrored to the test log. *)
Theorem newEvent_create_failure env d s :
  rw (wlog s) = false -> world (wlog s) = true ->
  createFails env (event_path (wlog s) (eventCounter (wlog s))) = true ->
  exists s',
    run env (newEvent d) s = (Done None, s') /\
    events (wlog s') = events (wlog s) ++ [length (evheap s)] /\
    evheap s' !! length (evheap s) =
      Some (started_event (eventCounter (wlog s)) d (clock env (tick s)) None) /\
    eventCounter (wlog s') = wrap64 (eventCounter (wlog s) + 1) /\
    evfiles s' = evfiles s /\ trace s' = trace s.
Proof.
  intros Hrw Hw Hc.
  destruct (run_newEvent_exact env d s Hrw Hw)
    as (s' & Hr & _ & _ & _ & Hev & Hcnt & Hh & Hf & Ht & _).
  cbv zeta in *. rewrite Hc in *.
  exists s'. split; [exact Hr|]. split; [exact Hev|].
  split; [by rewrite Hh, heap_lookup_new|]. split; [exact Hcnt|].
  split; [exact Hf|]. by rewrite Ht, app_nil_r.
Qed.

Lemma newEvent_create_failure_witness :
  rw (wlog sampleLogged) = false /\ world (wlog sampleLogged) = true /\
  createFails readOnlyEnv
    (event_path (wlog sampleLogged) (eventCounter (wlog sampleLogged))) = true /\
  exists s',
    run readOnlyEnv (newEvent "step") sampleLogged = (Done None, s') /\
    events (wlog s') = [0%nat] /\
    evheap s' !! 0%nat = Some (started_event 0 "step" (2 * Second) None) /\
    eventCounter (wlog s') = 1 /\
    evfiles s' = [] /\ trace s' = [].
Proof.
  split; [reflexivity|]. split; [reflexivity|]. split; [reflexivity|].
  exact (newEvent_create_failure readOnlyEnv "step" sampleLogged
           eq_refl eq_refl eq_refl).
Defined.

Lemma file_update_update path f g files :
  file_update path g (file_update path f files) =
  file_update path (fun d => g (f d)) files.
Proof.
  induction files as [|[p d] files IH]; cbn; [done|].
  destruct (String.eqb_spec p path) as [->|Hne]; cbn.
  - by rewrite String.eqb_refl.
  - apply String.eqb_neq in Hne. rewrite Hne. by rewrite IH.
Qed.

(** An event created and finished: its file holds the start line and the
    finish line and is closed; the event carries the two readings of the
    clock; the list has grown by this one event. *)
Theorem event_file_complete env d s :
  rw (wlog s) = false -> world (wlog s) = true ->
  createFails env (event_path (wlog s) (eventCounter (wlog s))) = false ->
  let idv := eventCounter (wlog s) in
  let t0 := clock env (tick s) in
  let t1 := clock env (S (tick s)) in
  exists s',
    run env (event <- newEvent d ;; Event_finish event) s = (Done tt, s') /\
    events (wlog s') = events (wlog s) ++ [length (evheap s)] /\
    evheap s' !! length (evheap s) =
      Some {| id := idv; description := d; ev_startTime := t0;
              ev_finishTime := t1;
              log := Some (event_path (wlog s) idv) |} /\
    file_lookup (event_path (wlog s) idv) (evfiles s') =
      Some {| content := start_line idv d +:+ finish_line idv t0 t1;
              closed := true |} /\
    (forall p, p <> event_path (wlog s) idv ->
       file_lookup p (evfiles s') = file_lookup p (evfiles s)).
Proof.
  intros Hrw Hw Hc. cbv zeta.
  destruct (run_newEvent_exact env d s Hrw Hw)
    as (s1 & Hr1 & _ & _ & _ & Hev1 & _ & Hh1 & Hf1 & _ & Htk1).
  cbv zeta in *. rewrite Hc in *.
  set (path := event_path (wlog s) (eventCounter (wlog s))) in *.
  assert (He1 : evheap s1 !! length (evheap s) =
                Some (started_event (eventCounter (wlog s)) d
                        (clock env (tick s)) (Some path))).
  { by rewrite Hh1, heap_lookup_new. }
  destruct (run_Event_finish_exact env (length (evheap s)) _ path s1 He1 eq_refl)
    as (s2 & Hr2 & _ & Hl2 & Hh2 & Hf2 & _ & _).
  cbv zeta in *. cbn [id ev_startTime started_event] in *.
  assert (Hopen : file_lookup path (evfiles s1) =
                  Some {| content := start_line (eventCounter (wlog s)) d;
                          closed := false |}).
  { rewrite Hf1. erewrite file_lookup_update; [|apply file_lookup_create]. done. }
  rewrite Hopen in Hf2. cbn [closed] in Hf2.
  exists s2. rewrite run_bind, Hr1, Hr2. split; [done|].
  split; [by rewrite Hl2|]. split; [|split].
  - rewrite Hh2, list_lookup_alter_eq, He1. rewrite Htk1. done.
  - rewrite Hf2, file_update_update.
    erewrite file_lookup_update; [|exact Hopen]. cbn. by rewrite Htk1.
  - intros p Hp. rewrite Hf2, !file_lookup_update_ne by done.
    rewrite Hf1, file_lookup_update_ne, file_lookup_create_ne; done.
Qed.

Lemma event_file_complete_witness :
  rw (wlog sampleLogged) = false /\ world (wlog sampleLogged) = true /\
  createFails sampleEnv
    (event_path (wlog sampleLogged) (eventCounter (wlog sampleLogged))) = false /\
  exists s',
    run sampleEnv (event <- newEvent "step" ;; Event_finish event) sampleLogged =
      (Done tt, s') /\
    file_lookup "/tmp/t/events/event_000.log" (evfiles s') =
      Some {| content := start_line 0 "step" +:+
                         finish_line 0 (2 * Second) (3 * Second);
              closed := true |}.
Proof.
  split; [reflexivity|]. split; [reflexivity|]. split; [reflexivity|].
  destruct (event_file_complete sampleEnv "step" sampleLogged
              eq_refl eq_refl eq_refl) as (s' & Hr & _ & _ & Hf & _).
  exists s'. split; [exact Hr|exact Hf].
Defined.

(** [logOneInternal] on an enabled log: the logs of the container stand in
    the file of an event of their own, between its start line and its finish
    line, and the file is closed. When the logs cannot be read the file
    holds the two lines only and the error is returned, wrapped. *)
Theorem logOneInternal_file env nm c s :
  rw (wlog s) = false -> world (wlog s) = true ->
  createFails env (event_path (wlog s) (eventCounter (wlog s))) = false ->
  let idv := eventCounter (wlog s) in
  let t0 := clock env (tick s) in
  let t1 := clock env (S (tick s)) in
  exists s',
    run env (logOneInternal nm c) s =
      (Done (match containerLogs env c with
             | inl _ => None
             | inr err => Some ("failed to get logs: " +:+ err)
             end), s') /\
    events (wlog s') = events (wlog s) ++ [length (evheap s)] /\
    (exists e, evheap s' !! length (evheap s) = Some e /\
               description e = nm +:+ ": logs" /\ ev_finishTime e = t1) /\
    file_lookup (event_path (wlog s) idv) (evfiles s') =
      Some {| content :=
                start_line idv (nm +:+ ": logs") +:+
                match containerLogs env c with
                | inl data => data
                | inr _ => ""
                end +:+
                finish_line idv t0 t1;
              closed := true |} /\
    (forall p, p <> event_path (wlog s) idv ->
       file_lookup p (evfiles s') = file_lookup p (evfiles s)).
Proof.
  intros Hrw Hw Hc. cbv zeta. unfold logOneInternal.
  destruct (run_newEvent_exact env (nm +:+ ": logs") s Hrw Hw)
    as (s1 & Hr1 & _ & _ & _ & Hev1 & _ & Hh1 & Hf1 & _ & Htk1).
  cbv zeta in *. rewrite Hc in *.
  set (path := event_path (wlog s) (eventCounter (wlog s))) in *.
  set (ev := length (evheap s)) in *.
  set (e0 := started_event (eventCounter (wlog s)) (nm +:+ ": logs")
               (clock env (tick s)) (Some path)) in *.
  assert (He1 : evheap s1 !! ev = Some e0).
  { subst ev e0. by rewrite Hh1, heap_lookup_new. }
  assert (Hopen : file_lookup path (evfiles s1) =
                  Some {| content := start_line (eventCounter (wlog s))
                                       (nm +:+ ": logs");
                          closed := false |}).
  { rewrite Hf1. erewrite file_lookup_update; [|apply file_lookup_create]. done. }
  assert (Hother : forall p, p <> path ->
            file_lookup p (evfiles s1) = file_lookup p (evfiles s)).
  { intros p Hp. rewrite Hf1, file_lookup_update_ne, file_lookup_create_ne; done. }
  rewrite run_bind, Hr1. rewrite run_bind. cbn [trigger run handle Resp].
  set (s2 := observe (OLogs c) s1).
  destruct (containerLogs env c) as [data|err].
  - (* the logs are copied into the file *)
    rewrite run_bind. cbn [trigger run handle Resp].
    change (evheap s2) with (evheap s1). rewrite He1. cbn [run log e0 started_event].
    rewrite run_bind. cbn [trigger run handle Resp].
    change (evfiles s2) with (evfiles s1). rewrite Hopen. cbn [closed run].
    set (s3 := upd_evfiles _ s2).
    assert (He3 : evheap s3 !! ev = Some e0) by exact He1.
    destruct (run_Event_finish_exact env ev e0 path s3 He3 eq_refl)
      as (s4 & Hr4 & _ & Hl4 & Hh4 & Hf4 & _ & _).
    cbv zeta in *. rewrite run_bind, Hr4. cbn [run].
    exists s4. split; [done|]. split; [by rewrite Hl4|].
    assert (Hopen3 : file_lookup path (evfiles s3) =
              Some {| content := start_line (eventCounter (wlog s))
                                   (nm +:+ ": logs") +:+ data;
                      closed := false |}).
    { subst s3. cbn [evfiles upd_evfiles]. change (evfiles s2) with (evfiles s1).
      erewrite file_lookup_update; [|exact Hopen]. done. }
    rewrite Hopen3 in Hf4. cbn [closed] in Hf4.
    split; [|split].
    + eexists. rewrite Hh4, list_lookup_alter_eq, He3. split; [reflexivity|].
      cbn. by rewrite Htk1.
    + rewrite Hf4, file_update_update.
      erewrite file_lookup_update; [|exact Hopen3]. cbn.
      change (tick s3) with (tick s1). rewrite Htk1.
      by rewrite string_app_assoc.
    + intros p Hp. rewrite Hf4, !file_lookup_update_ne by done.
      subst s3. cbn [evfiles upd_evfiles]. change (evfiles s2) with (evfiles s1).
      rewrite file_lookup_update_ne by done. by apply Hother.
  - (* the provider gives no logs *)
    assert (He2 : evheap s2 !! ev = Some e0) by exact He1.
    destruct (run_Event_finish_exact env ev e0 path s2 He2 eq_refl)
      as (s4 & Hr4 & _ & Hl4 & Hh4 & Hf4 & _ & _).
    cbv zeta in *. rewrite run_bind, Hr4. cbn [run].
    exists s4. split; [done|]. split; [by rewrite Hl4|].
    change (evfiles s2) with (evfiles s1) in Hf4. rewrite Hopen in Hf4.
    cbn [closed] in Hf4. split; [|split].
    + eexists. rewrite Hh4, list_lookup_alter_eq, He2. split; [reflexivity|].
      cbn. by rewrite Htk1.
    + rewrite Hf4, file_update_update.
      erewrite file_lookup_update; [|exact Hopen]. cbn.
      change (tick s2) with (tick s1). by rewrite Htk1.
    + intros p Hp. rewrite Hf4, !file_lookup_update_ne by done. by apply Hother.
Qed.

Lemma logOneInternal_file_witness :
  rw (wlog sampleLogged) = false /\ world (wlog sampleLogged) = true /\
  createFails sampleEnv
    (event_path (wlog sampleLogged) (eventCounter (wlog sampleLogged))) = false /\
  exists s',
    run sampleEnv (logOneInternal "T-alpine-1" (Some 10%nat)) sampleLogged =
      (Done None, s') /\
    file_lookup "/tmp/t/events/event_000.log" (evfiles s') =
      Some {| content := start_line 0 "T-alpine-1: logs" +:+ "ready" +:+
                         finish_line 0 (2 * Second) (3 * Second);
              closed := true |}.
Proof.
  split; [reflexivity|]. split; [reflexivity|]. split; [reflexivity|].
  destruct (logOneInternal_file sampleEnv "T-alpine-1" (Some 10%nat) sampleLogged
              eq_refl eq_refl eq_refl) as (s' & Hr & _ & _ & Hf & _).
  exists s'. split; [exact Hr|exact Hf].
Defined.

(** ** Waiting for slots *)

Lemma run_waitReady_loop_blocks env s pcs : forall s' i acc k pc p,
  slots s' = slots s ->
  (forall j pc', (j < k)%nat -> pcs !! j = Some pc' -> slot_resolved_ok s pc') ->
  pcs !! k = Some pc -> slots s !! pc = Some p -> pc_ready p = false ->
  run env (waitReady_loop (Some <$> pcs) i acc) s' =
    (Blocked, add_obs (ORecv <$> take k pcs) s').
Proof.
  induction pcs as [|pc0 rest IH]; intros s' i acc k pc p Hs Hok Hk Hp Hr;
    [done|].
  destruct k as [|k].
  - cbn in Hk. simplify_eq. cbn [fmap list_fmap waitReady_loop].
    rewrite run_bind. cbn [trigger run handle]. rewrite Hs, Hp, Hr.
    cbn. by rewrite add_obs_nil.
  - destruct (Hok 0%nat pc0) as (p0 & Hp0 & Hr0 & He0); [lia|done|].
    cbn [fmap list_fmap waitReady_loop]. rewrite run_bind.
    cbn [trigger run handle]. rewrite Hs, Hp0, Hr0.
    cbn [run]. rewrite run_bind. cbn [trigger run handle slots observe Resp].
    rewrite Hs, Hp0. cbn [run]. rewrite He0.
    rewrite (IH _ (S i) _ k pc p); try done.
    + rewrite observe_add_obs, add_obs_app. reflexivity.
    + intros j pc' Hj Hpc'. apply (Hok (S j)); [lia|done].
Qed.

(** A group with an unresolved member: [waitReady] and [mustReady] wait at
    the first member whose channel is still open. They have received from
    the members before it and from no other, and they return nothing: no
    handle is read before its slot is resolved. *)
Theorem waitReady_waits env wc s pcs k pc p :
  wf_log s ->
  arrays s !! pending wc = Some (Some <$> pcs) ->
  (forall j pc', (j < k)%nat -> pcs !! j = Some pc' -> slot_resolved_ok s pc') ->
  pcs !! k = Some pc -> slots s !! pc = Some p -> pc_ready p = false ->
  run env (waitReady wc) s = (Blocked, add_obs (ORecv <$> take k pcs) s) /\
  exists s',
    run env (mustReady wc) s = (Blocked, s') /\
    slots s' = slots s /\
    own_obs (obs_since (length (trace s)) s') = ORecv <$> take k pcs.
Proof.
  intros Hwf Ha Hok Hk Hp Hr.
  assert (Hw : forall s1, slots s1 = slots s -> arrays s1 = arrays s ->
            run env (waitReady wc) s1 =
              (Blocked, add_obs (ORecv <$> take k pcs) s1)).
  { intros s1 Hs1 Ha1. unfold waitReady. rewrite run_bind.
    cbn [trigger run handle Resp]. rewrite Ha1, Ha. cbn [run].
    by rewrite (run_waitReady_loop_blocks env s pcs s1 0 _ k pc p). }
  split; [by apply Hw|]. unfold mustReady.
  assert (Hev : exists r s1,
    run env (if negb (isReady wc) then newEvent (Name wc +:+ ": await")
             else Ret None) s = (Done r, s1) /\ quiet s s1).
  { destruct (isReady wc); cbn [negb].
    - exists None, s. split; [done|apply quiet_refl].
    - destruct (run_newEvent env (Name wc +:+ ": await") s Hwf)
        as (r & s1 & Hr1 & Hq1 & _). by exists r, s1. }
  destruct Hev as (r & s1 & Hr1 & Hq1).
  pose proof Hq1 as (Hs1 & Ha1 & _ & _ & _ & _ & _ & os & Ht & Ho).
  rewrite run_bind, Hr1, run_bind, (Hw s1 Hs1 Ha1).
  eexists. split; [reflexivity|]. split; [done|].
  unfold obs_since. cbn [trace add_obs]. rewrite Ht, <- app_assoc.
  rewrite drop_app_length, own_obs_app, Ho, own_obs_recv. done.
Qed.

(** An instance: the group of three replicas before any provisioning task
    has run. *)
Lemma waitReady_waits_witness :
  wf_log sampleCreated /\
  arrays sampleCreated !! pending sampleGroup = Some (Some <$> [0; 1; 2]%nat) /\
  slots sampleCreated !! 0%nat = Some (newPending "T-alpine-1-1") /\
  run sampleEnv (waitReady sampleGroup) sampleCreated = (Blocked, sampleCreated).
Proof.
  assert (Hwf : wf_log sampleCreated).
  { split; [reflexivity|]. repeat constructor; vm_compute; eauto. }
  split; [exact Hwf|]. split; [reflexivity|]. split; [reflexivity|].
  assert (Hok : forall j pc', (j < 0)%nat -> [0; 1; 2]%nat !! j = Some pc' ->
                  slot_resolved_ok sampleCreated pc') by (intros j pc' Hj; lia).
  destruct (waitReady_waits sampleEnv sampleGroup sampleCreated [0; 1; 2]%nat
              0 0%nat (newPending "T-alpine-1-1") Hwf eq_refl Hok
              eq_refl eq_refl eq_refl) as [Hr _].
  rewrite Hr. cbn [take fmap list_fmap]. by rewrite add_obs_nil.
Defined.

Lemma own_obs_event rest : own_obs [OLog ("Event " +:+ rest)] = [].
Proof. unfold own_obs. cbn [List.filter]. by rewrite event_message_line. Qed.

Lemma run_waitReady_ok env wc s0 s pcs :
  slots s = slots s0 ->
  arrays s !! pending wc = Some (Some <$> pcs) ->
  (forall pc, pc ∈ pcs -> slot_resolved_ok s0 pc) ->
  run env (waitReady wc) s =
    (Done (slot_container s0 <$> pcs, None), add_obs (ORecv <$> pcs) s).
Proof.
  intros Hs Ha Hok.
  rewrite (run_waitReady env wc s0 s pcs (length pcs) Hs Ha).
  - by rewrite handles_upto_all, wait_error_all, firstn_all2 by lia.
  - done.
  - intros j pc _ Hj. apply Hok. by eapply list_elem_of_lookup_2.
  - intros pc Hpc. apply lookup_lt_Some in Hpc. lia.
Qed.

(** A group that is marked ready: [mustReady] creates no event. It
    receives from every member, returns the stored handles and leaves the
    timeline, its files and the clock as they are. *)
Lemma mustReady_ready_is_silent_aux env wc s pcs :
  isReady wc = true ->
  arrays s !! pending wc = Some (Some <$> pcs) ->
  (forall pc, pc ∈ pcs -> slot_resolved_ok s pc) ->
  run env (mustReady wc) s =
    (Done (ready_group wc, slot_container s <$> pcs),
     add_obs (ORecv <$> pcs) s).
Proof.
  intros Hready Ha Hok. unfold mustReady. rewrite Hready. cbn [negb].
  rewrite run_bind. cbn [run]. rewrite run_bind.
  rewrite (run_waitReady_ok env wc s s pcs eq_refl Ha Hok). cbn [snd fst].
  rewrite run_bind. cbn [Event_finish run]. reflexivity.
Qed.

(** A group that is marked ready: [mustReady] creates no event. It
    receives from every member, returns the stored handles and leaves the
    timeline, its files and the clock as they are. *)
Theorem mustReady_ready_is_silent env wc s pcs :
  isReady wc = true ->
  arrays s !! pending wc = Some (Some <$> pcs) ->
  (forall pc, pc ∈ pcs -> slot_resolved_ok s pc) ->
  run env (mustReady wc) s =
    (Done (ready_group wc, slot_container s <$> pcs),
     add_obs (ORecv <$> pcs) s).
Proof. apply mustReady_ready_is_silent_aux. Qed.

Example webSetup_result :
  exists w, fst (run sampleEnv webSetup initialSys) = Done (w, webGroup).
Proof. eexists. vm_compute. reflexivity. Qed.

Lemma webState_resolved pc :
  pc ∈ [0; 1]%nat -> slot_resolved_ok webState pc.
Proof.
  intros H. repeat (apply elem_of_cons in H as [->|H]);
    [eexists; split; [reflexivity|split; reflexivity]..|by apply elem_of_nil in H].
Qed.

Lemma mustReady_ready_is_silent_witness :
  isReady (ready_group webGroup) = true /\
  arrays webState !! pending (ready_group webGroup) = Some (Some <$> [0; 1]%nat) /\
  (forall pc, pc ∈ [0; 1]%nat -> slot_resolved_ok webState pc) /\
  run sampleEnv (mustReady (ready_group webGroup)) webState =
    (Done (ready_group webGroup, [Some 11%nat; Some 11%nat]),
     add_obs [ORecv 0%nat; ORecv 1%nat] webState).
Proof.
  split; [reflexivity|]. split; [reflexivity|]. split; [exact webState_resolved|].
  exact (mustReady_ready_is_silent sampleEnv (ready_group webGroup) webState
           [0; 1]%nat eq_refl eq_refl webState_resolved).
Defined.

(** [Await] twice on a new group whose members are all provisioned: the
    first call records one event, described by the group's name and the
    word await, and finishes it; the second call records none. Both return
    the group marked ready. *)
Theorem Await_records_one_event env wc s pcs :
  rw (wlog s) = false -> world (wlog s) = true ->
  createFails env (event_path (wlog s) (eventCounter (wlog s))) = false ->
  isReady wc = false ->
  arrays s !! pending wc = Some (Some <$> pcs) ->
  (forall pc, pc ∈ pcs -> slot_resolved_ok s pc) ->
  exists s',
    run env (wc1 <- Await wc ;; Await wc1) s = (Done (ready_group wc), s') /\
    events (wlog s') = events (wlog s) ++ [length (evheap s)] /\
    evheap s' !! length (evheap s) =
      Some {| id := eventCounter (wlog s);
              description := Name wc +:+ ": await";
              ev_startTime := clock env (tick s);
              ev_finishTime := clock env (S (tick s));
              log := Some (event_path (wlog s) (eventCounter (wlog s))) |} /\
    length (evheap s') = S (length (evheap s)) /\
    own_obs (obs_since (length (trace s)) s') =
      (ORecv <$> pcs) ++ (ORecv <$> pcs).
Proof.
  intros Hrw Hw Hc Hnr Ha Hok.
  destruct (run_newEvent_exact env (Name wc +:+ ": await") s Hrw Hw)
    as (s1 & Hr1 & (Hs1 & Ha1 & _) & _ & _ & Hev1 & _ & Hh1 & _ & Ht1 & Htk1).
  cbv zeta in *. rewrite Hc in *.
  set (path := event_path (wlog s) (eventCounter (wlog s))) in *.
  set (s2 := add_obs (ORecv <$> pcs) s1).
  assert (He2 : evheap s2 !! length (evheap s) =
                Some (started_event (eventCounter (wlog s)) (Name wc +:+ ": await")
                        (clock env (tick s)) (Some path))).
  { subst s2. cbn [evheap add_obs]. by rewrite Hh1, heap_lookup_new. }
  destruct (run_Event_finish_exact env (length (evheap s)) _ path s2 He2 eq_refl)
    as (s3 & Hr3 & (Hs3 & Ha3 & _) & Hl3 & Hh3 & _ & Ht3 & _).
  cbv zeta in *.
  assert (Hfirst : run env (mustReady wc) s =
            (Done (ready_group wc, slot_container s <$> pcs), s3)).
  { unfold mustReady. rewrite Hnr. cbn [negb]. rewrite run_bind, Hr1, run_bind.
    rewrite (run_waitReady_ok env wc s s1 pcs Hs1); [|by rewrite Ha1|done].
    cbn [snd fst]. fold s2. by rewrite run_bind, Hr3. }
  assert (Hok3 : forall pc, pc ∈ pcs -> slot_resolved_ok s3 pc).
  { intros pc Hpc. destruct (Hok pc Hpc) as (p & Hp & Hrp).
    exists p. split; [|done]. rewrite Hs3. subst s2. cbn [slots add_obs].
    by rewrite Hs1. }
  assert (Ha3' : arrays s3 !! pending (ready_group wc) = Some (Some <$> pcs)).
  { rewrite Ha3. subst s2. cbn [arrays add_obs pending ready_group].
    by rewrite Ha1. }
  pose proof (mustReady_ready_is_silent_aux env (ready_group wc) s3 pcs
                eq_refl Ha3' Hok3) as Hsecond.
  exists (add_obs (ORecv <$> pcs) s3). split.
  { unfold Await. rewrite !run_bind, Hfirst. cbn [run fst].
    rewrite run_bind, Hsecond. reflexivity. }
  cbn [wlog evheap add_obs trace]. rewrite Hl3, Hh3.
  subst s2. cbn [wlog evheap add_obs trace tick] in *.
  split; [done|]. split.
  { rewrite list_lookup_alter_eq, Hh1, heap_lookup_new. cbn. by rewrite Htk1. }
  split; [by rewrite length_alter, Hh1, length_app, Nat.add_comm|].
  unfold obs_since. cbn [trace add_obs]. rewrite Ht3, Ht1.
  rewrite <- !app_assoc, drop_app_length.
  rewrite !own_obs_app, !own_obs_recv, !own_obs_event. cbn [app].
  reflexivity.
Qed.

Lemma Await_records_one_event_witness :
  rw (wlog webState) = false /\ world (wlog webState) = true /\
  createFails sampleEnv
    (event_path (wlog webState) (eventCounter (wlog webState))) = false /\
  isReady webGroup = false /\
  arrays webState !! pending webGroup = Some (Some <$> [0; 1]%nat) /\
  (forall pc, pc ∈ [0; 1]%nat -> slot_resolved_ok webState pc) /\
  exists s',
    run sampleEnv (wc1 <- Await webGroup ;; Await wc1) webState =
      (Done (ready_group webGroup), s') /\
    events (wlog s') = events (wlog webState) ++ [2%nat] /\
    length (evheap s') = 3%nat.
Proof.
  split; [reflexivity|]. split; [reflexivity|]. split; [reflexivity|].
  split; [reflexivity|]. split; [reflexivity|]. split; [exact webState_resolved|].
  destruct (Await_records_one_event sampleEnv webGroup webState [0; 1]%nat
              eq_refl eq_refl eq_refl eq_refl eq_refl webState_resolved)
    as (s' & Hr & Hev & _ & Hlen & _).
  exists s'. split; [exact Hr|]. split; [exact Hev|exact Hlen].
Defined.

(** ** Finalizing *)

Lemma appended_refl s : appended s s.
Proof. split; [apply only_combined_refl|done]. Qed.

Lemma appended_trans s1 s2 s3 : appended s1 s2 -> appended s2 s3 -> appended s1 s3.
Proof.
  intros (A1&A2&A3) (B1&B2&B3). split; [by eapply only_combined_trans|].
  split; [congruence|]. intros H. rewrite B3, A3; [done..|congruence].
Qed.

Lemma run_WriteCombined_appended env d s :
  exists r s', run env (trigger (EWriteCombined d)) s = (Done r, s') /\
               appended s s' /\ (combinedClosed s = true -> is_Some r).
Proof.
  cbn [trigger run handle]. destruct (combinedClosed s) eqn:Hc.
  - eexists _, s. split; [reflexivity|]. split; [apply appended_refl|].
    intros _. by eexists.
  - eexists _, _. split; [reflexivity|]. split; [|done].
    unfold appended, only_combined. cbn. by rewrite Hc.
Qed.

Lemma run_gantt_loop_appended env (el : WorldLog) evs : forall s,
  Forall (fun ev => is_Some (evheap s !! ev)) evs ->
  exists s',
    run env (for_each evs (fun ev =>
      e <- trigger (EGetEvent ev) ;;
      trigger (EWriteCombined
        (gantt_line (startTime el) (finishTime el) (totalDuration el) e)) ;;;
      Ret tt)) s = (Done tt, s') /\
    appended s s'.
Proof.
  induction evs as [|ev evs IH]; intros s Hall.
  - exists s. split; [done|apply appended_refl].
  - apply Forall_cons in Hall as [[e He] Hall].
    assert (Hg : run env (trigger (EGetEvent ev)) s = (Done e, s)).
    { cbn [trigger run handle Resp]. by rewrite He. }
    destruct (run_WriteCombined_appended env
      (gantt_line (startTime el) (finishTime el) (totalDuration el) e) s)
      as (r & s1 & Hr1 & Hw1 & _).
    rewrite run_for_each_cons, run_bind, Hg, run_bind, Hr1. cbn [run].
    destruct (IH s1) as (s2 & Hr2 & Hw2).
    { destruct Hw1 as ((_&H&_)&_). by rewrite H. }
    exists s2. split; [done|]. by eapply appended_trans.
Qed.

Lemma run_printGantt_appended env s :
  wf_log s ->
  exists s', run env printGantt s = (Done tt, s') /\ appended s s'.
Proof.
  intros [_ Hall]. unfold printGantt. rewrite run_bind.
  cbn [trigger run handle Resp].
  destruct (world (wlog s)); cbn [negb].
  2:{ exists s. split; [done|apply appended_refl]. }
  rewrite run_bind.
  edestruct (run_WriteCombined_appended env) as (r1 & s1 & -> & Hc1 & _).
  rewrite run_bind.
  edestruct (run_WriteCombined_appended env) as (r2 & s2 & -> & Hc2 & _).
  rewrite run_bind.
  edestruct (run_WriteCombined_appended env) as (r3 & s3 & -> & Hc3 & _).
  pose proof (appended_trans _ _ _ Hc1 (appended_trans _ _ _ Hc2 Hc3)) as Hc.
  destruct (run_gantt_loop_appended env (wlog s) (events (wlog s)) s3)
    as (s4 & Hr4 & Hc4).
  { destruct Hc as ((_&H&_)&_). by rewrite H. }
  exists s4. split; [exact Hr4|]. by eapply appended_trans.
Qed.

Lemma run_copy_event_logs_appended env dir : forall names s,
  (forall f, f ∈ names -> is_Some (file_lookup (path_join dir f) (evfiles s))) ->
  exists r s', run env (copy_event_logs dir names) s = (Done r, s') /\
               appended s s' /\
               (combinedClosed s = true -> names <> [] -> is_Some r).
Proof.
  induction names as [|f names IH]; intros s Hall.
  - exists None, s. split; [done|]. split; [apply appended_refl|done].
  - cbn [copy_event_logs]. destruct (Hall f) as [d Hd]; [by left|].
    assert (Hg : run env (trigger (EReadFile (path_join dir f))) s =
                 (Done (inl (content d)), s)).
    { cbn [trigger run handle Resp]. by rewrite Hd. }
    destruct (run_WriteCombined_appended env (content d) s)
      as (r1 & s1 & Hr1 & Hw1 & Hcl1).
    rewrite run_bind, Hg, run_bind, Hr1. destruct r1 as [err|].
    + eexists _, s1. split; [reflexivity|]. split; [done|]. intros _ _. by eexists.
    + destruct (IH s1) as (r & s2 & Hr2 & Hw2 & _).
      { intros f' Hin. destruct Hw1 as ((_&_&_&_&_&H&_)&_). rewrite H.
        apply Hall. by right. }
      exists r, s2. split; [done|]. split; [by eapply appended_trans|].
      intros Hc _. by destruct (Hcl1 Hc).
Qed.

(** [WorldLog.finish] on an enabled log, whatever the state of the combined
    log. *)
Lemma run_WorldLog_finish_closes env s :
  wf_log s -> world (wlog s) = true ->
  exists r s',
    run env WorldLog_finish s = (Done r, s') /\
    combinedClosed s' = true /\
    finishTime (wlog s') = clock env (tick s) /\
    evfiles s' = evfiles s /\
    (combinedClosed s = true ->
       combined s' = combined s /\
       (ReadDir (eventsDir (wlog s)) (evfiles s) <> [] -> is_Some r)).
Proof.
  intros Hwf Hw. unfold WorldLog_finish.
  rewrite run_bind. cbn [trigger run handle Resp]. rewrite Hw. cbn [negb].
  rewrite run_bind. cbn [trigger run handle Resp].
  rewrite run_bind. cbn [trigger run handle Resp].
  set (s1 := observe OFinalize _).
  assert (Hwf1 : wf_log s1) by (destruct Hwf; by split).
  destruct (run_printGantt_appended env s1 Hwf1) as (s2 & Hr2 & Hc2).
  rewrite run_bind, Hr2.
  destruct (run_WriteCombined_appended env (line (LF +:+ LF +:+ "Event Logs:")) s2)
    as (r3 & s3 & Hr3 & Hc3 & _).
  cbn [Resp] in Hr3. rewrite run_bind, Hr3.
  pose proof (appended_trans _ _ _ Hc2 Hc3) as Hc23.
  rewrite run_bind. cbn [trigger run handle Resp].
  destruct (run_copy_event_logs_appended env (eventsDir (wlog s))
              (ReadDir (eventsDir (wlog s)) (evfiles s3)) s3)
    as (r & s4 & Hr4 & Hc4 & Hfail).
  { intros f. apply ReadDir_lookup. }
  rewrite run_bind, Hr4.
  pose proof (appended_trans _ _ _ Hc23 Hc4) as Hc14.
  destruct Hc14 as ((Hl4&_&_&_&_&Hfs4&_)&Hcl4&Hsame).
  destruct Hc23 as ((_&_&_&_&_&Hfs3&_)&Hcl3&_).
  assert (Hrest : forall r : option string,
    (combinedClosed s = true ->
       ReadDir (eventsDir (wlog s)) (evfiles s) <> [] -> is_Some r) ->
    forall s5, combinedClosed s5 = true -> wlog s5 = wlog s4 ->
      evfiles s5 = evfiles s4 -> combined s5 = combined s4 ->
      combinedClosed s5 = true /\
      finishTime (wlog s5) = clock env (tick s) /\
      evfiles s5 = evfiles s /\
      (combinedClosed s = true ->
         combined s5 = combined s /\
         (ReadDir (eventsDir (wlog s)) (evfiles s) <> [] -> is_Some r))).
  { intros r' Hr' s5 H1 H2 H3 H4. split; [done|]. rewrite H2, H3, H4, Hl4, Hfs4.
    split; [done|]. split; [done|]. intros Hc. split; [by apply Hsame|by apply Hr']. }
  destruct r as [err|].
  - rewrite run_bind. cbn [trigger run handle]. eexists _, _.
    split; [reflexivity|]. apply Hrest; try done; intros _ _; by eexists.
  - rewrite run_bind. cbn [trigger run handle].
    rewrite run_bind. cbn [trigger run handle].
    eexists _, _. split; [reflexivity|]. apply Hrest; try done.
    intros Hc Hne. apply Hfail.
    + by rewrite Hcl3.
    + by rewrite Hfs3.
Qed.



(** ** Creating the log *)



(** ** The registry of groups *)

Lemma has_byte_app c a b : has_byte c (a +:+ b) = has_byte c a || has_byte c b.
Proof.
  induction a as [|x a IH]; [done|].
  change (String x a +:+ b) with (String x (a +:+ b)). cbn [has_byte].
  by rewrite IH, orb_assoc.
Qed.

Lemma pretty_N_go_no_dash x : forall s,
  has_byte "-" (pretty_N_go x s) = has_byte "-" s.
Proof.
  induction (N.lt_wf_0 x) as [x _ IH]; intros s.
  destruct (decide (x = 0)%N) as [->|Hx]; [by rewrite pretty_N_go_0|].
  rewrite pretty_N_go_step by lia. rewrite IH by (apply N.div_lt; lia).
  cbn [has_byte]. unfold pretty_N_char. by repeat case_match.
Qed.

Lemma fmt_d_no_dash z : 0 <= z -> has_byte "-" (fmt_d z) = false.
Proof.
  intros Hz. unfold fmt_d, pretty, pretty_Z. destruct z as [|p|p]; [done| |lia].
  unfold pretty, pretty_positive, pretty, pretty_N.
  destruct (decide _); [done|]. by rewrite pretty_N_go_no_dash.
Qed.

(** A string is split at its last dash in one way only. *)
Lemma split_last_dash k1 : forall k2 d1 d2,
  has_byte "-" d1 = false -> has_byte "-" d2 = false ->
  k1 +:+ "-" +:+ d1 = k2 +:+ "-" +:+ d2 -> k1 = k2 /\ d1 = d2.
Proof.
  induction k1 as [|a k1 IH]; intros [|b k2] d1 d2 H1 H2 Heq.
  - by injection Heq.
  - change ("" +:+ "-" +:+ d1) with (String "-" d1) in Heq.
    change (String b k2 +:+ "-" +:+ d2) with (String b (k2 +:+ "-" +:+ d2)) in Heq.
    injection Heq as _ Hd. rewrite Hd, !has_byte_app in H1.
    cbn in H1. by rewrite orb_true_r in H1.
  - change ("" +:+ "-" +:+ d2) with (String "-" d2) in Heq.
    change (String a k1 +:+ "-" +:+ d1) with (String a (k1 +:+ "-" +:+ d1)) in Heq.
    injection Heq as _ Hd. rewrite <- Hd, !has_byte_app in H2.
    cbn in H2. by rewrite orb_true_r in H2.
  - change (String a k1 +:+ "-" +:+ d1) with (String a (k1 +:+ "-" +:+ d1)) in Heq.
    change (String b k2 +:+ "-" +:+ d2) with (String b (k2 +:+ "-" +:+ d2)) in Heq.
    injection Heq as -> Heq. destruct (IH k2 d1 d2 H1 H2 Heq) as [-> ->]. done.
Qed.

(** Within a world, the name of a group determines its kind and its number,
    as long as the numbers are not negative. *)
Lemma group_name_inj_kind nm k1 k2 a b :
  0 <= a -> 0 <= b ->
  nm +:+ "-" +:+ k1 +:+ "-" +:+ fmt_d a = nm +:+ "-" +:+ k2 +:+ "-" +:+ fmt_d b ->
  k1 = k2 /\ a = b.
Proof.
  intros Ha Hb H. do 2 apply String.app_inj in H.
  apply split_last_dash in H as [-> H]; [|by apply fmt_d_no_dash..].
  split; [done|]. by apply fmt_d_inj.
Qed.

Lemma register_other wcs : forall m key,
  key ∉ Name <$> wcs -> register m wcs !! key = m !! key.
Proof.
  induction wcs as [|wc wcs IH]; intros m key Hnin; [done|].
  cbn [register foldl]. fold (register (<[Name wc := wc]> m) wcs).
  rewrite IH.
  - apply lookup_insert_ne. intros Heq. apply Hnin. rewrite <- Heq. by left.
  - intros Hin. apply Hnin. by right.
Qed.

Lemma register_lookup wcs : forall m wc,
  NoDup (Name <$> wcs) -> wc ∈ wcs -> register m wcs !! Name wc = Some wc.
Proof.
  induction wcs as [|wc0 wcs IH]; intros m wc Hnd Hin; [by inversion Hin|].
  cbn in Hnd. apply NoDup_cons in Hnd as [Hnin Hnd].
  cbn [register foldl]. fold (register (<[Name wc0 := wc0]> m) wcs).
  apply elem_of_cons in Hin as [->|Hin].
  - rewrite register_other by done. apply lookup_insert_eq.
  - by apply IH.
Qed.

(** The state after a sequence of [NewContainer] calls. *)
Lemma run_NewContainers_state env specs : forall w s,
  exists w' wcs s',
    run env (NewContainers w specs) s = (Done (w', wcs), s') /\
    length wcs = length specs /\
    name w' = name w /\ cn w' = cn w /\
    containers w' = register (containers w) wcs /\
    wlog s' = wlog s /\ evheap s' = evheap s /\ evfiles s' = evfiles s /\
    combined s' = combined s /\ combinedClosed s' = combinedClosed s /\
    tick s' = tick s /\ trace s' = trace s /\
    (exists newslots ts,
       slots s' = slots s ++ newslots /\
       Forall (fun p => pc_ready p = false) newslots /\
       spawned s' = spawned s ++ ts /\
       task_slot <$> ts = seq (length (slots s)) (length newslots)) /\
    (exists newarrays, arrays s' = arrays s ++ newarrays) /\
    forall wc, wc ∈ wcs ->
      exists pcs, arrays s' !! pending wc = Some (Some <$> pcs) /\
        forall pc, pc ∈ pcs ->
          (length (slots s) <= pc < length (slots s'))%nat.
Proof.
  induction specs as [|spec rest IH]; intros w s.
  - exists w, [], s. split; [done|]. split_and!; try done.
    + exists [], []. by rewrite !app_nil_r.
    + exists []. by rewrite app_nil_r.
    + intros wc Hwc. by inversion Hwc.
  - cbn [NewContainers].
    destruct (run_NewContainer env w spec s)
      as (s1 & Hr1 & Hs1 & Ha1 & Hsp1 & Hl1 & Hh1 & Hf1 & Hc1 & Hcc1 & Htk1 & Ht1).
    rewrite run_bind, Hr1. cbn [fst snd].
    set (wc1 := {| Name := group_name w spec; isReady := false;
                   pending := length (arrays s);
                   onDestroy := OnDestroy spec |}) in *.
    set (w1 := {| name := name w; cn := cn w;
                  containers := <[group_name w spec := wc1]> (containers w);
                  containerKinds := _ |}) in *.
    destruct (IH w1 s1) as (w' & wcs & s' & Hr & Hlen & Hn & Hcn & Hreg & Hl & Hh
                              & Hf & Hc & Hcc & Htk & Ht
                              & (ns & ts & Hs & Hns & Hsp & Hts) & (na & Ha) & Hpcs).
    rewrite run_bind, Hr. cbn [run fst snd].
    set (n := replica_count spec) in *.
    exists w', (wc1 :: wcs), s'. split; [done|].
    split; [cbn; lia|]. split; [done|]. split; [done|]. split; [done|].
    split; [congruence|]. split; [congruence|]. split; [congruence|].
    split; [congruence|]. split; [congruence|]. split; [congruence|].
    split; [congruence|].
    assert (Hlen1 : length (slots s1) = (length (slots s) + n)%nat).
    { by rewrite Hs1, length_app, length_map, length_seq. }
    split; [|split].
    + eexists (_ ++ ns), (_ ++ ts). split.
      { rewrite Hs, Hs1, <- app_assoc. reflexivity. }
      split.
      { apply Forall_app. split; [|done]. apply Forall_forall.
        intros p Hp. change (map ?f ?l) with (f <$> l) in Hp.
        apply list_elem_of_fmap in Hp as (i & -> & _). done. }
      split.
      { rewrite Hsp, Hsp1, <- app_assoc. reflexivity. }
      rewrite fmap_app, Hts, Hlen1, !length_app, length_map, length_seq.
      rewrite seq_app. f_equal.
      change (map ?f ?l) with (f <$> l). rewrite <- list_fmap_compose.
      apply list_eq. intros i. rewrite list_lookup_fmap.
      destruct (decide (i < n)%nat).
      * by rewrite !lookup_seq_lt by done.
      * by rewrite !lookup_seq_ge by lia.
    + eexists. rewrite Ha, Ha1, <- app_assoc. reflexivity.
    + intros wc Hwc. apply elem_of_cons in Hwc as [->|Hwc].
      * exists ((fun i => length (slots s) + i)%nat <$> seq 0 n). split.
        { cbn [pending wc1]. rewrite Ha, Ha1, <- app_assoc.
          rewrite lookup_app_r, Nat.sub_diag by lia. cbn.
          change (map ?f ?l) with (f <$> l). by rewrite <- list_fmap_compose. }
        intros pc (i & -> & Hi%elem_of_seq)%list_elem_of_fmap.
        rewrite Hs, length_app. lia.
      * destruct (Hpcs wc Hwc) as (pcs & Hp & Hrange). exists pcs.
        split; [done|]. intros pc Hpc. specialize (Hrange pc Hpc). lia.
Qed.

Lemma count_kind_take_pos kind specs i sp :
  specs !! i = Some sp -> kind_of_spec sp = kind ->
  1 <= count_kind kind (take (S i) specs).
Proof.
  intros Hi Hk. rewrite (take_S_r specs i sp Hi).
  unfold count_kind. rewrite filter_app, length_app, filter_cons, decide_True by done.
  cbn [filter length]. lia.
Qed.

(** The names of the groups a sequence of [NewContainer] calls creates are
    pairwise distinct, whatever their kinds. *)
Lemma NewContainers_names_distinct env specs w s w' wcs s' :
  counters_ok w (length specs) ->
  run env (NewContainers w specs) s = (Done (w', wcs), s') ->
  NoDup (Name <$> wcs).
Proof.
  intros Hok Hrun.
  destruct (run_NewContainers env specs w s Hok) as (w2 & wcs2 & s2 & Hrun2 & Hnames).
  rewrite Hrun in Hrun2. simplify_eq.
  destruct (run_NewContainers_state env specs w s)
    as (w3 & wcs3 & s3 & Hrun3 & Hlen & _).
  rewrite Hrun in Hrun3. simplify_eq.
  assert (Hlt : forall i j x, (i < j)%nat ->
            (Name <$> wcs3) !! i = Some x -> (Name <$> wcs3) !! j = Some x -> False).
  { intros i j x Hij Hi Hj. rewrite list_lookup_fmap in Hi, Hj.
    destruct (wcs3 !! i) as [wci|] eqn:Hwi; [|done].
    destruct (wcs3 !! j) as [wcj|] eqn:Hwj; [|done].
    cbn in Hi, Hj. injection Hi as Hi. injection Hj as Hj.
    rewrite <- Hi in Hj. clear Hi x.
    destruct (specs !! i) as [spi|] eqn:Hsi.
    2:{ apply lookup_ge_None in Hsi. apply lookup_lt_Some in Hwi. lia. }
    destruct (specs !! j) as [spj|] eqn:Hsj.
    2:{ apply lookup_ge_None in Hsj. apply lookup_lt_Some in Hwj. lia. }
    pose proof (Hnames i spi wci Hsi Hwi) as Hni.
    pose proof (Hnames j spj wcj Hsj Hwj) as Hnj.
    rewrite Hj, Hni in Hnj.
    destruct (Hok (kind_of_spec spi)) as [Hi0 _].
    destruct (Hok (kind_of_spec spj)) as [Hj0 _].
    pose proof (count_kind_nonneg (kind_of_spec spi) (take (S i) specs)).
    pose proof (count_kind_nonneg (kind_of_spec spj) (take (S j) specs)).
    apply group_name_inj_kind in Hnj as [Hk Hc]; [|lia..].
    rewrite <- Hk in Hc.
    pose proof (count_kind_take_lt (kind_of_spec spi) specs i j spj Hij Hsj
                  (eq_sym Hk)). lia. }
  apply NoDup_alt. intros i j x Hi Hj.
  destruct (Nat.lt_trichotomy i j) as [Hij|[Hij|Hij]]; [|done|].
  - by destruct (Hlt i j x).
  - by destruct (Hlt j i x).
Qed.

(** Every group a sequence of [NewContainer] calls returns stays in the
    registry of the world under its own name: the names of the groups are
    pairwise distinct across kinds, so no call overwrites the entry of an
    earlier one, and the entries the world had under other names are kept. *)
Theorem NewContainers_registered env w specs s :
  counters_ok w (length specs) ->
  exists w' wcs s',
    run env (NewContainers w specs) s = (Done (w', wcs), s') /\
    length wcs = length specs /\
    NoDup (Name <$> wcs) /\
    (forall wc, wc ∈ wcs -> containers w' !! Name wc = Some wc) /\
    (forall key, key ∉ Name <$> wcs ->
       containers w' !! key = containers w !! key).
Proof.
  intros Hok.
  destruct (run_NewContainers_state env specs w s)
    as (w' & wcs & s' & Hrun & Hlen & _ & _ & Hreg & _).
  pose proof (NewContainers_names_distinct env specs w s w' wcs s' Hok Hrun) as Hnd.
  exists w', wcs, s'. split; [done|]. split; [done|]. split; [done|].
  rewrite Hreg. split.
  - intros wc Hwc. by apply register_lookup.
  - intros key Hkey. by apply register_other.
Qed.

Lemma sampleWorld_counters n :
  Z.of_nat n <= maxInt64 -> counters_ok sampleWorld n.
Proof.
  intros Hn kind. cbn [sampleWorld containerKinds]. rewrite lookup_empty.
  cbn. lia.
Qed.

(** An instance: two groups of one kind around a group of another. *)
Lemma NewContainers_registered_witness :
  counters_ok sampleWorld (length [alpineSpec; webSpec; alpineSpec]) /\
  exists w' wcs s',
    run sampleEnv (NewContainers sampleWorld [alpineSpec; webSpec; alpineSpec])
      initialSys = (Done (w', wcs), s') /\
    Name <$> wcs = ["T-alpine-1"; "T-nginx-1"; "T-alpine-2"] /\
    forall wc, wc ∈ wcs -> containers w' !! Name wc = Some wc.
Proof.
  assert (Hok : counters_ok sampleWorld (length [alpineSpec; webSpec; alpineSpec])).
  { apply sampleWorld_counters. by vm_compute. }
  split; [exact Hok|].
  destruct (NewContainers_registered sampleEnv sampleWorld
              [alpineSpec; webSpec; alpineSpec] initialSys Hok)
    as (w' & wcs & s' & Hr & _ & _ & Hreg & _).
  exists w', wcs, s'. split; [exact Hr|]. split; [|exact Hreg].
  assert (Hfst : fst (run sampleEnv
            (NewContainers sampleWorld [alpineSpec; webSpec; alpineSpec])
            initialSys) = Done (w', wcs)) by (by rewrite Hr).
  vm_compute in Hfst. by injection Hfst as _ <-.
Defined.

(** ** From creation to teardown *)








(** The same run, evaluated, with the registry visited in the order of
    creation: the first group's second member failed to be created and is
    only reported; all others are terminated. *)
Example lifecycle_sample_trace :
  let r1 := run sampleEnv (NewContainers sampleWorld [awaitedSpec; webSpec])
              sampleLogged in
  let w' := match fst r1 with Done (w', _) => Some w' | _ => None end in
  let s2 := snd (run_spawned sampleEnv (snd r1)) in
  let s3 := snd (run sampleEnv (Destroy w' ["T-alpine-1"; "T-nginx-1"]) s2) in
  omap (fun o => match o with
                 | OTerminate c _ => Some (inl c)
                 | OLog m => if String.prefix "Container" m then Some (inr m)
                             else None
                 | _ => None
                 end) (obs_since (length (trace s2)) s3) =
  [inl (Some 12%nat);
   inr "Container  T-alpine-1-2  failed to create:  boom";
   inl (Some 12%nat); inl (Some 11%nat); inl (Some 11%nat)].
Proof. vm_compute. reflexivity. Qed.

(** ** The harness and the operations on containers *)

Lemma xrun_bind {A B} env xenv (m : XProg A) (f : A -> XProg B) s :
  xrun env xenv (xbind m f) s =
  match xrun env xenv m s with
  | (Done a, s') => xrun env xenv (f a) s'
  | (Exited, s') => (Exited, s')
  | (Panicked msg, s') => (Panicked msg, s')
  | (Blocked, s') => (Blocked, s')
  end.
Proof.
  revert s. induction m as [a| |msg|B0 q k IH|e k IH]; intros s; cbn; try done.
  destruct (run env q (base s)) as [[b| |msg|] s']; cbn; auto.
Qed.

Lemma xrun_xbase {A} env xenv (p : Prog A) s :
  xrun env xenv (xbase p) s =
  (fst (run env p (base s)), set_base (snd (run env p (base s))) s).
Proof.
  unfold xbase. cbn. by destruct (run env p (base s)) as [[b| |msg|] s'].
Qed.

Lemma xrun_xfor_range_cons {A} env xenv i (x : A) l body s :
  xrun env xenv (xfor_range i (x :: l) body) s =
  match xrun env xenv (body i x) s with
  | (Done _, s') => xrun env xenv (xfor_range (S i) l body) s'
  | (Exited, s') => (Exited, s')
  | (Panicked msg, s') => (Panicked msg, s')
  | (Blocked, s') => (Blocked, s')
  end.
Proof. cbn [xfor_range]. by rewrite xrun_bind. Qed.

Lemma xyields_refl s : xyields s s [] [].
Proof. split; [apply yields_refl|by rewrite app_nil_r]. Qed.

Lemma xyields_trans s1 s2 s3 a b x y :
  xyields s1 s2 a x -> xyields s2 s3 b y -> xyields s1 s3 (a ++ b) (x ++ y).
Proof.
  intros [A1 A2] [B1 B2]. split; [by eapply yields_trans|].
  by rewrite B2, A2, app_assoc.
Qed.

Lemma xyields_base s b obs :
  yields (base s) b obs -> xyields s (set_base b s) obs [].
Proof. intros H. split; [done|]. cbn. by rewrite app_nil_r. Qed.

Lemma xyields_observe s os : xyields s (xobserve os s) [] os.
Proof. split; [apply yields_refl|done]. Qed.

Lemma yields_add_obs s os : yields s (add_obs os s) (own_obs os).
Proof. by apply (yields_same s (add_obs os s) os). Qed.

(** [mustReady] on a group whose first [k] members are provisioned and
    whose member [k], if there is one, failed. *)
Lemma run_mustReady env wc s pcs k :
  wf_log s ->
  arrays s !! pending wc = Some (Some <$> pcs) ->
  (k <= length pcs)%nat ->
  (forall j pc, (j < k)%nat -> pcs !! j = Some pc -> slot_resolved_ok s pc) ->
  (forall pc, pcs !! k = Some pc -> exists nm e, slot_failed s pc nm e) ->
  exists s',
    run env (mustReady wc) s =
      (match wait_error s pcs k with
       | Some _ => Exited
       | None => Done (ready_group wc, handles_upto s pcs k)
       end, s') /\
    yields s s' ((ORecv <$> take (S k) pcs) ++ ready_fatal wc s pcs k).
Proof.
  intros Hwf Ha Hk Hok Hfail.
  assert (Hev : exists r s1,
    run env (if negb (isReady wc) then newEvent (Name wc +:+ ": await")
             else Ret None) s = (Done r, s1) /\ quiet s s1 /\
    forall ev, r = Some ev -> ev_live s1 ev).
  { destruct (isReady wc); cbn [negb].
    - exists None, s. split; [done|]. split; [apply quiet_refl|done].
    - destruct (run_newEvent env (Name wc +:+ ": await") s Hwf)
        as (r & s1 & Hr & Hq & Hl).
      exists r, s1. split; [done|]. split; [done|].
      intros ev Hev. destruct (Hl ev Hev) as (e & f & ? & ? & _).
      by exists e, f. }
  destruct Hev as (r & s1 & Hr1 & Hq1 & Hl1).
  pose proof Hq1 as (Hs1 & Ha1 & _).
  assert (Hwait := run_waitReady env wc s s1 pcs k Hs1
                     ltac:(by rewrite Ha1) Hk Hok Hfail).
  set (s2 := add_obs (ORecv <$> take (S k) pcs) s1) in *.
  assert (Hy2 : yields s s2 (ORecv <$> take (S k) pcs)).
  { eapply yields_quiet_l; [exact Hq1|].
    rewrite <- (own_obs_recv (take (S k) pcs)). apply yields_add_obs. }
  unfold mustReady, ready_fatal. rewrite run_bind, Hr1, run_bind, Hwait.
  cbn [snd fst]. destruct (wait_error s pcs k) as [err|].
  - set (msg := "Container " +:+ Name wc +:+ " failed to create: " +:+ err).
    destruct (run_Event_finish env r (observe (OFatal msg) s2))
      as (s4 & Hr4 & Hq4).
    { intros ev Hev. by apply Hl1. }
    exists s4. rewrite run_bind. cbn [trigger run handle].
    rewrite run_bind. fold msg. rewrite Hr4. split; [done|].
    eapply yields_quiet_r; [|exact Hq4].
    eapply yields_trans; [exact Hy2|]. by apply yields_observe.
  - destruct (run_Event_finish env r s2) as (s4 & Hr4 & Hq4).
    { intros ev Hev. by apply Hl1. }
    exists s4. rewrite run_bind, Hr4. split; [done|].
    rewrite app_nil_r. by eapply yields_quiet_r.
Qed.

(** A loop over the members whose body either goes on, or ends the
    goroutine with a fatal report: it stops at the first member of the
    second sort. *)
Lemma xrun_xfor_range {A} env xenv (body : nat -> A -> XProg unit)
    (good : nat -> A -> bool) (fatal : nat -> A -> Obs) (xo : A -> XObs)
    (b0 : Sys) (n : nat) :
  (forall i c s, (i < n)%nat -> wf_log (base s) -> slots (base s) = slots b0 ->
     arrays (base s) = arrays b0 ->
     exists s',
       xrun env xenv (body i c) s =
         (if good i c then Done tt else Exited, s') /\
       xyields s s' (if good i c then [] else [fatal i c]) [xo c]) ->
  forall l i k s,
    wf_log (base s) -> slots (base s) = slots b0 -> arrays (base s) = arrays b0 ->
    (k <= length l)%nat -> (i + length l <= n)%nat ->
    (forall j c, (j < k)%nat -> l !! j = Some c -> good (i + j)%nat c = true) ->
    (forall c, l !! k = Some c -> good (i + k)%nat c = false) ->
    exists s',
      xrun env xenv (xfor_range i l body) s =
        (match l !! k with Some _ => Exited | None => Done tt end, s') /\
      xyields s s'
        (match l !! k with Some c => [fatal (i + k)%nat c] | None => [] end)
        (xo <$> take (S k) l).
Proof.
  intros Hbody. induction l as [|c l IH]; intros i k s Hwf Hs Ha Hk Hn Hgood Hbad.
  - exists s. split; [done|]. cbn. apply xyields_refl.
  - cbn [length] in Hn.
    destruct (Hbody i c s ltac:(lia) Hwf Hs Ha) as (s1 & Hr1 & Hy1).
    destruct k as [|k].
    + pose proof (Hbad c eq_refl) as Hb. rewrite Nat.add_0_r in Hb.
      rewrite Hb in Hr1, Hy1. rewrite Nat.add_0_r.
      rewrite xrun_xfor_range_cons, Hr1.
      exists s1. cbn. split; [done|exact Hy1].
    + pose proof (Hgood 0%nat c ltac:(lia) eq_refl) as Hg.
      rewrite Nat.add_0_r in Hg. rewrite Hg in Hr1, Hy1.
      rewrite xrun_xfor_range_cons, Hr1.
      destruct Hy1 as [Hb1 Hx1].
      destruct (IH (S i) k s1) as (s2 & Hr2 & Hy2).
      { by eapply yields_wf. }
      { destruct Hb1 as (H&_). by rewrite H. }
      { destruct Hb1 as (_&H&_). by rewrite H. }
      { cbn in Hk. lia. }
      { lia. }
      { intros j c' Hj Hc'. replace (S i + j)%nat with (i + S j)%nat by lia.
        apply Hgood; [lia|done]. }
      { intros c' Hc'. replace (S i + k)%nat with (i + S k)%nat by lia.
        by apply Hbad. }
      exists s2. split; [done|]. cbn [lookup take fmap list_fmap].
      replace (i + S k)%nat with (S i + k)%nat by lia.
      apply (xyields_trans s s1 s2 [] _ [xo c] _); [by split|done].
Qed.

Lemma run_member_name env wc i s pcs pc p :
  arrays s !! pending wc = Some (Some <$> pcs) ->
  pcs !! i = Some pc -> slots s !! pc = Some p ->
  run env (member_name wc i) s = (Done (pc_name p), s).
Proof.
  intros Ha Hi Hp. unfold member_name. rewrite run_bind.
  cbn [trigger run handle Resp]. rewrite Ha. cbn [run].
  rewrite list_lookup_fmap, Hi. cbn. by rewrite Hp.
Qed.

(** Writing into the file of an event that [newEvent] has just returned. *)
Lemma run_write_event_log env r data s :
  (forall ev, r = Some ev ->
     exists e f, evheap s !! ev = Some e /\ log e = Some f /\ file_open s f) ->
  exists s',
    run env (write_event_log r data) s = (Done None, s') /\ quiet s s' /\
    forall ev, r = Some ev -> ev_live s' ev.
Proof.
  intros Hl. destruct r as [ev|]; cbn [write_event_log].
  2:{ exists s. split; [done|]. split; [apply quiet_refl|done]. }
  destruct (Hl ev eq_refl) as (e & f & He & Hf & d & Hd & Hc).
  rewrite run_bind. cbn [trigger run handle Resp]. rewrite He. cbn [run].
  rewrite Hf. cbn [trigger run handle]. rewrite Hd, Hc.
  eexists. split; [reflexivity|]. split.
  - apply (quiet_same _ _ []); try done. by rewrite app_nil_r.
  - intros ? [= <-]. by exists e, f.
Qed.

Lemma fatal_not_event msg : is_event_message (OFatal msg) = false.
Proof. done. Qed.

Lemma run_Fatalf env msg s :
  run env (trigger (ETFatalf msg)) s = (Done tt, observe (OFatal msg) s).
Proof. done. Qed.

(** One round of the loop of [Exec]. *)
Lemma xrun_Exec_member env xenv wc cmd code b0 pcs i c s pc p :
  arrays b0 !! pending wc = Some (Some <$> pcs) ->
  pcs !! i = Some pc -> slots b0 !! pc = Some p ->
  wf_log (base s) -> slots (base s) = slots b0 -> arrays (base s) = arrays b0 ->
  exists s',
    xrun env xenv (Exec_member wc cmd code i c) s =
      (if exec_good xenv cmd code c then Done tt else Exited, s') /\
    xyields s s'
      (if exec_good xenv cmd code c then []
       else [exec_fatal xenv cmd code (pc_name p) c])
      [OExec c cmd].
Proof.
  intros Ha Hi Hp Hwf Hs Hab. unfold Exec_member.
  rewrite xrun_bind, xrun_xbase.
  rewrite (run_member_name env wc i (base s) pcs pc p);
    [|by rewrite Hab|done|by rewrite Hs]. cbn [fst snd].
  replace (set_base (base s) s) with s by (by destruct s).
  destruct (run_newEvent env (pc_name p +:+ ": exec " +:+ Join cmd " ") (base s) Hwf)
    as (r & b1 & Hr1 & Hq1 & Hl1).
  rewrite xrun_bind, xrun_xbase, Hr1. cbn [fst snd].
  rewrite xrun_bind. cbn [xtrigger xrun xhandle fst snd].
  set (s1 := xobserve [OExec c cmd] (set_base b1 s)).
  assert (Hy1 : xyields s s1 [] [OExec c cmd]).
  { split; [exact Hq1|done]. }
  unfold exec_good, exec_fatal.
  destruct (exec xenv c cmd) as [[ec out]|err].
  - destruct (run_write_event_log env r out b1 Hl1) as (b2 & Hr2 & Hq2 & Hl2).
    rewrite xrun_bind, xrun_xbase. cbn [base s1 xobserve set_base].
    rewrite Hr2. cbn [fst snd].
    destruct (ec =? code); cbn [negb].
    + destruct (run_Event_finish env r b2 Hl2) as (b3 & Hr3 & Hq3).
      rewrite xrun_xbase. cbn [base set_base]. rewrite Hr3. cbn [fst snd].
      eexists. split; [reflexivity|]. split; [|done]. cbn [base set_base].
      exact (quiet_trans _ _ _ Hq1 (quiet_trans _ _ _ Hq2 Hq3)).
    + rewrite xrun_bind, xrun_xbase, run_Fatalf. cbn [fst snd xrun].
      eexists. split; [reflexivity|]. split; [|done]. cbn [base set_base].
      eapply yields_quiet_l; [exact (quiet_trans _ _ _ Hq1 Hq2)|].
      by apply yields_observe.
  - rewrite xrun_bind, xrun_xbase, run_Fatalf. cbn [fst snd xrun].
    eexists. split; [reflexivity|]. split; [|done]. cbn [base set_base s1 xobserve].
    eapply yields_quiet_l; [exact Hq1|]. by apply yields_observe.
Qed.

Lemma wait_error_ok s pcs :
  (forall pc, pc ∈ pcs -> slot_resolved_ok s pc) ->
  forall k, wait_error s pcs k = None.
Proof.
  intros Hok k. unfold wait_error. destruct (pcs !! k) as [pc|] eqn:Hk; [|done].
  destruct (Hok pc) as (p & Hp & _ & He); [by eapply list_elem_of_lookup_2|].
  by rewrite Hp, He.
Qed.

(** [mustReady] on a group whose members are all provisioned. *)
Lemma run_mustReady_ok env wc s pcs :
  wf_log s ->
  arrays s !! pending wc = Some (Some <$> pcs) ->
  (forall pc, pc ∈ pcs -> slot_resolved_ok s pc) ->
  exists s',
    run env (mustReady wc) s =
      (Done (ready_group wc, slot_container s <$> pcs), s') /\
    yields s s' (ORecv <$> pcs).
Proof.
  intros Hwf Ha Hok.
  destruct (run_mustReady env wc s pcs (length pcs) Hwf Ha) as (s' & Hr & Hy).
  - done.
  - intros j pc _ Hj. apply Hok. by eapply list_elem_of_lookup_2.
  - intros pc Hpc. apply lookup_lt_Some in Hpc. lia.
  - unfold ready_fatal in Hy. rewrite wait_error_ok in Hr, Hy by done.
    rewrite handles_upto_all in Hr. rewrite firstn_all2, app_nil_r in Hy by lia.
    by exists s'.
Qed.

(** The operations on a group, for a loop body that either goes on or ends
    the goroutine with a fatal report. *)
Lemma xrun_operation env xenv wc (body : WorldContainer -> nat -> Container -> XProg unit)
    (good : Container -> bool) (fatal : string -> Container -> Obs)
    (xo : Container -> XObs) s pcs k :
  (forall b0 i c s1 pc p,
     arrays b0 !! pending wc = Some (Some <$> pcs) ->
     pcs !! i = Some pc -> slots b0 !! pc = Some p ->
     wf_log (base s1) -> slots (base s1) = slots b0 ->
     arrays (base s1) = arrays b0 ->
     exists s',
       xrun env xenv (body (ready_group wc) i c) s1 =
         (if good c then Done tt else Exited, s') /\
       xyields s1 s' (if good c then [] else [fatal (pc_name p) c]) [xo c]) ->
  wf_log (base s) ->
  arrays (base s) !! pending wc = Some (Some <$> pcs) ->
  (forall pc, pc ∈ pcs -> slot_resolved_ok (base s) pc) ->
  (k <= length pcs)%nat ->
  (forall j pc, (j < k)%nat -> pcs !! j = Some pc ->
     good (slot_container (base s) pc) = true) ->
  (forall pc, pcs !! k = Some pc -> good (slot_container (base s) pc) = false) ->
  exists s',
    xrun env xenv
      (xbind (xbase (mustReady wc)) (fun r =>
       xbind (xfor_range 0 (snd r) (body (fst r))) (fun _ => XRet (fst r)))) s =
      (match pcs !! k with
       | Some _ => Exited
       | None => Done (ready_group wc)
       end, s') /\
    xtrace s' = xtrace s ++
      ((fun pc => xo (slot_container (base s) pc)) <$> take (S k) pcs) /\
    own_obs (obs_since (length (trace (base s))) (base s')) =
      (ORecv <$> pcs) ++
      match pcs !! k with
      | Some pc => [fatal (slot_name (base s) pc) (slot_container (base s) pc)]
      | None => []
      end.
Proof.
  intros Hbody Hwf Ha Hok Hk Hgood Hbad.
  destruct (run_mustReady_ok env wc (base s) pcs Hwf Ha Hok) as (b1 & Hr1 & Hy1).
  rewrite xrun_bind, xrun_xbase, Hr1. cbn [fst snd].
  set (s1 := set_base b1 s).
  assert (Hs1 : slots (base s1) = slots (base s)) by (by destruct Hy1 as (H&_)).
  assert (Ha1 : arrays (base s1) = arrays (base s)) by (by destruct Hy1 as (_&H&_)).
  set (names := fun i => match pcs !! i with
                         | Some pc => slot_name (base s) pc
                         | None => ""
                         end).
  destruct (xrun_xfor_range env xenv (body (ready_group wc))
              (fun _ c => good c) (fun i c => fatal (names i) c) xo
              (base s) (length pcs)) with
    (l := slot_container (base s) <$> pcs) (i := 0%nat) (k := k) (s := s1)
    as (s2 & Hr2 & Hy2 & Hx2).
  - intros i c s0 Hi Hwf0 Hs0 Ha0.
    destruct (pcs !! i) as [pc|] eqn:Hpc.
    2:{ apply lookup_ge_None in Hpc. lia. }
    destruct (Hok pc) as (p & Hp & _); [by eapply list_elem_of_lookup_2|].
    destruct (Hbody (base s) i c s0 pc p Ha Hpc Hp Hwf0 Hs0 Ha0) as (s' & Hr & Hy).
    exists s'. split; [done|]. subst names. cbn beta. rewrite Hpc.
    unfold slot_name. by rewrite Hp.
  - by eapply yields_wf.
  - done.
  - done.
  - by rewrite length_fmap.
  - rewrite length_fmap. lia.
  - intros j c Hj Hc. rewrite list_lookup_fmap in Hc.
    destruct (pcs !! j) as [pc|] eqn:Hpc; [|done]. cbn in Hc. simplify_eq.
    by eapply Hgood.
  - intros c Hc. rewrite list_lookup_fmap in Hc.
    destruct (pcs !! k) as [pc|] eqn:Hpc; [|done]. cbn in Hc. simplify_eq.
    by apply Hbad.
  - rewrite xrun_bind, Hr2. rewrite list_lookup_fmap in *.
    assert (Hy : yields (base s) (base s2)
              ((ORecv <$> pcs) ++
               match slot_container (base s) <$> pcs !! k with
               | Some c => [fatal (names (0 + k)%nat) c]
               | None => []
               end)).
    { eapply yields_trans; [exact Hy1|exact Hy2]. }
    exists s2. destruct (pcs !! k) as [pc|] eqn:Hpc; cbn [fmap option_fmap option_map] in *.
    + split; [done|]. split.
      { rewrite Hx2. cbn [xtrace s1 set_base]. by rewrite <- fmap_take, <- list_fmap_compose. }
      rewrite (yields_obs_since _ _ _ Hy). subst names. cbn beta. cbn [Nat.add].
      by rewrite Hpc.
    + split; [done|]. split.
      { rewrite Hx2. cbn [xtrace s1 set_base]. by rewrite <- fmap_take, <- list_fmap_compose. }
      by rewrite (yields_obs_since _ _ _ Hy).
Qed.

(** One round of the loop of [Wait]. *)
Lemma xrun_Wait_member env xenv wc st b0 pcs i c s pc p :
  arrays b0 !! pending wc = Some (Some <$> pcs) ->
  pcs !! i = Some pc -> slots b0 !! pc = Some p ->
  wf_log (base s) -> slots (base s) = slots b0 -> arrays (base s) = arrays b0 ->
  exists s',
    xrun env xenv (Wait_member wc st i c) s =
      (if wait_good xenv st c then Done tt else Exited, s') /\
    xyields s s'
      (if wait_good xenv st c then [] else [wait_fatal xenv st (pc_name p) c])
      [OWaitUntilReady st c].
Proof.
  intros Ha Hi Hp Hwf Hs Hab. unfold Wait_member.
  rewrite xrun_bind, xrun_xbase.
  rewrite (run_member_name env wc i (base s) pcs pc p);
    [|by rewrite Hab|done|by rewrite Hs]. cbn [fst snd].
  replace (set_base (base s) s) with s by (by destruct s).
  destruct (run_newEvent env (pc_name p +:+ ": wait") (base s) Hwf)
    as (r & b1 & Hr1 & Hq1 & Hl1).
  rewrite xrun_bind, xrun_xbase, Hr1. cbn [fst snd].
  rewrite xrun_bind. cbn [xtrigger xrun xhandle fst snd].
  unfold wait_good, wait_fatal.
  destruct (waitUntilReady xenv st c) as [err|]; cbn [default].
  - rewrite xrun_bind, xrun_xbase, run_Fatalf. cbn [fst snd xrun].
    eexists. split; [reflexivity|]. split; [|done]. cbn [base set_base xobserve].
    eapply yields_quiet_l; [exact Hq1|]. by apply yields_observe.
  - assert (Hl : forall ev, r = Some ev -> ev_live b1 ev).
    { intros ev Hev. destruct (Hl1 ev Hev) as (e & f & He & Hf & _). by exists e, f. }
    destruct (run_Event_finish env r b1 Hl) as (b3 & Hr3 & Hq3).
    rewrite xrun_xbase. cbn [base set_base xobserve]. rewrite Hr3. cbn [fst snd].
    eexists. split; [reflexivity|]. split; [|done]. cbn [base set_base].
    exact (quiet_trans _ _ _ Hq1 Hq3).
Qed.

(** One round of the loop of [LogFile]. *)
Lemma xrun_LogFile_member env xenv wc path b0 pcs i c s pc p :
  arrays b0 !! pending wc = Some (Some <$> pcs) ->
  pcs !! i = Some pc -> slots b0 !! pc = Some p ->
  wf_log (base s) -> slots (base s) = slots b0 -> arrays (base s) = arrays b0 ->
  exists s',
    xrun env xenv (LogFile_member wc path i c) s =
      (if copy_good xenv path c then Done tt else Exited, s') /\
    xyields s s'
      (if copy_good xenv path c then [] else [copy_fatal xenv path (pc_name p) c])
      [OCopyFile c path].
Proof.
  intros Ha Hi Hp Hwf Hs Hab. unfold LogFile_member.
  rewrite xrun_bind, xrun_xbase.
  rewrite (run_member_name env wc i (base s) pcs pc p);
    [|by rewrite Hab|done|by rewrite Hs]. cbn [fst snd].
  replace (set_base (base s) s) with s by (by destruct s).
  destruct (run_newEvent env (pc_name p +:+ ": log file " +:+ path) (base s) Hwf)
    as (r & b1 & Hr1 & Hq1 & Hl1).
  rewrite xrun_bind, xrun_xbase, Hr1. cbn [fst snd].
  rewrite xrun_bind. cbn [xtrigger xrun xhandle fst snd].
  unfold copy_good, copy_fatal.
  destruct (copyFile xenv c path) as [data|err].
  - destruct (run_write_event_log env r data b1 Hl1) as (b2 & Hr2 & Hq2 & Hl2).
    rewrite xrun_bind, xrun_xbase. cbn [base xobserve set_base].
    rewrite Hr2. cbn [fst snd].
    destruct (run_Event_finish env r b2 Hl2) as (b3 & Hr3 & Hq3).
    rewrite xrun_xbase. cbn [base set_base]. rewrite Hr3. cbn [fst snd].
    eexists. split; [reflexivity|]. split; [|done]. cbn [base set_base].
    exact (quiet_trans _ _ _ Hq1 (quiet_trans _ _ _ Hq2 Hq3)).
  - rewrite xrun_bind, xrun_xbase, run_Fatalf. cbn [fst snd xrun].
    eexists. split; [reflexivity|]. split; [|done]. cbn [base set_base xobserve].
    eapply yields_quiet_l; [exact Hq1|]. by apply yields_observe.
Qed.

Lemma webXState_wf : wf_log (base webXState).
Proof. split; [reflexivity|]. repeat constructor; by eexists. Qed.

(** [Exec] on a provisioned group runs the command in the members in their
    order, up to and including the first member in which it cannot be run
    or exits with another code than the expected one: the goroutine ends
    there with a fatal report that names this member, and the members after
    it are not touched. When there is no such member the group comes back
    marked ready. *)
Theorem Exec_fail_fast env xenv wc cmd code s pcs k :
  wf_log (base s) ->
  arrays (base s) !! pending wc = Some (Some <$> pcs) ->
  (forall pc, pc ∈ pcs -> slot_resolved_ok (base s) pc) ->
  (k <= length pcs)%nat ->
  (forall j pc, (j < k)%nat -> pcs !! j = Some pc ->
     exec_good xenv cmd code (slot_container (base s) pc) = true) ->
  (forall pc, pcs !! k = Some pc ->
     exec_good xenv cmd code (slot_container (base s) pc) = false) ->
  exists s',
    xrun env xenv (Exec wc cmd code) s =
      (match pcs !! k with
       | Some _ => Exited
       | None => Done (ready_group wc)
       end, s') /\
    xtrace s' = xtrace s ++
      ((fun pc => OExec (slot_container (base s) pc) cmd) <$> take (S k) pcs) /\
    own_obs (obs_since (length (trace (base s))) (base s')) =
      (ORecv <$> pcs) ++
      match pcs !! k with
      | Some pc => [exec_fatal xenv cmd code (slot_name (base s) pc)
                      (slot_container (base s) pc)]
      | None => []
      end.
Proof.
  intros Hwf Ha Hok Hk Hgood Hbad.
  apply (xrun_operation env xenv wc (fun wc' => Exec_member wc' cmd code)
           (exec_good xenv cmd code) (exec_fatal xenv cmd code)
           (fun c => OExec c cmd) s pcs k); try done.
  intros b0 i c s1 pc p Ha0 Hi Hp Hwf1 Hs1 Ha1.
  by apply (xrun_Exec_member env xenv (ready_group wc) cmd code b0 pcs i c s1 pc p).
Qed.

Lemma Exec_fail_fast_witness :
  wf_log (base webXState) /\
  arrays (base webXState) !! pending webGroup = Some (Some <$> [0; 1]%nat) /\
  (forall pc, pc ∈ [0; 1]%nat -> slot_resolved_ok (base webXState) pc) /\
  exists s',
    xrun sampleEnv failingXEnv (Exec webGroup ["ls"; "/srv"] 0) webXState =
      (Exited, s') /\
    xtrace s' = [OExec (Some 11%nat) ["ls"; "/srv"]] /\
    own_obs (obs_since (length (trace webState)) (base s')) =
      [ORecv 0%nat; ORecv 1%nat;
       OFatal "Command [ls /srv] exited with code 1 (expected 0) in container T-nginx-1-1"].
Proof.
  split; [exact webXState_wf|]. split; [reflexivity|].
  split; [exact webState_resolved|].
  refine (Exec_fail_fast sampleEnv failingXEnv webGroup ["ls"; "/srv"] 0 webXState
            [0; 1]%nat 0 webXState_wf eq_refl webState_resolved _ _ _).
  - cbn. lia.
  - intros j pc Hj. lia.
  - intros pc [= <-]. reflexivity.
Defined.

(** [Wait] on a provisioned group waits for the members in their order, up
    to and including the first member for which the strategy fails: the
    goroutine ends there with a fatal report that names this member, and
    the members after it are not waited for. *)
Theorem Wait_fail_fast env xenv wc st s pcs k :
  wf_log (base s) ->
  arrays (base s) !! pending wc = Some (Some <$> pcs) ->
  (forall pc, pc ∈ pcs -> slot_resolved_ok (base s) pc) ->
  (k <= length pcs)%nat ->
  (forall j pc, (j < k)%nat -> pcs !! j = Some pc ->
     wait_good xenv st (slot_container (base s) pc) = true) ->
  (forall pc, pcs !! k = Some pc ->
     wait_good xenv st (slot_container (base s) pc) = false) ->
  exists s',
    xrun env xenv (Wait wc st) s =
      (match pcs !! k with
       | Some _ => Exited
       | None => Done (ready_group wc)
       end, s') /\
    xtrace s' = xtrace s ++
      ((fun pc => OWaitUntilReady st (slot_container (base s) pc)) <$>
         take (S k) pcs) /\
    own_obs (obs_since (length (trace (base s))) (base s')) =
      (ORecv <$> pcs) ++
      match pcs !! k with
      | Some pc => [wait_fatal xenv st (slot_name (base s) pc)
                      (slot_container (base s) pc)]
      | None => []
      end.
Proof.
  intros Hwf Ha Hok Hk Hgood Hbad.
  apply (xrun_operation env xenv wc (fun wc' => Wait_member wc' st)
           (wait_good xenv st) (wait_fatal xenv st)
           (fun c => OWaitUntilReady st c) s pcs k); try done.
  intros b0 i c s1 pc p Ha0 Hi Hp Hwf1 Hs1 Ha1.
  by apply (xrun_Wait_member env xenv (ready_group wc) st b0 pcs i c s1 pc p).
Qed.

Lemma Wait_fail_fast_witness :
  wf_log (base webXState) /\
  arrays (base webXState) !! pending webGroup = Some (Some <$> [0; 1]%nat) /\
  (forall pc, pc ∈ [0; 1]%nat -> slot_resolved_ok (base webXState) pc) /\
  exists s',
    xrun sampleEnv sampleXEnv (Wait webGroup 3%nat) webXState =
      (Done (ready_group webGroup), s') /\
    xtrace s' = [OWaitUntilReady 3%nat (Some 11%nat);
                 OWaitUntilReady 3%nat (Some 11%nat)] /\
    own_obs (obs_since (length (trace webState)) (base s')) =
      [ORecv 0%nat; ORecv 1%nat].
Proof.
  split; [exact webXState_wf|]. split; [reflexivity|].
  split; [exact webState_resolved|].
  refine (Wait_fail_fast sampleEnv sampleXEnv webGroup 3%nat webXState
            [0; 1]%nat 2 webXState_wf eq_refl webState_resolved _ _ _).
  - cbn. lia.
  - intros j pc Hj Hpc. reflexivity.
  - intros pc [=].
Defined.

(** [LogFile] on a provisioned group copies the file out of the members in
    their order, up to and including the first member that cannot give it:
    the goroutine ends there with a fatal report that names the file and
    this member, and the members after it are not asked. *)
Theorem LogFile_fail_fast env xenv wc path s pcs k :
  wf_log (base s) ->
  arrays (base s) !! pending wc = Some (Some <$> pcs) ->
  (forall pc, pc ∈ pcs -> slot_resolved_ok (base s) pc) ->
  (k <= length pcs)%nat ->
  (forall j pc, (j < k)%nat -> pcs !! j = Some pc ->
     copy_good xenv path (slot_container (base s) pc) = true) ->
  (forall pc, pcs !! k = Some pc ->
     copy_good xenv path (slot_container (base s) pc) = false) ->
  exists s',
    xrun env xenv (LogFile wc path) s =
      (match pcs !! k with
       | Some _ => Exited
       | None => Done (ready_group wc)
       end, s') /\
    xtrace s' = xtrace s ++
      ((fun pc => OCopyFile (slot_container (base s) pc) path) <$>
         take (S k) pcs) /\
    own_obs (obs_since (length (trace (base s))) (base s')) =
      (ORecv <$> pcs) ++
      match pcs !! k with
      | Some pc => [copy_fatal xenv path (slot_name (base s) pc)
                      (slot_container (base s) pc)]
      | None => []
      end.
Proof.
  intros Hwf Ha Hok Hk Hgood Hbad.
  apply (xrun_operation env xenv wc (fun wc' => LogFile_member wc' path)
           (copy_good xenv path) (copy_fatal xenv path)
           (fun c => OCopyFile c path) s pcs k); try done.
  intros b0 i c s1 pc p Ha0 Hi Hp Hwf1 Hs1 Ha1.
  by apply (xrun_LogFile_member env xenv (ready_group wc) path b0 pcs i c s1 pc p).
Qed.

Lemma LogFile_fail_fast_witness :
  wf_log (base webXState) /\
  arrays (base webXState) !! pending webGroup = Some (Some <$> [0; 1]%nat) /\
  (forall pc, pc ∈ [0; 1]%nat -> slot_resolved_ok (base webXState) pc) /\
  exists s',
    xrun sampleEnv failingXEnv (LogFile webGroup "/var/log/nginx/error.log")
      webXState = (Exited, s') /\
    xtrace s' = [OCopyFile (Some 11%nat) "/var/log/nginx/error.log"] /\
    own_obs (obs_since (length (trace webState)) (base s')) =
      [ORecv 0%nat; ORecv 1%nat;
       OFatal "Failed to copy file /var/log/nginx/error.log from container T-nginx-1-1: no such file"].
Proof.
  split; [exact webXState_wf|]. split; [reflexivity|].
  split; [exact webState_resolved|].
  refine (LogFile_fail_fast sampleEnv failingXEnv webGroup
            "/var/log/nginx/error.log" webXState
            [0; 1]%nat 0 webXState_wf eq_refl webState_resolved _ _ _).
  - cbn. lia.
  - intros j pc Hj. lia.
  - intros pc [= <-]. reflexivity.
Defined.

(** An event created on an enabled log and data written into its file:
    the file holds the start line and the data and is open. *)
Lemma run_event_with_data env d data s :
  rw (wlog s) = false -> world (wlog s) = true ->
  createFails env (event_path (wlog s) (eventCounter (wlog s))) = false ->
  let idv := eventCounter (wlog s) in
  let ev := length (evheap s) in
  let path := event_path (wlog s) idv in
  exists s1 s2,
    run env (newEvent d) s = (Done (Some ev), s1) /\
    run env (write_event_log (Some ev) data) s1 = (Done None, s2) /\
    events (wlog s2) = events (wlog s) ++ [ev] /\
    evheap s2 !! ev = Some (started_event idv d (clock env (tick s)) (Some path)) /\
    file_lookup path (evfiles s2) =
      Some {| content := start_line idv d +:+ data; closed := false |} /\
    tick s2 = S (tick s).
Proof.
  intros Hrw Hw Hc. cbv zeta.
  destruct (run_newEvent_exact env d s Hrw Hw)
    as (s1 & Hr1 & _ & _ & _ & Hev1 & _ & Hh1 & Hf1 & _ & Htk1).
  cbv zeta in *. rewrite Hc in *.
  set (path := event_path (wlog s) (eventCounter (wlog s))) in *.
  assert (He1 : evheap s1 !! length (evheap s) =
                Some (started_event (eventCounter (wlog s)) d
                        (clock env (tick s)) (Some path))).
  { by rewrite Hh1, heap_lookup_new. }
  assert (Hopen : file_lookup path (evfiles s1) =
                  Some {| content := start_line (eventCounter (wlog s)) d;
                          closed := false |}).
  { rewrite Hf1. erewrite file_lookup_update; [|apply file_lookup_create]. done. }
  eexists s1, _. split; [exact Hr1|].
  cbn [write_event_log]. rewrite run_bind. cbn [trigger run handle Resp].
  rewrite He1. cbn [run started_event log]. cbn [trigger run handle].
  rewrite Hopen. cbn [closed].
  split; [reflexivity|]. cbn [wlog upd_evfiles evheap evfiles tick].
  split; [done|]. split; [done|]. split; [|done].
  by erewrite file_lookup_update; [|exact Hopen].
Qed.

(** [Exec] on an awaited group of one container, with an enabled log: the
    output of the command goes into the file of the event, after its start
    line. When the command exits as expected the finish line follows and
    the file is closed; when it exits with another code the goroutine
    ends, the event is left unfinished and its file open. *)
Theorem Exec_records_output env xenv wc cmd code s pc exitCode out :
  rw (wlog (base s)) = false -> world (wlog (base s)) = true ->
  createFails env
    (event_path (wlog (base s)) (eventCounter (wlog (base s)))) = false ->
  isReady wc = true ->
  arrays (base s) !! pending wc = Some [Some pc] ->
  slot_resolved_ok (base s) pc ->
  exec xenv (slot_container (base s) pc) cmd = inl (exitCode, out) ->
  let idv := eventCounter (wlog (base s)) in
  let d := slot_name (base s) pc +:+ ": exec " +:+ Join cmd " " in
  let t0 := clock env (tick (base s)) in
  let t1 := clock env (S (tick (base s))) in
  exists s',
    xrun env xenv (Exec wc cmd code) s =
      (if exitCode =? code then Done (ready_group wc) else Exited, s') /\
    events (wlog (base s')) =
      events (wlog (base s)) ++ [length (evheap (base s))] /\
    evheap (base s') !! length (evheap (base s)) =
      Some {| id := idv; description := d; ev_startTime := t0;
              ev_finishTime := if exitCode =? code then t1 else zeroTime;
              log := Some (event_path (wlog (base s)) idv) |} /\
    file_lookup (event_path (wlog (base s)) idv) (evfiles (base s')) =
      Some {| content := start_line idv d +:+ out +:+
                         (if exitCode =? code then finish_line idv t0 t1 else "");
              closed := exitCode =? code |}.
Proof.
  intros Hrw Hw Hc Hready Ha Hok Hx. cbv zeta.
  destruct Hok as (p & Hp & Hpr & Hpe).
  assert (Hoks : forall pc', pc' ∈ [pc] -> slot_resolved_ok (base s) pc').
  { intros pc' ->%list_elem_of_singleton. by exists p. }
  unfold Exec. rewrite xrun_bind, xrun_xbase.
  rewrite (mustReady_ready_is_silent_aux env wc (base s) [pc] Hready Ha Hoks).
  cbn [fst snd fmap list_fmap xfor_range xbind].
  set (b0 := add_obs [ORecv pc] (base s)).
  rewrite !xrun_bind. unfold Exec_member at 1.
  rewrite xrun_bind, xrun_xbase. cbn [base set_base].
  rewrite (run_member_name env (ready_group wc) 0 b0 [pc] pc p Ha eq_refl Hp).
  cbn [fst snd base set_base].
  unfold slot_name, slot_container in *. rewrite Hp in *.
  destruct (run_event_with_data env (pc_name p +:+ ": exec " +:+ Join cmd " ")
              out b0 Hrw Hw Hc) as (s1 & s2 & Hr1 & Hr2 & Hev2 & Hh2 & Hf2 & Htk2).
  cbv zeta in *. change (evheap b0) with (evheap (base s)) in *.
  cbn [b0 add_obs wlog tick] in Hev2, Hh2, Hf2, Htk2.
  rewrite xrun_bind, xrun_xbase. cbn [base set_base]. rewrite Hr1.
  cbn [fst snd base set_base].
  rewrite xrun_bind. cbn [xtrigger xrun xhandle fst snd]. rewrite Hx.
  rewrite xrun_bind, xrun_xbase. cbn [base xobserve set_base]. rewrite Hr2.
  cbn [fst snd].
  destruct (exitCode =? code); cbn [negb].
  - destruct (run_Event_finish_exact env (length (evheap (base s))) _ _ s2 Hh2 eq_refl)
      as (s3 & Hr3 & _ & Hl3 & Hh3 & Hf3 & _ & _).
    cbv zeta in *. cbn [id ev_startTime started_event] in *.
    rewrite Hf2 in Hf3. cbn [closed] in Hf3.
    rewrite xrun_xbase. cbn [base set_base]. rewrite Hr3. cbn [fst snd xrun].
    eexists. split; [reflexivity|]. cbn [base set_base].
    split; [by rewrite Hl3|]. split.
    + rewrite Hh3, list_lookup_alter_eq, Hh2. by rewrite Htk2.
    + rewrite Hf3, file_update_update.
      erewrite file_lookup_update; [|exact Hf2]. cbn [content closed].
      by rewrite Htk2, string_app_assoc.
  - rewrite xrun_bind, xrun_xbase, run_Fatalf. cbn [fst snd xrun].
    eexists. split; [reflexivity|]. cbn [base set_base observe wlog evheap evfiles].
    split; [done|]. split; [done|]. by rewrite string_app_nil_r.
Qed.

Lemma oneState_resolved : slot_resolved_ok oneState 0%nat.
Proof. by eexists. Qed.

Lemma Exec_records_output_witness :
  rw (wlog (base oneXState)) = false /\ world (wlog (base oneXState)) = true /\
  createFails sampleEnv
    (event_path (wlog (base oneXState)) (eventCounter (wlog (base oneXState))))
    = false /\
  isReady oneGroup = true /\
  arrays (base oneXState) !! pending oneGroup = Some [Some 0%nat] /\
  slot_resolved_ok (base oneXState) 0%nat /\
  exec sampleXEnv (slot_container (base oneXState) 0%nat) ["echo"; "ok"] =
    inl (0, "ok" +:+ LF) /\
  exists s',
    xrun sampleEnv sampleXEnv (Exec oneGroup ["echo"; "ok"] 0) oneXState =
      (Done oneGroup, s') /\
    file_lookup "/tmp/t/events/event_001.log" (evfiles (base s')) =
      Some {| content := start_line 1 "T-alpine-1: exec echo ok" +:+ ("ok" +:+ LF) +:+
                         finish_line 1 (4 * Second) (5 * Second);
              closed := true |}.
Proof.
  split; [reflexivity|]. split; [reflexivity|]. split; [reflexivity|].
  split; [reflexivity|]. split; [reflexivity|]. split; [exact oneState_resolved|].
  split; [reflexivity|].
  destruct (Exec_records_output sampleEnv sampleXEnv oneGroup ["echo"; "ok"] 0
              oneXState 0%nat 0 ("ok" +:+ LF)
              eq_refl eq_refl eq_refl eq_refl eq_refl oneState_resolved eq_refl)
    as (s' & Hr & _ & _ & Hf).
  exists s'. split; [exact Hr|exact Hf].
Defined.

(** [LogFile] on an awaited group of one container, with an enabled log:
    the content of the file of the container stands in the file of an event
    of its own, between the start line and the finish line, and this file
    is closed. *)
Theorem LogFile_copies_content env xenv wc path s pc data :
  rw (wlog (base s)) = false -> world (wlog (base s)) = true ->
  createFails env
    (event_path (wlog (base s)) (eventCounter (wlog (base s)))) = false ->
  isReady wc = true ->
  arrays (base s) !! pending wc = Some [Some pc] ->
  slot_resolved_ok (base s) pc ->
  copyFile xenv (slot_container (base s) pc) path = inl data ->
  let idv := eventCounter (wlog (base s)) in
  let d := slot_name (base s) pc +:+ ": log file " +:+ path in
  let t0 := clock env (tick (base s)) in
  let t1 := clock env (S (tick (base s))) in
  exists s',
    xrun env xenv (LogFile wc path) s = (Done (ready_group wc), s') /\
    xtrace s' = xtrace s ++ [OCopyFile (slot_container (base s) pc) path] /\
    events (wlog (base s')) =
      events (wlog (base s)) ++ [length (evheap (base s))] /\
    evheap (base s') !! length (evheap (base s)) =
      Some {| id := idv; description := d; ev_startTime := t0;
              ev_finishTime := t1;
              log := Some (event_path (wlog (base s)) idv) |} /\
    file_lookup (event_path (wlog (base s)) idv) (evfiles (base s')) =
      Some {| content := start_line idv d +:+ data +:+ finish_line idv t0 t1;
              closed := true |}.
Proof.
  intros Hrw Hw Hc Hready Ha Hok Hx. cbv zeta.
  destruct Hok as (p & Hp & Hpr & Hpe).
  assert (Hoks : forall pc', pc' ∈ [pc] -> slot_resolved_ok (base s) pc').
  { intros pc' ->%list_elem_of_singleton. by exists p. }
  unfold LogFile. rewrite xrun_bind, xrun_xbase.
  rewrite (mustReady_ready_is_silent_aux env wc (base s) [pc] Hready Ha Hoks).
  cbn [fst snd fmap list_fmap xfor_range xbind].
  set (b0 := add_obs [ORecv pc] (base s)).
  rewrite !xrun_bind. unfold LogFile_member at 1.
  rewrite xrun_bind, xrun_xbase. cbn [base set_base].
  rewrite (run_member_name env (ready_group wc) 0 b0 [pc] pc p Ha eq_refl Hp).
  cbn [fst snd base set_base].
  unfold slot_name, slot_container in *. rewrite Hp in *.
  destruct (run_event_with_data env (pc_name p +:+ ": log file " +:+ path)
              data b0 Hrw Hw Hc) as (s1 & s2 & Hr1 & Hr2 & Hev2 & Hh2 & Hf2 & Htk2).
  cbv zeta in *. change (evheap b0) with (evheap (base s)) in *.
  cbn [b0 add_obs wlog tick] in Hev2, Hh2, Hf2, Htk2.
  rewrite xrun_bind, xrun_xbase. cbn [base set_base]. rewrite Hr1.
  cbn [fst snd base set_base].
  rewrite xrun_bind. cbn [xtrigger xrun xhandle fst snd]. rewrite Hx.
  rewrite xrun_bind, xrun_xbase. cbn [base xobserve set_base]. rewrite Hr2.
  cbn [fst snd].
  destruct (run_Event_finish_exact env (length (evheap (base s))) _ _ s2 Hh2 eq_refl)
    as (s3 & Hr3 & _ & Hl3 & Hh3 & Hf3 & _ & _).
  cbv zeta in *. cbn [id ev_startTime started_event] in *.
  rewrite Hf2 in Hf3. cbn [closed] in Hf3.
  rewrite xrun_xbase. cbn [base set_base]. rewrite Hr3. cbn [fst snd xrun].
  eexists. split; [reflexivity|]. cbn [base set_base xtrace].
  split; [done|]. split; [by rewrite Hl3|]. split.
  - rewrite Hh3, list_lookup_alter_eq, Hh2. by rewrite Htk2.
  - rewrite Hf3, file_update_update.
    erewrite file_lookup_update; [|exact Hf2]. cbn [content closed].
    by rewrite Htk2, string_app_assoc.
Qed.

Lemma LogFile_copies_content_witness :
  rw (wlog (base oneXState)) = false /\ world (wlog (base oneXState)) = true /\
  createFails sampleEnv
    (event_path (wlog (base oneXState)) (eventCounter (wlog (base oneXState))))
    = false /\
  isReady oneGroup = true /\
  arrays (base oneXState) !! pending oneGroup = Some [Some 0%nat] /\
  slot_resolved_ok (base oneXState) 0%nat /\
  copyFile sampleXEnv (slot_container (base oneXState) 0%nat) "/etc/motd" =
    inl ("content of /etc/motd" +:+ LF) /\
  exists s',
    xrun sampleEnv sampleXEnv (LogFile oneGroup "/etc/motd") oneXState =
      (Done oneGroup, s') /\
    xtrace s' = [OCopyFile (Some 10%nat) "/etc/motd"] /\
    file_lookup "/tmp/t/events/event_001.log" (evfiles (base s')) =
      Some {| content := start_line 1 "T-alpine-1: log file /etc/motd" +:+
                         ("content of /etc/motd" +:+ LF) +:+
                         finish_line 1 (4 * Second) (5 * Second);
              closed := true |}.
Proof.
  split; [reflexivity|]. split; [reflexivity|]. split; [reflexivity|].
  split; [reflexivity|]. split; [reflexivity|]. split; [exact oneState_resolved|].
  split; [reflexivity|].
  destruct (LogFile_copies_content sampleEnv sampleXEnv oneGroup "/etc/motd"
              oneXState 0%nat ("content of /etc/motd" +:+ LF)
              eq_refl eq_refl eq_refl eq_refl eq_refl oneState_resolved eq_refl)
    as (s' & Hr & Hx & _ & _ & Hf).
  exists s'. split; [exact Hr|]. split; [exact Hx|exact Hf].
Defined.

(** ** Creating a world *)

(** [NewWorldLog] for every answer of the file system. *)
Lemma run_NewWorldLog env nm path s :
  exists s',
    run env (NewWorldLog nm path) s =
      (Done (match new_log_error env nm path with
             | Some err => (None, Some err)
             | None => (Some (fresh_log env nm path (clock env (tick s))), None)
             end), s') /\
    slots s' = slots s /\ arrays s' = arrays s /\ spawned s' = spawned s /\
    wlog s' = wlog s /\ evheap s' = evheap s /\ evfiles s' = evfiles s /\
    trace s' = trace s /\ tick s' = S (tick s) /\
    (new_log_error env nm path = None ->
     combined s' = "" /\ combinedClosed s' = false).
Proof.
  unfold NewWorldLog, new_log_error, fresh_log.
  rewrite run_bind. cbn [trigger run handle Resp].
  rewrite run_bind. cbn [trigger run handle Resp].
  destruct (absPath env path) as [dir|err]; cbn [run].
  2:{ eexists. split; [reflexivity|]. by split_and!. }
  rewrite run_bind. cbn [trigger run handle Resp].
  destruct (mkdirFails env dir) as [err|]; cbn [run].
  { eexists. split; [reflexivity|]. by split_and!. }
  rewrite run_bind. cbn [trigger run handle Resp].
  destruct (createFails env _); cbn [run].
  { eexists. split; [reflexivity|]. by split_and!. }
  rewrite run_bind. cbn [trigger run handle Resp].
  rewrite run_bind. cbn [trigger run handle Resp].
  destruct (mkdirFails env (path_join (tempDir env) "events")) as [err|];
    cbn [run].
  { eexists. split; [reflexivity|]. by split_and!. }
  eexists. split; [reflexivity|]. by split_and!.
Qed.

Lemma setup_report_not_event a b :
  is_event_message (OLog (sprint_args ["Failed to create world log" +:+ a; b])) = false.
Proof. done. Qed.

(** The log a world gets, lines 116-134. *)
Lemma xrun_New_worldLog env xenv logPath s :
  exists s1,
    xrun env xenv (New_worldLog (testName xenv) logPath) s = (Done tt, s1) /\
    xtrace s1 = xtrace s /\
    slots (base s1) = slots (base s) /\ arrays (base s1) = arrays (base s) /\
    spawned (base s1) = spawned (base s) /\
    evheap (base s1) = evheap (base s) /\ evfiles (base s1) = evfiles (base s) /\
    wlog (base s1) =
      world_log env (testName xenv) logPath (clock env (tick (base s))) /\
    trace (base s1) = trace (base s) ++ log_setup_reports env xenv logPath /\
    tick (base s1) = (if String.eqb logPath "" then tick (base s)
                      else S (tick (base s))) /\
    (log_enabled env (testName xenv) logPath = true ->
     combined (base s1) = "" /\ combinedClosed (base s1) = false).
Proof.
  unfold New_worldLog, world_log, log_enabled, log_setup_reports.
  destruct (String.eqb logPath ""); cbn [negb andb].
  { rewrite xrun_xbase. cbn [trigger run handle fst snd].
    eexists. split; [reflexivity|]. cbn. rewrite app_nil_r. by split_and!. }
  assert (Htail : forall sb report,
            xtrace sb = xtrace s -> base sb = add_obs report (base s) ->
            exists s1,
              xrun env xenv
                (xbind (xbase (NewWorldLog (testName xenv) logPath)) (fun r =>
                 match snd r with
                 | Some err =>
                     xbase (trigger (ETLog ["Failed to create world log:"; err]) ;;;
                            trigger (ESetLog dummyWorldLog))
                 | None =>
                     xbase (trigger (ESetLog (default dummyWorldLog (fst r))))
                 end)) sb = (Done tt, s1) /\
              xtrace s1 = xtrace s /\
              slots (base s1) = slots (base s) /\
              arrays (base s1) = arrays (base s) /\
              spawned (base s1) = spawned (base s) /\
              evheap (base s1) = evheap (base s) /\
              evfiles (base s1) = evfiles (base s) /\
              wlog (base s1) =
                (if match new_log_error env (testName xenv) logPath with
                    | Some _ => false
                    | None => true
                    end
                 then fresh_log env (testName xenv) logPath
                        (clock env (tick (base s)))
                 else dummyWorldLog) /\
              trace (base s1) = trace (base s) ++ report ++
                match new_log_error env (testName xenv) logPath with
                | Some err => [OLog (sprint_args ["Failed to create world log:"; err])]
                | None => []
                end /\
              tick (base s1) = S (tick (base s)) /\
              (match new_log_error env (testName xenv) logPath with
               | Some _ => false
               | None => true
               end = true ->
               combined (base s1) = "" /\ combinedClosed (base s1) = false)).
  { intros sb report Hxb Hbb.
    destruct (run_NewWorldLog env (testName xenv) logPath (base sb))
      as (b2 & Hr2 & H1 & H2 & H3 & H4 & H5 & H6 & H7 & H8 & H9).
    rewrite xrun_bind, xrun_xbase, Hr2. cbn [fst snd].
    rewrite Hbb in *.
    cbn [add_obs slots arrays spawned wlog evheap evfiles trace tick] in *.
    destruct (new_log_error env (testName xenv) logPath) as [err|];
      cbn [fst snd default].
    - rewrite xrun_xbase, run_bind. cbn [trigger run handle fst snd].
      eexists. split; [reflexivity|]. cbn. rewrite Hxb, H7, <- app_assoc.
      by split_and!.
    - rewrite xrun_xbase. cbn [trigger run handle fst snd].
      eexists. split; [reflexivity|]. cbn. rewrite Hxb, H7, app_nil_r.
      split_and!; try done. intros _. by apply H9. }
  rewrite xrun_bind. cbn [xtrigger xrun xhandle fst snd].
  rewrite xrun_bind, xrun_xbase. cbn [trigger run handle Resp fst snd base xobserve].
  destruct (mkdirFails env (harnessTempDir xenv +:+ "/worldlogs")) as [err|].
  - rewrite xrun_bind, xrun_xbase. cbn [trigger run handle fst snd].
    apply Htail; cbn; [by rewrite app_nil_r|done].
  - rewrite xrun_bind. cbn [xrun].
    apply Htail; cbn; [by rewrite app_nil_r|].
    destruct (base s). unfold add_obs. cbn. by rewrite app_nil_r.
Qed.

(** [newEvent] and [Event.finish] leave the combined log alone. *)
Lemma run_newEvent_combined env d s :
  wf_log s ->
  exists r s',
    run env (newEvent d) s = (Done r, s') /\ quiet s s' /\
    (forall ev, r = Some ev -> ev_live s' ev) /\
    combined s' = combined s /\ combinedClosed s' = combinedClosed s.
Proof.
  intros Hwf. destruct (run_newEvent env d s Hwf) as (r & s' & Hr & Hq & Hl).
  exists r, s'. split; [done|]. split; [done|]. split.
  { intros ev Hev. destruct (Hl ev Hev) as (e & f & ? & ? & _). by exists e, f. }
  destruct (world (wlog s)) eqn:Hw.
  - destruct (run_newEvent_exact env d s (proj1 Hwf) Hw)
      as (s2 & Hr2 & (_&_&_&Hc&Hcc) & _).
    cbv zeta in Hr2. rewrite Hr in Hr2. by simplify_eq.
  - unfold newEvent in Hr. rewrite run_bind in Hr.
    cbn [trigger run handle] in Hr. rewrite Hw in Hr. cbn in Hr. by simplify_eq.
Qed.

Lemma run_Event_finish_combined env r s :
  (forall ev, r = Some ev -> ev_live s ev) ->
  exists s',
    run env (Event_finish r) s = (Done tt, s') /\ quiet s s' /\
    combined s' = combined s /\ combinedClosed s' = combinedClosed s.
Proof.
  intros Hl. destruct (run_Event_finish env r s Hl) as (s' & Hr & Hq).
  exists s'. split; [done|]. split; [done|].
  destruct r as [ev|].
  - destruct (Hl ev eq_refl) as (e & f & He & Hf).
    destruct (run_Event_finish_exact env ev e f s He Hf)
      as (s2 & Hr2 & (_&_&_&Hc&Hcc) & _).
    rewrite Hr in Hr2. by simplify_eq.
  - cbn in Hr. by simplify_eq.
Qed.

(** [Destroy] on a world without containers. *)
Lemma run_Destroy_empty env w s :
  wf_log s -> (world (wlog s) = true -> combinedClosed s = false) ->
  exists s',
    run env (Destroy (Some w) []) s = (Done tt, s') /\
    yields s s' (if world (wlog s)
                 then OFinalize :: finish_report (wlog s) None else []) /\
    (world (wlog s) = true -> combinedClosed s' = true).
Proof.
  intros Hwf Hopen. cbn [Destroy for_each].
  destruct (run_newEvent_combined env "World: destroy" s Hwf)
    as (ev & s1 & Hr1 & Hq1 & Hl1 & _ & Hc1).
  rewrite run_bind, Hr1. rewrite run_bind. cbn [run].
  destruct (run_Event_finish_combined env ev s1 Hl1) as (s2 & Hr2 & Hq2 & _ & Hc2).
  rewrite run_bind, Hr2.
  pose proof (quiet_trans _ _ _ Hq1 Hq2) as Hq.
  assert (Hwf2 : wf_log s2) by (by eapply yields_wf).
  assert (Hw2 : world (wlog s2) = world (wlog s)) by (by destruct Hq as (_&_&_&H&_)).
  assert (Hp2 : combinedLogPath (wlog s2) = combinedLogPath (wlog s)).
  { by destruct Hq as (_&_&_&_&H&_). }
  destruct (run_WorldLog_finish env s2 Hwf2) as (r & s3 & Hr3 & Hy3).
  rewrite run_bind, Hr3. cbn [run]. exists s3. split; [done|].
  rewrite Hw2 in Hy3. destruct (world (wlog s)) eqn:Hw.
  - destruct (run_WorldLog_finish_closes env s2 Hwf2 Hw2) as (r' & s3' & Hr3' & Hcl & _).
    destruct (run_WorldLog_finish_text env s2 Hwf2 Hw2) as (s3'' & Hr3'' & _).
    { rewrite Hc2, Hc1. by apply Hopen. }
    rewrite Hr3 in Hr3', Hr3''. simplify_eq. split; [|done].
    unfold finish_report in *. rewrite Hp2 in Hy3.
    by eapply yields_quiet_l.
  - split; [|done]. by eapply yields_quiet_l.
Qed.

Lemma own_obs_setup_reports env xenv logPath :
  own_obs (log_setup_reports env xenv logPath) = log_setup_reports env xenv logPath.
Proof.
  unfold log_setup_reports. destruct (String.eqb logPath ""); [done|].
  destruct (mkdirFails env _), (new_log_error env _ _); done.
Qed.

Lemma world_log_wf env nm logPath now s :
  wlog s = world_log env nm logPath now -> wf_log s.
Proof.
  intros H. unfold wf_log. rewrite H. unfold world_log.
  destruct (log_enabled env nm logPath); by split.
Qed.

Lemma world_log_enabled env nm logPath now :
  world (world_log env nm logPath now) = log_enabled env nm logPath.
Proof. unfold world_log. by destruct (log_enabled env nm logPath). Qed.

(** [New] for every harness and every file system. In short mode the test
    is skipped before anything is made. Otherwise the outcome depends on
    the network alone: whatever goes wrong with the log is reported and the
    test goes on without one. When the network cannot be made the world is
    torn down, which finalizes the log, the failure is reported as fatal
    and the test ends. The clean-up of the network is registered either
    way. *)
Theorem New_outcome env xenv logPath s :
  let el := world_log env (testName xenv) logPath (clock env (tick (base s))) in
  exists s',
    xrun env xenv (New logPath) s =
      (if short xenv then Exited
       else match networkNew xenv with
            | inl network =>
                Done {| name := testName xenv; cn := network; containers := ∅;
                        containerKinds := ∅ |}
            | inr _ => Exited
            end, s') /\
    xtrace s' = xtrace s ++ OParallel ::
      (if short xenv then [OSkip "skipping testworld test in short mode"]
       else [ONetworkNew;
             OCleanupNetwork (match networkNew xenv with
                              | inl network => Some network
                              | inr _ => None
                              end)]) /\
    slots (base s') = slots (base s) /\ arrays (base s') = arrays (base s) /\
    spawned (base s') = spawned (base s) /\
    (short xenv = true -> base s' = base s) /\
    (short xenv = false ->
     world (wlog (base s')) = log_enabled env (testName xenv) logPath /\
     own_obs (obs_since (length (trace (base s))) (base s')) =
       log_setup_reports env xenv logPath ++
       match networkNew xenv with
       | inl _ => []
       | inr err =>
           (if world el then OFinalize :: finish_report el None else []) ++
           [OFatal ("Failed to create network: " +:+ err)]
       end).
Proof.
  cbv zeta. unfold New.
  rewrite xrun_bind. cbn [xtrigger xrun xhandle fst snd].
  rewrite xrun_bind. cbn [xtrigger xrun xhandle fst snd].
  destruct (short xenv).
  { rewrite xrun_bind. cbn [xtrigger xrun xhandle fst snd].
    eexists. split; [reflexivity|]. cbn. rewrite !app_nil_r, <- app_assoc.
    by split_and!. }
  rewrite xrun_bind. cbn [xtrigger xrun xhandle fst snd].
  set (s0 := xobserve [] (xobserve [] (xobserve [OParallel] s))).
  destruct (xrun_New_worldLog env xenv logPath s0)
    as (s1 & Hr1 & Hx1 & Hs1 & Ha1 & Hsp1 & Hh1 & Hf1 & Hl1 & Ht1 & Htk1 & Hc1).
  rewrite xrun_bind, Hr1.
  change (base s0) with (base s) in *.
  assert (Hxs : xtrace s1 = xtrace s ++ [OParallel]).
  { rewrite Hx1. cbn. by rewrite !app_nil_r. }
  assert (Hwf1 : wf_log (base s1)) by (by eapply world_log_wf).
  destruct (run_newEvent_combined env "World: Create" (base s1) Hwf1)
    as (event & b2 & Hr2 & Hq2 & Hl2 & Hc2 & Hcc2).
  rewrite xrun_bind, xrun_xbase, Hr2. cbn [fst snd].
  rewrite xrun_bind. cbn [xtrigger xrun xhandle fst snd].
  rewrite xrun_bind. cbn [xtrigger xrun xhandle fst snd].
  assert (Hwf2 : wf_log b2) by (by eapply yields_wf).
  assert (Hw2 : world (wlog b2) = log_enabled env (testName xenv) logPath).
  { destruct Hq2 as (_&_&_&H&_). by rewrite H, Hl1, world_log_enabled. }
  assert (Hobs : forall b' obs, yields b2 b' obs ->
            own_obs (obs_since (length (trace (base s))) b') =
            log_setup_reports env xenv logPath ++ obs).
  { intros b' obs Hy.
    pose proof (yields_quiet_l _ _ _ _ Hq2 Hy) as (_&_&_&_&_&_&_&os&Ht&Ho).
    unfold obs_since. rewrite Ht, Ht1, <- app_assoc, drop_app_length.
    by rewrite own_obs_app, own_obs_setup_reports, Ho. }
  destruct (networkNew xenv) as [network|err].
  - destruct (run_Event_finish_combined env event b2 Hl2) as (b3 & Hr3 & Hq3 & _).
    rewrite xrun_bind, xrun_xbase. cbn [base xobserve set_base].
    rewrite Hr3. cbn [fst snd xrun].
    eexists. split; [reflexivity|]. cbn [base xtrace set_base xobserve].
    pose proof (quiet_trans _ _ _ Hq2 Hq3) as Hq.
    split; [by rewrite Hxs, <- !app_assoc|].
    split; [destruct Hq as (H&_); by rewrite H|].
    split; [destruct Hq as (_&H&_); by rewrite H|].
    split; [destruct Hq as (_&_&H&_); by rewrite H|].
    split; [done|]. intros _. split.
    + destruct Hq3 as (_&_&_&H&_). by rewrite H.
    + apply (Hobs b3 [] Hq3).
  - destruct (run_Destroy_empty env
                {| name := testName xenv; cn := ""; containers := ∅;
                   containerKinds := ∅ |} b2 Hwf2)
      as (b3 & Hr3 & Hy3 & Hcl3).
    { intros Hw. rewrite Hcc2. apply Hc1. by rewrite <- Hw2. }
    rewrite xrun_bind, xrun_xbase. cbn [base xobserve set_base].
    rewrite Hr3. cbn [fst snd].
    rewrite xrun_bind, xrun_xbase, run_Fatalf. cbn [fst snd base set_base].
    set (b4 := observe (OFatal ("Failed to create network: " +:+ err)) b3).
    assert (Hy4 : yields b3 b4 [OFatal ("Failed to create network: " +:+ err)]).
    { by apply yields_observe. }
    destruct (run_Event_finish_combined env event b4) as (b5 & Hr5 & Hq5 & _).
    { intros ev Hev. destruct Hy4 as (_&_&_&_&_&_&Hlive&_). apply Hlive.
      destruct Hy3 as (_&_&_&_&_&_&Hlive3&_). apply Hlive3. by apply Hl2. }
    rewrite xrun_bind, xrun_xbase. cbn [base set_base]. rewrite Hr5.
    cbn [fst snd xrun].
    eexists. split; [reflexivity|]. cbn [base xtrace set_base xobserve].
    pose proof (yields_quiet_r _ _ _ _ (yields_trans _ _ _ _ _ Hy3 Hy4) Hq5) as Hy.
    pose proof (yields_quiet_l _ _ _ _ Hq2 Hy) as Hyy.
    split; [by rewrite Hxs, <- !app_assoc|].
    split; [destruct Hyy as (H&_); by rewrite H|].
    split; [destruct Hyy as (_&H&_); by rewrite H|].
    split; [destruct Hyy as (_&_&H&_); by rewrite H|].
    split; [done|]. intros _. split.
    + destruct Hy as (_&_&_&H&_). by rewrite H.
    + rewrite (Hobs b5 _ Hy). do 2 f_equal.
      assert (Hp : combinedLogPath (wlog b2) =
                   combinedLogPath (world_log env (testName xenv) logPath
                                      (clock env (tick (base s))))).
      { destruct Hq2 as (_&_&_&_&H&_). by rewrite H, Hl1. }
      rewrite world_log_enabled, Hw2. unfold finish_report. by rewrite Hp.
Qed.

(** [New] with a log that can be created and a network that can be made:
    the world's timeline is the fresh one of [NewWorldLog], started one
    reading of the clock before its first event. It holds exactly one
    event, number 0, World: Create, started and finished; the file of this
    event holds the two lines and is closed; the combined log is empty and
    open. *)
Theorem New_first_event env xenv logPath s network :
  short xenv = false -> networkNew xenv = inl network ->
  log_enabled env (testName xenv) logPath = true ->
  let el := fresh_log env (testName xenv) logPath (clock env (tick (base s))) in
  createFails env (event_path el 0) = false ->
  let t0 := clock env (S (tick (base s))) in
  let t1 := clock env (S (S (tick (base s)))) in
  exists s',
    xrun env xenv (New logPath) s =
      (Done {| name := testName xenv; cn := network; containers := ∅;
               containerKinds := ∅ |}, s') /\
    same_log_setup el (wlog (base s')) /\
    events (wlog (base s')) = [length (evheap (base s))] /\
    eventCounter (wlog (base s')) = 1 /\
    evheap (base s') = evheap (base s) ++
      [{| id := 0; description := "World: Create"; ev_startTime := t0;
          ev_finishTime := t1; log := Some (event_path el 0) |}] /\
    file_lookup (event_path el 0) (evfiles (base s')) =
      Some {| content := start_line 0 "World: Create" +:+ finish_line 0 t0 t1;
              closed := true |} /\
    combined (base s') = "" /\ combinedClosed (base s') = false.
Proof.
  intros Hshort Hnet Hen. cbv zeta. intros Hcr. unfold New.
  rewrite xrun_bind. cbn [xtrigger xrun xhandle fst snd].
  rewrite xrun_bind. cbn [xtrigger xrun xhandle fst snd]. rewrite Hshort.
  rewrite xrun_bind. cbn [xtrigger xrun xhandle fst snd].
  set (s0 := xobserve [] (xobserve [] (xobserve [OParallel] s))).
  destruct (xrun_New_worldLog env xenv logPath s0)
    as (s1 & Hr1 & Hx1 & Hs1 & Ha1 & Hsp1 & Hh1 & Hf1 & Hl1 & Ht1 & Htk1 & Hc1).
  rewrite xrun_bind, Hr1.
  change (base s0) with (base s) in *.
  destruct (Hc1 Hen) as [Hcomb Hopen].
  unfold world_log in Hl1. rewrite Hen in Hl1.
  assert (Hne : String.eqb logPath "" = false).
  { unfold log_enabled in Hen. by destruct (String.eqb logPath ""). }
  rewrite Hne in Htk1.
  set (el := fresh_log env (testName xenv) logPath (clock env (tick (base s)))) in *.
  destruct (run_newEvent_exact env "World: Create" (base s1))
    as (b2 & Hr2 & (_&_&_&Hc2&Hcc2) & Hsame2 & Hrw2 & Hev2 & Hct2 & Hh2 & Hf2 & _ & Htk2);
    [by rewrite Hl1..|].
  cbv zeta in *. rewrite Hl1 in *.
  change (eventCounter el) with 0 in *. change (events el) with (@nil nat) in *.
  rewrite Hcr in *. rewrite Hh1 in *. rewrite Htk1 in *.
  set (path := event_path el 0) in *.
  rewrite xrun_bind, xrun_xbase, Hr2. cbn [fst snd].
  rewrite xrun_bind. cbn [xtrigger xrun xhandle fst snd]. rewrite Hnet.
  rewrite xrun_bind. cbn [xtrigger xrun xhandle fst snd].
  assert (He2 : evheap b2 !! length (evheap (base s)) =
                Some (started_event 0 "World: Create"
                        (clock env (S (tick (base s)))) (Some path))).
  { by rewrite Hh2, heap_lookup_new. }
  assert (Hopen2 : file_lookup path (evfiles b2) =
                   Some {| content := start_line 0 "World: Create";
                           closed := false |}).
  { rewrite Hf2. erewrite file_lookup_update; [|apply file_lookup_create]. done. }
  destruct (run_Event_finish_exact env (length (evheap (base s))) _ path b2 He2 eq_refl)
    as (b3 & Hr3 & (_&_&_&Hc3&Hcc3) & Hl3 & Hh3 & Hf3 & _ & _).
  cbv zeta in *. cbn [id ev_startTime started_event] in *.
  rewrite Hopen2 in Hf3. cbn [closed] in Hf3.
  rewrite xrun_bind, xrun_xbase. cbn [base xobserve set_base]. rewrite Hr3.
  cbn [fst snd xrun].
  eexists. split; [reflexivity|]. cbn [base set_base].
  rewrite Hl3. split; [done|]. split; [done|]. split; [done|]. split; [|split; [|split]].
  - rewrite Hh3, Hh2, heap_alter_new. by rewrite Htk2.
  - rewrite Hf3, file_update_update.
    erewrite file_lookup_update; [|exact Hopen2]. cbn. by rewrite Htk2.
  - by rewrite Hc3, Hc2.
  - by rewrite Hcc3, Hcc2.
Qed.

Lemma path_join_inj dir a b : path_join dir a = path_join dir b -> a = b.
Proof.
  unfold path_join. induction dir as [|c dir IH]; intros H.
  - by injection H.
  - apply IH. by injection H.
Qed.

(** [New] with a log when the network cannot be made: the world is torn
    down, which finalizes the log, before the deferred finish of the event
    World: Create runs. So the combined log is written and closed with this
    event unfinished: the chart lists it with no finish time, next to the
    finished World: destroy, and the copy of its file holds the start line
    only. The finish line reaches the file afterwards, when the combined
    log is closed. *)
Theorem New_network_failure_log env xenv logPath s err :
  short xenv = false -> networkNew xenv = inr err ->
  log_enabled env (testName xenv) logPath = true ->
  let el := fresh_log env (testName xenv) logPath (clock env (tick (base s))) in
  createFails env (event_path el 0) = false ->
  createFails env (event_path el 1) = false ->
  let t0 := clock env (S (tick (base s))) in
  let t1 := clock env (S (S (tick (base s)))) in
  let t2 := clock env (S (S (S (tick (base s))))) in
  let create := started_event 0 "World: Create" t0 (Some (event_path el 0)) in
  let destroy := {| id := 1; description := "World: destroy"; ev_startTime := t1;
                    ev_finishTime := t2; log := Some (event_path el 1) |} in
  exists s' files tend,
    xrun env xenv (New logPath) s = (Exited, s') /\
    combinedClosed (base s') = true /\
    combined (base s') = finalized_text (wlog (base s')) [create; destroy] files /\
    file_lookup (event_path el 0) files =
      Some {| content := start_line 0 "World: Create"; closed := false |} /\
    file_lookup (event_path el 1) files =
      Some {| content := start_line 1 "World: destroy" +:+ finish_line 1 t1 t2;
              closed := true |} /\
    file_lookup (event_path el 0) (evfiles (base s')) =
      Some {| content := start_line 0 "World: Create" +:+ finish_line 0 t0 tend;
              closed := true |}.
Proof.
  intros Hshort Hnet Hen. cbv zeta. intros Hcr0 Hcr1. unfold New.
  rewrite xrun_bind. cbn [xtrigger xrun xhandle fst snd].
  rewrite xrun_bind. cbn [xtrigger xrun xhandle fst snd]. rewrite Hshort.
  rewrite xrun_bind. cbn [xtrigger xrun xhandle fst snd].
  set (s0 := xobserve [] (xobserve [] (xobserve [OParallel] s))).
  destruct (xrun_New_worldLog env xenv logPath s0)
    as (s1 & Hr1 & Hx1 & Hs1 & Ha1 & Hsp1 & Hh1 & Hf1 & Hl1 & Ht1 & Htk1 & Hc1).
  rewrite xrun_bind, Hr1.
  change (base s0) with (base s) in *.
  destruct (Hc1 Hen) as [Hcomb Hopen].
  unfold world_log in Hl1. rewrite Hen in Hl1.
  assert (Hne : String.eqb logPath "" = false).
  { unfold log_enabled in Hen. by destruct (String.eqb logPath ""). }
  rewrite Hne in Htk1.
  set (el := fresh_log env (testName xenv) logPath (clock env (tick (base s)))) in *.
  set (n := length (evheap (base s))).
  set (path0 := event_path el 0) in *. set (path1 := event_path el 1) in *.
  assert (Hpne : path1 <> path0).
  { intros H. apply path_join_inj in H. discriminate. }
  (* World: Create starts *)
  destruct (run_newEvent_exact env "World: Create" (base s1))
    as (b2 & Hr2 & (_&_&_&Hc2&Hcc2) & Hsame2 & Hrw2 & Hev2 & Hct2 & Hh2 & Hf2 & _ & Htk2);
    [by rewrite Hl1..|].
  cbv zeta in *. rewrite Hl1 in Hr2, Hsame2, Hev2, Hct2, Hh2, Hf2.
  change (eventCounter el) with 0 in *. change (events el) with (@nil nat) in *.
  change (event_path _ 0) with path0 in Hr2, Hh2, Hf2. rewrite Hcr0 in *. rewrite Hh1 in *. rewrite Htk1 in *.
  fold n in Hr2, Hev2, Hh2.
  rewrite xrun_bind, xrun_xbase, Hr2. cbn [fst snd].
  rewrite xrun_bind. cbn [xtrigger xrun xhandle fst snd]. rewrite Hnet.
  rewrite xrun_bind. cbn [xtrigger xrun xhandle fst snd].
  assert (Hw2 : world (wlog b2) = true) by (by destruct Hsame2 as (->&_)).
  assert (Hd2 : eventsDir (wlog b2) = eventsDir el) by (by destruct Hsame2 as (_&_&_&->&_)).
  (* Destroy: World: destroy starts and finishes, the log is finalized *)
  rewrite xrun_bind, xrun_xbase. cbn [base xobserve set_base Destroy for_each].
  destruct (run_newEvent_exact env "World: destroy" b2 Hrw2 Hw2)
    as (b3 & Hr3 & (_&_&_&Hc3&Hcc3) & Hsame3 & Hrw3 & Hev3 & Hct3 & Hh3 & Hf3 & _ & Htk3).
  cbv zeta in *. unfold event_path in Hr3, Hh3, Hf3. rewrite Hd2, Hct2 in Hr3, Hh3, Hf3.
  change (wrap64 (0 + 1)) with 1 in *.
  change (path_join (eventsDir el) (event_log_name 1)) with path1 in *.
  rewrite Hcr1 in *. rewrite Hh2 in Hr3, Hh3, Hev3.
  rewrite length_app in Hr3, Hev3. cbn [length] in Hr3, Hev3.
  rewrite Nat.add_1_r in Hr3, Hev3. fold n in Hr3, Hev3.
  rewrite run_bind, Hr3, run_bind. cbn [run].
  set (e0 := started_event 0 "World: Create" (clock env (S (tick (base s))))
               (Some path0)) in *.
  set (e1 := started_event 1 "World: destroy" (clock env (tick b2)) (Some path1)) in *.
  assert (He1 : evheap b3 !! S n = Some e1).
  { rewrite Hh3. replace (S n) with (length (evheap (base s) ++ [e0])).
    - apply heap_lookup_new.
    - rewrite length_app. cbn. subst n. lia. }
  assert (Hf1open : file_lookup path1 (evfiles b3) =
                    Some {| content := start_line 1 "World: destroy";
                            closed := false |}).
  { rewrite Hf3. erewrite file_lookup_update; [|apply file_lookup_create]. done. }
  assert (Hf0open : file_lookup path0 (evfiles b3) =
                    Some {| content := start_line 0 "World: Create";
                            closed := false |}).
  { rewrite Hf3, file_lookup_update_ne, file_lookup_create_ne by done.
    rewrite Hf2. erewrite file_lookup_update; [|apply file_lookup_create]. done. }
  destruct (run_Event_finish_exact env (S n) e1 path1 b3 He1 eq_refl)
    as (b4 & Hr4 & (_&_&_&Hc4&Hcc4) & Hl4 & Hh4 & Hf4 & _ & Htk4).
  cbv zeta in *. cbn [id ev_startTime e1 started_event] in Hr4, Hh4, Hf4.
  rewrite Hf1open in Hf4. cbn [closed] in Hf4.
  rewrite run_bind, Hr4.
  assert (Hwf4 : wf_log b4).
  { split; [by rewrite Hl4|]. rewrite Hl4, Hev3, Hev2. cbn [app].
    rewrite Hh4. repeat constructor.
    - rewrite list_lookup_alter_ne by lia. rewrite Hh3.
      rewrite lookup_app_l by (rewrite length_app; cbn; subst n; lia).
      subst n. rewrite heap_lookup_new. by eexists.
    - rewrite list_lookup_alter_eq, He1. by eexists. }
  assert (Hw4 : world (wlog b4) = true).
  { rewrite Hl4. by destruct Hsame3 as (->&_). }
  destruct (run_WorldLog_finish_text env b4 Hwf4 Hw4)
    as (b5 & Hr5 & Hl5 & Hh5 & Hf5 & Hc5).
  { by rewrite Hcc4, Hcc3, Hcc2. }
  destruct (run_WorldLog_finish_closes env b4 Hwf4 Hw4) as (r' & b5' & Hr5' & Hcl5 & _).
  rewrite Hr5 in Hr5'. simplify_eq.
  rewrite run_bind, Hr5. cbn [run fst snd].
  (* the fatal report, then the deferred finish of World: Create *)
  rewrite xrun_bind, xrun_xbase, run_Fatalf. cbn [fst snd base set_base].
  set (b6 := observe (OFatal ("Failed to create network: " +:+ err)) b5').
  assert (He0 : evheap b6 !! n = Some e0).
  { cbn [b6 observe evheap]. rewrite Hh5, Hh4.
    rewrite list_lookup_alter_ne by lia. rewrite Hh3.
    rewrite lookup_app_l by (rewrite length_app; cbn; subst n; lia).
    subst n. apply heap_lookup_new. }
  destruct (run_Event_finish_exact env n e0 path0 b6 He0 eq_refl)
    as (b7 & Hr7 & (_&_&_&Hc7&Hcc7) & Hl7 & Hh7 & Hf7 & _ & _).
  cbv zeta in *. cbn [id ev_startTime e0 started_event] in Hr7, Hh7, Hf7.
  assert (Hf0b4 : file_lookup path0 (evfiles b4) =
                  Some {| content := start_line 0 "World: Create";
                          closed := false |}).
  { rewrite Hf4, !file_lookup_update_ne by done. exact Hf0open. }
  cbn [b6 observe evfiles] in Hf7. rewrite Hf5, Hf0b4 in Hf7. cbn [closed] in Hf7.
  rewrite xrun_bind, xrun_xbase. cbn [base set_base]. rewrite Hr7.
  cbn [fst snd xrun].
  eexists _, (evfiles b4), (clock env (tick b6)).
  split; [reflexivity|]. cbn [base set_base].
  split; [by rewrite Hcc7|]. split; [|split; [done|split]].
  - rewrite Hc7. cbn [b6 observe combined wlog]. rewrite Hc5, Hc4, Hc3, Hc2, Hcomb.
    rewrite Hl7. cbn [b6 observe wlog]. rewrite Hl5.
    unfold listed_events. rewrite Hl4, Hev3, Hev2. cbn [app omap list_omap].
    match goal with |- "" +:+ ?x = _ => change ("" +:+ x) with x end. f_equal.
    rewrite Hh4, list_lookup_alter_ne by lia.
    rewrite list_lookup_alter_eq, He1. rewrite Hh3.
    rewrite lookup_app_l by (rewrite length_app; cbn; subst n; lia).
    subst n. rewrite heap_lookup_new. cbn. unfold e1, started_event.
    cbn. by rewrite Htk3, Htk2.
  - rewrite Hf4, file_update_update.
    erewrite file_lookup_update; [|exact Hf1open]. cbn. by rewrite Htk3, Htk2.
  - rewrite Hf7, file_update_update.
    erewrite file_lookup_update; [|exact Hf0b4]. done.
Qed.

Lemma New_first_event_witness :
  short sampleXEnv = false /\ networkNew sampleXEnv = inl "net" /\
  log_enabled sampleEnv (testName sampleXEnv) "logs" = true /\
  createFails sampleEnv
    (event_path (fresh_log sampleEnv (testName sampleXEnv) "logs"
                   (clock sampleEnv (tick (base initialXSys)))) 0) = false /\
  exists s',
    xrun sampleEnv sampleXEnv (New "logs") initialXSys = (Done sampleWorld, s') /\
    events (wlog (base s')) = [0%nat] /\
    evheap (base s') =
      [{| id := 0; description := "World: Create"; ev_startTime := 2 * Second;
          ev_finishTime := 3 * Second;
          log := Some "/tmp/t/events/event_000.log" |}] /\
    file_lookup "/tmp/t/events/event_000.log" (evfiles (base s')) =
      Some {| content := start_line 0 "World: Create" +:+
                         finish_line 0 (2 * Second) (3 * Second);
              closed := true |}.
Proof.
  split; [reflexivity|]. split; [reflexivity|]. split; [reflexivity|].
  split; [reflexivity|].
  destruct (New_first_event sampleEnv sampleXEnv "logs" initialXSys "net"
              eq_refl eq_refl eq_refl eq_refl)
    as (s' & Hr & _ & Hev & _ & Hh & Hf & _).
  exists s'. split; [exact Hr|]. split; [exact Hev|]. split; [exact Hh|exact Hf].
Defined.

Lemma New_network_failure_log_witness :
  short failingXEnv = false /\ networkNew failingXEnv = inr "no docker" /\
  log_enabled sampleEnv (testName failingXEnv) "logs" = true /\
  createFails sampleEnv
    (event_path (fresh_log sampleEnv (testName failingXEnv) "logs"
                   (clock sampleEnv (tick (base initialXSys)))) 0) = false /\
  createFails sampleEnv
    (event_path (fresh_log sampleEnv (testName failingXEnv) "logs"
                   (clock sampleEnv (tick (base initialXSys)))) 1) = false /\
  exists s' files tend,
    xrun sampleEnv failingXEnv (New "logs") initialXSys = (Exited, s') /\
    combinedClosed (base s') = true /\
    file_lookup "/tmp/t/events/event_000.log" files =
      Some {| content := start_line 0 "World: Create"; closed := false |} /\
    file_lookup "/tmp/t/events/event_000.log" (evfiles (base s')) =
      Some {| content := start_line 0 "World: Create" +:+
                         finish_line 0 (2 * Second) tend;
              closed := true |}.
Proof.
  split; [reflexivity|]. split; [reflexivity|]. split; [reflexivity|].
  split; [reflexivity|]. split; [reflexivity|].
  destruct (New_network_failure_log sampleEnv failingXEnv "logs" initialXSys
              "no docker" eq_refl eq_refl eq_refl eq_refl eq_refl)
    as (s' & files & tend & Hr & Hcl & _ & Hf0 & _ & Hf).
  exists s', files, tend. split; [exact Hr|]. split; [exact Hcl|].
  split; [exact Hf0|exact Hf].
Defined.

(** ** Operations on a group that could not be created *)

(** [Exec], [Wait] and [LogFile] on a group one of whose members could not
    be created: the goroutine ends with the fatal report of [mustReady]
    before any container is touched, also the members that were created
    before the failed one. *)
Theorem operations_need_every_member env xenv wc op s pcs k pc nm e :
  wf_log (base s) ->
  arrays (base s) !! pending wc = Some (Some <$> pcs) ->
  (forall j pc', (j < k)%nat -> pcs !! j = Some pc' ->
     slot_resolved_ok (base s) pc') ->
  pcs !! k = Some pc -> slot_failed (base s) pc nm e ->
  exists s',
    xrun env xenv (operate wc op) s = (Exited, s') /\
    xtrace s' = xtrace s /\
    own_obs (obs_since (length (trace (base s))) (base s')) =
      (ORecv <$> take (S k) pcs) ++
      [OFatal ("Container " +:+ Name wc +:+ " failed to create: " +:+
               nm +:+ ": " +:+ e)].
Proof.
  intros Hwf Ha Hok Hk (p & Hp & Hr & Hn & He).
  destruct (run_mustReady env wc (base s) pcs k Hwf Ha) as (b1 & Hr1 & Hy1).
  - apply lookup_lt_Some in Hk. lia.
  - done.
  - intros pc' Hpc'. rewrite Hk in Hpc'. injection Hpc' as <-.
    exists nm, e. by exists p.
  - unfold ready_fatal, wait_error in Hr1, Hy1. rewrite Hk, Hp, He, Hn in Hr1, Hy1.
    cbn [fmap option_fmap option_map] in Hr1, Hy1.
    exists (set_base b1 s).
    split; [|split; [done|exact (yields_obs_since _ _ _ Hy1)]].
    destruct op; cbn [operate]; unfold Exec, Wait, LogFile;
      by rewrite xrun_bind, xrun_xbase, Hr1.
Qed.

Lemma operations_need_every_member_witness :
  wf_log sampleState /\
  arrays sampleState !! pending sampleGroup = Some (Some <$> [0; 1; 2]%nat) /\
  slot_resolved_ok sampleState 0%nat /\
  slot_failed sampleState 1%nat "T-alpine-1-2" "boom" /\
  exists s',
    xrun sampleEnv sampleXEnv (operate sampleGroup (OpExec ["true"] 0))
      {| base := sampleState; xtrace := [] |} = (Exited, s') /\
    xtrace s' = [] /\
    own_obs (obs_since (length (trace sampleState)) (base s')) =
      [ORecv 0%nat; ORecv 1%nat;
       OFatal "Container T-alpine-1 failed to create: T-alpine-1-2: boom"].
Proof.
  assert (Hwf : wf_log sampleState).
  { split; [reflexivity|]. repeat constructor; vm_compute; eauto. }
  assert (H0 : slot_resolved_ok sampleState 0%nat).
  { eexists. split; [reflexivity|]. split; reflexivity. }
  assert (H1 : slot_failed sampleState 1%nat "T-alpine-1-2" "boom").
  { eexists. split; [reflexivity|]. repeat split; reflexivity. }
  split; [exact Hwf|]. split; [reflexivity|]. split; [exact H0|].
  split; [exact H1|].
  refine (operations_need_every_member sampleEnv sampleXEnv sampleGroup
            (OpExec ["true"] 0) {| base := sampleState; xtrace := [] |}
            [0; 1; 2]%nat 1 1%nat "T-alpine-1-2" "boom" Hwf eq_refl _ eq_refl H1).
  intros [|j] pc' Hj Hpc'; [|lia]. cbn in Hpc'. by simplify_eq.
Defined.

(** ** A world without a log *)







